(** * flask_api/responses.py: JSON envelopes, staged downloads, background jobs

    A shallow embedding of [src/flask_api/responses.py] and the properties
    its specification states about it.

    - Python values are an inductive type [pyvalue]. A [str] is the list of
      its code points (so is the text of an exception); an [int] is a [Z];
      a [float] is given by the text [float.__repr__] shows for it. File
      names and documents are [string]s, a character standing for a code
      point below 256 (and, in the body of a response, for a byte).
    - [json.dumps], [json.loads], [repr], [os.path], [uuid4] and the file
      system calls belong to the Python runtime, not to this repository:
      they are modelled here as far as the code of [responses.py] depends on
      them. The recursion limit of the interpreter is not modelled.
    - Code that touches the file system, the clock, the uuid generator or the
      request context is written in a state-and-exception monad over [World].
      An exception carries its class, so that a handler catches what its
      clause names. [os.remove] can be refused and other processes can act
      while a thread sleeps; [shutil.copy2] fails where its destination
      cannot be opened; apart from that writes are not refused (no full
      disk, no read-only directory, nothing in the way of a directory that
      [os.makedirs] is to create).
    - A thread is modelled by its body, run on the world it finds. *)

From Stdlib Require Import ZArith NArith Ascii String List Bool Lia.
From Stdlib Require Import DecimalString DecimalZ DecimalN DecimalPos DecimalFacts.
From stdpp Require Import gmap strings list.

Local Open Scope Z_scope.
Local Open Scope string_scope.

(* ===================================================================== *)
(** * Text *)
(* ===================================================================== *)

(** A [str]: its code points. *)
Definition pystr := list N.

(** The [str] of a text whose characters stand for code points below 256. *)
Definition pystr_of (s : string) : pystr := map N_of_ascii (list_ascii_of_string s).
Coercion pystr_of : string >-> pystr.

Fixpoint pystr_eqb (a b : pystr) : bool :=
  match a, b with
  | [], [] => true
  | x :: a', y :: b' => (x =? y)%N && pystr_eqb a' b'
  | _, _ => false
  end.

(* ===================================================================== *)
(** * Exceptions *)
(* ===================================================================== *)

(** The classes the code and the runtime calls it makes name, any other
    subclass of [Exception], and two of the classes that derive from
    [BaseException] only. *)
Inductive exn_class :=
| TypeError
| ValueError
| PermissionError
| FileNotFoundError
| IsADirectoryError
| NotADirectoryError
| SameFileError                 (* [shutil.SameFileError] *)
| UserError (name : pystr)      (* any other subclass of [Exception] *)
| SystemExit
| KeyboardInterrupt.

(** [isinstance(e, Exception)]: what [except Exception] catches. *)
Definition is_exception (c : exn_class) : bool :=
  match c with
  | SystemExit | KeyboardInterrupt => false
  | _ => true
  end.

Record exn := Exn {
  exn_class_of : exn_class;
  exn_msg : pystr;      (* [str(e)] *)
  exn_frames : pystr    (* what a traceback prints between its first line
                           and the line of the exception: the stack
                           entries, and the traces of the exceptions it was
                           raised from, when there are some *)
}.

Definition class_name (c : exn_class) : pystr :=
  match c with
  | TypeError => "TypeError"
  | ValueError => "ValueError"
  | PermissionError => "PermissionError"
  | FileNotFoundError => "FileNotFoundError"
  | IsADirectoryError => "IsADirectoryError"
  | NotADirectoryError => "NotADirectoryError"
  | SameFileError => "shutil.SameFileError"
  | UserError n => n
  | SystemExit => "SystemExit"
  | KeyboardInterrupt => "KeyboardInterrupt"
  end.

Definition nl : string := String "010" "".

(** [traceback.format_exc()] inside the handler of [e]: the header, the
    stack entries, and the line of the exception, which is the class alone
    when [str(e)] is empty. *)
Definition format_exc (e : exn) : pystr :=
  (pystr_of ("Traceback (most recent call last):" +:+ nl) ++ exn_frames e
     ++ class_name (exn_class_of e)
     ++ match exn_msg e with [] => [] | m => pystr_of ": " ++ m end
     ++ pystr_of nl)%list.

Inductive result (A : Type) :=
| Ok (a : A)
| Raise (e : exn).
Arguments Ok {A} a.
Arguments Raise {A} e.

#[global] Instance result_ret : MRet result := @Ok.
#[global] Instance result_bind : MBind result :=
  fun A B k m => match m with Ok a => k a | Raise e => Raise e end.
#[global] Instance result_fmap : FMap result :=
  fun A B f m => match m with Ok a => Ok (f a) | Raise e => Raise e end.

(** [try: body except (classes): handler], for code without effects. *)
Definition try_result {A} (body : result A) (catches : exn_class -> bool)
    (handler : exn -> result A) : result A :=
  match body with
  | Raise e => if catches (exn_class_of e) then handler e else Raise e
  | r => r
  end.

(* ===================================================================== *)
(** * Python values *)
(* ===================================================================== *)

(** Any object the default JSON encoder has no rule for (a [set], [bytes],
    an instance of a user class): what the code observes of it is the name
    of its class and what [repr] and the truth test do on it, each of which
    returns or raises. *)
Record pyobject := PyObject {
  obj_type : string;
  obj_repr : result string;
  obj_bool : result bool
}.

#[warnings="-register-all"]
Inductive pyvalue :=
| PNone
| PBool (b : bool)
| PInt (z : Z)
| PFloat (r : string)     (* the float that [float.__repr__] shows as [r] *)
| PStr (s : pystr)
| PList (l : list pyvalue)
| PTuple (l : list pyvalue)
| PDict (kvs : list (pyvalue * pyvalue))   (* insertion order, keys distinct *)
| PObject (o : pyobject).

(** [type(v).__name__] *)
Definition type_name (v : pyvalue) : string :=
  match v with
  | PNone => "NoneType"
  | PBool _ => "bool"
  | PInt _ => "int"
  | PFloat _ => "float"
  | PStr _ => "str"
  | PList _ => "list"
  | PTuple _ => "tuple"
  | PDict _ => "dict"
  | PObject o => obj_type o
  end.

(** Python's truth value testing, as [if], [or] and [not] do it: an object
    can raise from its [__bool__] or [__len__]. *)
Definition truth (v : pyvalue) : result bool :=
  match v with
  | PNone => Ok false
  | PBool b => Ok b
  | PInt z => Ok (negb (z =? 0)%Z)
  | PFloat r => Ok (negb (String.eqb r "0.0" || String.eqb r "-0.0"))
  | PStr s => Ok (match s with [] => false | _ => true end)
  | PList l | PTuple l => Ok (match l with [] => false | _ => true end)
  | PDict kvs => Ok (match kvs with [] => false | _ => true end)
  | PObject o => obj_bool o
  end.

(** The truth test returns true; the truth test returns false. *)
Definition truthy (v : pyvalue) : bool :=
  match truth v with Ok b => b | Raise _ => false end.


(** The test of [if a or b]: [b] is looked at when [a] is not truthy. *)
Definition or_test (a b : pyvalue) : result bool :=
  t ← truth a; if t : bool then Ok true else truth b.

(** Equality of the keys the code uses ([str] keys); keys of other types
    are compared within their type. *)
Definition key_eqb (k1 k2 : pyvalue) : bool :=
  match k1, k2 with
  | PStr a, PStr b => pystr_eqb a b
  | PInt a, PInt b => (a =? b)%Z
  | PFloat a, PFloat b => String.eqb a b
  | PBool a, PBool b => Bool.eqb a b
  | PNone, PNone => true
  | _, _ => false
  end.

(** [d.get(key)]: the value, or [None] when the key is absent. *)
Fixpoint assoc_get (key : pyvalue) (kvs : list (pyvalue * pyvalue)) : option pyvalue :=
  match kvs with
  | [] => None
  | (k, v) :: rest => if key_eqb k key then Some v else assoc_get key rest
  end.

Definition dict_get (d : pyvalue) (key : string) : pyvalue :=
  match d with
  | PDict kvs => default PNone (assoc_get (PStr key) kvs)
  | _ => PNone
  end.

(** [d[key] = v] on the association list: an existing key keeps its place. *)
Fixpoint assoc_set (key v : pyvalue) (kvs : list (pyvalue * pyvalue))
  : list (pyvalue * pyvalue) :=
  match kvs with
  | [] => [(key, v)]
  | (k, x) :: rest =>
      if key_eqb k key then (k, v) :: rest else (k, x) :: assoc_set key v rest
  end.

(* ===================================================================== *)
(** * Text helpers *)
(* ===================================================================== *)

(** [sep.join(parts)] *)
Fixpoint str_join (sep : string) (parts : list string) : string :=
  match parts with
  | [] => ""
  | [x] => x
  | x :: rest => x +:+ sep +:+ str_join sep rest
  end.

(** The decimal digits of an integer, a leading minus sign for negatives. *)
Definition int_repr (z : Z) : string := NilZero.string_of_int (Z.to_int z).

(** [sys.get_int_max_str_digits()], as it is by default (Python 3.11, and
    the security releases of the versions before it): the conversion between
    [int] and [str] raises [ValueError] beyond that many digits. *)
Definition MAX_STR_DIGITS : nat := 4300.

Definition int_digits (z : Z) : nat := String.length (int_repr (Z.abs z)).

Definition int_too_long (z : Z) : bool := (MAX_STR_DIGITS <? int_digits z)%nat.

Definition digits_error : exn :=
  Exn ValueError
      ("Exceeds the limit (4300 digits) for integer string conversion; "
       +:+ "use sys.set_int_max_str_digits() to increase the limit") "".

(** [int.__repr__] *)
Definition int_str (z : Z) : result string :=
  if int_too_long z then Raise digits_error else Ok (int_repr z).

(** The double quote character. *)
Definition dquote : ascii := "034"%char.

(** Test data below is written with single quotes standing for double
    quotes; [dq] turns the text into what it stands for. *)
Fixpoint dq (s : string) : string :=
  match s with
  | "" => ""
  | String c rest => String (if Ascii.eqb c "'" then dquote else c) (dq rest)
  end.

Definition hex_digit (n : N) : ascii :=
  match n with
  | 0 => "0" | 1 => "1" | 2 => "2" | 3 => "3" | 4 => "4" | 5 => "5" | 6 => "6"
  | 7 => "7" | 8 => "8" | 9 => "9" | 10 => "a" | 11 => "b" | 12 => "c"
  | 13 => "d" | 14 => "e" | _ => "f"
  end%N%char.

(** The surrogates, with which UTF-16 and JSON write the code points from
    [0x10000] on. *)
Definition is_high_surrogate (n : N) : bool := ((55296 <=? n) && (n <=? 56319))%N.
Definition is_low_surrogate (n : N) : bool := ((56320 <=? n) && (n <=? 57343))%N.

(* ===================================================================== *)
(** * Numbers as text *)
(* ===================================================================== *)

Definition is_digit (c : ascii) : bool :=
  ((48 <=? N_of_ascii c) && (N_of_ascii c <=? 57))%N.

Fixpoint span_digits (s : string) : string * string :=
  match s with
  | String c rest =>
      if is_digit c
      then let '(ds, r) := span_digits rest in (String c ds, r)
      else ("", s)
  | "" => ("", "")
  end.

(** The integer part of [NUMBER_RE]: [0|[1-9][0-9]*]. *)
Definition span_integer (s : string) : string * string :=
  match s with
  | String "0" rest => ("0", rest)
  | _ => span_digits s
  end.

(** The fraction of [NUMBER_RE], when there is one: [\.[0-9]+]. *)
Definition span_frac (s : string) : string * string :=
  match s with
  | String "." r =>
      match span_digits r with
      | ("", _) => ("", s)
      | (ds, rest) => (String "." ds, rest)
      end
  | _ => ("", s)
  end.

(** The exponent of [NUMBER_RE], when there is one: [[eE][-+]?[0-9]+]. *)
Definition span_exp (s : string) : string * string :=
  match s with
  | String e r =>
      if (Ascii.eqb e "e" || Ascii.eqb e "E")%bool then
        let '(sg, r1) :=
          match r with
          | String c r' =>
              if (Ascii.eqb c "-" || Ascii.eqb c "+")%bool then (String c "", r')
              else ("", r)
          | "" => ("", r)
          end in
        match span_digits r1 with
        | ("", _) => ("", s)
        | (ds, rest) => (String e (sg +:+ ds), rest)
        end
      else ("", s)
  | "" => ("", s)
  end.

Definition Z_of_digits (ds : string) : option Z :=
  match NilZero.uint_of_string ds with
  | Some u => Some (Z.of_N (N.of_uint u))
  | None => None
  end.

(** The sign of [NUMBER_RE], when there is one. *)
Definition split_sign (s : string) : string * string :=
  match s with
  | String "-" r => ("-", r)
  | _ => ("", s)
  end.

(** A number: an [int] when it has neither fraction nor exponent (and
    [int()] raises beyond the limit of digits), a [float] otherwise. *)
Definition parse_number (s : string) : option (pyvalue * string) :=
  let '(sign, s1) := split_sign s in
  let '(ds, r1) := span_integer s1 in
  match ds with
  | "" => None
  | _ =>
      let '(frac, r2) := span_frac r1 in
      let '(ex, r3) := span_exp r2 in
      match frac, ex with
      | "", "" =>
          if (MAX_STR_DIGITS <? String.length ds)%nat then None
          else match Z_of_digits ds with
               | Some n => Some (PInt (if String.eqb sign "" then n else (- n)%Z), r1)
               | None => None
               end
      | _, _ => Some (PFloat (sign +:+ ds +:+ frac +:+ ex), r3)
      end
  end.

(** The texts that stand for a float: a number with a fraction or an
    exponent, which is how [float.__repr__] writes every finite float, and
    [nan], [inf] and [-inf]. A [PFloat] with another text stands for no
    value, and the encoder has no text for it. *)
Definition is_float_token (r : string) : bool :=
  match parse_number r with
  | Some (PFloat r', "") => String.eqb r' r
  | _ => false
  end.

Definition float_text (r : string) : bool :=
  (String.eqb r "nan" || String.eqb r "inf" || String.eqb r "-inf" || is_float_token r)%bool.

(* ===================================================================== *)
(** * json.dumps (default encoder: ensure_ascii, separators ", " and ": ") *)
(* ===================================================================== *)

(** ['{0:04x}'.format(n)] for [n] below [0x10000]. *)
Definition hex4 (n : N) : string :=
  String (hex_digit ((n / 4096) mod 16))
    (String (hex_digit ((n / 256) mod 16))
       (String (hex_digit ((n / 16) mod 16)) (String (hex_digit (n mod 16)) ""))).

Definition u_escape (n : N) : string := String "\" (String "u" (hex4 n)).

(** [ESCAPE_ASCII] matches a backslash, a double quote and everything outside
    [' '..'~']; [ESCAPE_DCT] gives the short escapes; a code point from
    [0x10000] on is written as a pair of surrogates. *)
Definition escape_char (c : N) : string :=
  (if c =? 92 then String "\" (String "\" "")
   else if c =? 34 then String "\" (String dquote "")
   else if c =? 8 then String "\" (String "b" "")
   else if c =? 12 then String "\" (String "f" "")
   else if c =? 10 then String "\" (String "n" "")
   else if c =? 13 then String "\" (String "r" "")
   else if c =? 9 then String "\" (String "t" "")
   else if (32 <=? c) && (c <=? 126) then String (ascii_of_N c) ""
   else if c <? 65536 then u_escape c
   else u_escape (55296 + ((c - 65536) / 1024) mod 1024)
          +:+ u_escape (56320 + (c - 65536) mod 1024))%N.

Fixpoint escape_string (s : pystr) : string :=
  match s with
  | [] => ""
  | c :: rest => escape_char c +:+ escape_string rest
  end.

(** [py_encode_basestring_ascii] *)
Definition encode_basestring_ascii (s : pystr) : string :=
  String dquote (escape_string s +:+ String dquote "").

(** [floatstr]: [float.__repr__], but for the three values that have no
    JSON text of their own ([allow_nan] is on). *)
Definition float_json (r : string) : string :=
  if String.eqb r "nan" then "NaN"
  else if String.eqb r "inf" then "Infinity"
  else if String.eqb r "-inf" then "-Infinity"
  else r.

(** Keys of a dict: [str] as it is, [int], [float], [bool] and [None]
    coerced to text, anything else is a [TypeError] ([skipkeys] is off). *)
Definition json_key (k : pyvalue) : option pystr :=
  match k with
  | PStr s => Some s
  | PInt z => if int_too_long z then None else Some (pystr_of (int_repr z))
  | PFloat r => if float_text r then Some (pystr_of (float_json r)) else None
  | PBool true => Some (pystr_of "true")
  | PBool false => Some (pystr_of "false")
  | PNone => Some (pystr_of "null")
  | _ => None
  end.

Definition json_array (parts : list string) : string :=
  "[" +:+ str_join ", " parts +:+ "]".

Definition json_object (parts : list string) : string :=
  "{" +:+ str_join ", " parts +:+ "}".

Definition json_member (k : pystr) (v : string) : string :=
  encode_basestring_ascii k +:+ ": " +:+ v.

(** The text [json.dumps(v)] returns; [None] stands for the exception it
    raises instead ([json_error] below says which). *)
Fixpoint json_encode (v : pyvalue) : option string :=
  match v with
  | PNone => Some "null"
  | PBool true => Some "true"
  | PBool false => Some "false"
  | PInt z => if int_too_long z then None else Some (int_repr z)
  | PFloat r => if float_text r then Some (float_json r) else None
  | PStr s => Some (encode_basestring_ascii s)
  | PList l | PTuple l =>
      json_array <$>
        (fix items (l : list pyvalue) : option (list string) :=
           match l with
           | [] => Some []
           | x :: rest =>
               match json_encode x, items rest with
               | Some a, Some b => Some (a :: b)
               | _, _ => None
               end
           end) l
  | PDict kvs =>
      json_object <$>
        (fix members (kvs : list (pyvalue * pyvalue)) : option (list string) :=
           match kvs with
           | [] => Some []
           | (k, x) :: rest =>
               match json_key k, json_encode x, members rest with
               | Some a, Some b, Some c => Some (json_member a b :: c)
               | _, _, _ => None
               end
           end) kvs
  | PObject _ => None
  end.

(** The exceptions of the encoder. (The stack entries of an exception are
    left out where the code does not print them.) *)
Definition not_serializable (v : pyvalue) : exn :=
  Exn TypeError ("Object of type " +:+ type_name v +:+ " is not JSON serializable") "".

Definition key_error (k : pyvalue) : option exn :=
  match k with
  | PStr _ | PFloat _ | PBool _ | PNone => None
  | PInt z => if int_too_long z then Some digits_error else None
  | _ => Some (Exn TypeError ("keys must be str, int, float, bool or None, not "
                              +:+ type_name k) "")
  end.

(** The exception [json.dumps(v)] raises, when it raises: the encoder goes
    through the value in order and stops at the first item it cannot
    write. *)
Fixpoint json_error (v : pyvalue) : option exn :=
  match v with
  | PInt z => if int_too_long z then Some digits_error else None
  | PObject _ => Some (not_serializable v)
  | PList l | PTuple l =>
      (fix first (l : list pyvalue) : option exn :=
         match l with
         | [] => None
         | x :: rest =>
             match json_error x with Some e => Some e | None => first rest end
         end) l
  | PDict kvs =>
      (fix first (kvs : list (pyvalue * pyvalue)) : option exn :=
         match kvs with
         | [] => None
         | (k, x) :: rest =>
             match key_error k with
             | Some e => Some e
             | None =>
                 match json_error x with Some e => Some e | None => first rest end
             end
         end) kvs
  | _ => None
  end.

(** [json.dumps] as the code calls it. *)
Definition json_dumps (v : pyvalue) : result string :=
  match json_encode v with
  | Some j => Ok j
  | None => Raise (default (not_serializable v) (json_error v))
  end.

(* ===================================================================== *)
(** * json.loads (default decoder, strict) *)
(* ===================================================================== *)

(** A result of [None] stands for the exception [json.loads] raises. The
    float a number with a fraction or an exponent stands for is given by
    the text of the number; this is the text [float.__repr__] shows for it
    when the encoder wrote the number, and need not be with other
    documents (it is not for [1.50]). *)

(** [WHITESPACE = [ \t\n\r]*] *)
Definition is_ws (c : ascii) : bool :=
  match c with
  | " "%char | "009"%char | "010"%char | "013"%char => true
  | _ => false
  end.

Fixpoint skip_ws (s : string) : string :=
  match s with
  | String c rest => if is_ws c then skip_ws rest else s
  | "" => ""
  end.

Definition hex_val (c : ascii) : option N :=
  let n := N_of_ascii c in
  if ((48 <=? n) && (n <=? 57))%N then Some (n - 48)%N
  else if ((97 <=? n) && (n <=? 102))%N then Some (n - 87)%N
  else if ((65 <=? n) && (n <=? 70))%N then Some (n - 55)%N
  else None.

(** The code unit a [\uXXXX] escape stands for. *)
Definition decode_u4 (h1 h2 h3 h4 : ascii) : option N :=
  match hex_val h1, hex_val h2, hex_val h3, hex_val h4 with
  | Some a, Some b, Some c, Some d => Some (((a * 16 + b) * 16 + c) * 16 + d)%N
  | _, _, _, _ => None
  end.

(** The code point a pair of surrogates stands for. *)
Definition join_surrogates (hi lo : N) : N :=
  (65536 + (hi - 55296) * 1024 + (lo - 56320))%N.

(** [BACKSLASH] of the decoder. *)
Definition decode_simple_escape (e : ascii) : option N :=
  match e with
  | "034"%char => Some 34%N
  | "\"%char => Some 92%N
  | "/"%char => Some 47%N
  | "b"%char => Some 8%N
  | "f"%char => Some 12%N
  | "n"%char => Some 10%N
  | "r"%char => Some 13%N
  | "t"%char => Some 9%N
  | _ => None
  end.

Definition cons_char (c : N) (r : option (pystr * string)) : option (pystr * string) :=
  match r with
  | Some (t, rest) => Some (c :: t, rest)
  | None => None
  end.

(** After the escape of a high surrogate [x]: when the escape of a low
    surrogate follows, the two are joined; [scan] reads the rest. *)
Definition after_high (x : N) (t : string) (scan : string -> option (pystr * string))
  : option (pystr * string) :=
  match t with
  | String "\" (String "u" (String g1 (String g2 (String g3 (String g4 t'))))) =>
      match decode_u4 g1 g2 g3 g4 with
      | None => None
      | Some y =>
          if is_low_surrogate y then cons_char (join_surrogates x y) (scan t')
          else cons_char x (scan t)
      end
  | _ => cons_char x (scan t)
  end.

(** [py_scanstring], entered after the opening quote: the decoded text and
    what follows the closing quote. *)
Fixpoint scanstring (s : string) : option (pystr * string) :=
  match s with
  | "" => None
  | String c r =>
      if Ascii.eqb c dquote then Some ([], r)
      else if Ascii.eqb c "\" then
        match r with
        | String "u" (String h1 (String h2 (String h3 (String h4 r')))) =>
            match decode_u4 h1 h2 h3 h4 with
            | None => None
            | Some x =>
                if is_high_surrogate x then after_high x r' scanstring
                else cons_char x (scanstring r')
            end
        | String e r' =>
            match decode_simple_escape e with
            | Some x => cons_char x (scanstring r')
            | None => None
            end
        | "" => None
        end
      else if (N_of_ascii c <? 32)%N then None
      else cons_char (N_of_ascii c) (scanstring r)
  end.

(** [dict(pairs)]: a later pair with a key already seen replaces the value. *)
Definition dict_of_pairs (pairs : list (pyvalue * pyvalue)) : list (pyvalue * pyvalue) :=
  fold_left (fun d kv => assoc_set (fst kv) (snd kv) d) pairs [].

(** [s] without its first [n] characters. *)
Fixpoint str_drop (n : nat) (s : string) : string :=
  match n, s with
  | S n, String _ r => str_drop n r
  | _, _ => s
  end.

(** [s.startswith(lit)] *)
Fixpoint starts_with (lit s : string) : bool :=
  match lit, s with
  | "", _ => true
  | String a lit', String b s' => Ascii.eqb a b && starts_with lit' s'
  | String _ _, "" => false
  end.

Definition expect (lit : string) (v : pyvalue) (s : string) : option (pyvalue * string) :=
  if starts_with lit s then Some (v, str_drop (String.length lit) s) else None.

(** [scan_once], [JSONArray] and [JSONObject]. The recursion of the decoder
    is on the nesting of the document; [fuel] bounds it. *)
Fixpoint scan_once (fuel : nat) (s : string) : option (pyvalue * string) :=
  match fuel with
  | O => None
  | S fuel =>
      match s with
      | "" => None
      | String c r =>
          if Ascii.eqb c dquote then
            match scanstring r with
            | Some (t, rest) => Some (PStr t, rest)
            | None => None
            end
          else if Ascii.eqb c "{" then
            match skip_ws r with
            | "" => None
            | String c1 r1 =>
                if Ascii.eqb c1 "}" then Some (PDict [], r1)
                else
                  match scan_members fuel (String c1 r1) with
                  | Some (pairs, rest) => Some (PDict (dict_of_pairs pairs), rest)
                  | None => None
                  end
            end
          else if Ascii.eqb c "[" then
            match skip_ws r with
            | "" => None
            | String c1 r1 =>
                if Ascii.eqb c1 "]" then Some (PList [], r1)
                else
                  match scan_elements fuel (String c1 r1) with
                  | Some (vs, rest) => Some (PList vs, rest)
                  | None => None
                  end
            end
          else if Ascii.eqb c "n" then expect "null" PNone s
          else if Ascii.eqb c "t" then expect "true" (PBool true) s
          else if Ascii.eqb c "f" then expect "false" (PBool false) s
          else if Ascii.eqb c "N" then expect "NaN" (PFloat "nan") s
          else if Ascii.eqb c "I" then expect "Infinity" (PFloat "inf") s
          else if starts_with "-I" s then expect "-Infinity" (PFloat "-inf") s
          else parse_number s
      end
  end
with scan_elements (fuel : nat) (s : string) : option (list pyvalue * string) :=
  match fuel with
  | O => None
  | S fuel =>
      match scan_once fuel s with
      | Some (v, r) =>
          match skip_ws r with
          | "" => None
          | String c r' =>
              if Ascii.eqb c "," then
                match scan_elements fuel (skip_ws r') with
                | Some (vs, rest) => Some (v :: vs, rest)
                | None => None
                end
              else if Ascii.eqb c "]" then Some ([v], r')
              else None
          end
      | None => None
      end
  end
with scan_members (fuel : nat) (s : string) : option (list (pyvalue * pyvalue) * string) :=
  match fuel with
  | O => None
  | S fuel =>
      match s with
      | "" => None
      | String q r =>
          if negb (Ascii.eqb q dquote) then None
          else
            match scanstring r with
            | None => None
            | Some (k, r1) =>
                match skip_ws r1 with
                | "" => None
                | String c r2 =>
                    if negb (Ascii.eqb c ":") then None
                    else
                      match scan_once fuel (skip_ws r2) with
                      | None => None
                      | Some (v, r3) =>
                          match skip_ws r3 with
                          | "" => None
                          | String c' r4 =>
                              if Ascii.eqb c' "," then
                                match scan_members fuel (skip_ws r4) with
                                | Some (kvs, rest) => Some ((PStr k, v) :: kvs, rest)
                                | None => None
                                end
                              else if Ascii.eqb c' "}" then Some ([(PStr k, v)], r4)
                              else None
                          end
                      end
                end
            end
      end
  end.

(** [json.loads(s)]: leading whitespace, one value, trailing whitespace,
    nothing else. *)
Definition json_decode (s : string) : option pyvalue :=
  match scan_once (S (String.length s)) (skip_ws s) with
  | Some (v, rest) => match skip_ws rest with "" => Some v | _ => None end
  | None => None
  end.

(** ** The values JSON carries unchanged *)

(** Whether a [str] starts with a low surrogate. *)
Definition low_next (s : pystr) : bool :=
  match s with d :: _ => is_low_surrogate d | [] => false end.

(** A [str] whose code points are code points, and in which no high
    surrogate stands before a low one: such a pair is written as two
    escapes and read back as the one code point they spell. *)
Fixpoint str_ok (s : pystr) : bool :=
  match s with
  | [] => true
  | c :: rest =>
      (c <? 1114112)%N && negb (is_high_surrogate c && low_next rest) && str_ok rest
  end.

Definition is_str_ok (v : pyvalue) : bool :=
  match v with PStr s => str_ok s | _ => false end.

Fixpoint keys_distinct (kvs : list (pyvalue * pyvalue)) : bool :=
  match kvs with
  | [] => true
  | (k, _) :: rest =>
      negb (existsb (fun kv => key_eqb k (fst kv)) rest) && keys_distinct rest
  end.

(** [None], booleans, integers, floats, strings, lists of such values, and
    dicts from strings to such values. A tuple is not among them (it is
    written as an array), nor is a dict with a key that is not a string
    (the key is written as a string). All the floats that are not numbers
    are written, and read back, as [NaN]. *)
Fixpoint json_native (v : pyvalue) : bool :=
  match v with
  | PNone | PBool _ | PInt _ => true
  | PFloat r => float_text r
  | PStr s => str_ok s
  | PList l => forallb json_native l
  | PDict kvs =>
      forallb (fun kv => is_str_ok (fst kv) && json_native (snd kv)) kvs
      && keys_distinct kvs
  | PTuple _ | PObject _ => false
  end.

(** ** Notions used to relate the decoder to the encoder *)

(** What follows a value in a document the encoder wrote: nothing, or a
    comma, or the end of the enclosing array or object. *)
Definition follow_ok (rest : string) : bool :=
  match rest with
  | "" => true
  | String c _ => (Ascii.eqb c "," || Ascii.eqb c "]" || Ascii.eqb c "}")%bool
  end.

(** The characters a JSON value can start with. *)
Definition value_start (c : ascii) : bool :=
  (Ascii.eqb c dquote || Ascii.eqb c "{" || Ascii.eqb c "[" || Ascii.eqb c "n"
   || Ascii.eqb c "t" || Ascii.eqb c "f" || Ascii.eqb c "N" || Ascii.eqb c "I"
   || Ascii.eqb c "-" || is_digit c)%bool.

(** The texts of the elements of a list, as [json_encode] writes them. *)
Fixpoint encode_items (l : list pyvalue) : option (list string) :=
  match l with
  | [] => Some []
  | x :: rest =>
      match json_encode x, encode_items rest with
      | Some a, Some b => Some (a :: b)
      | _, _ => None
      end
  end.

(** The texts of the members of a dict, as [json_encode] writes them. *)
Fixpoint encode_members (kvs : list (pyvalue * pyvalue)) : option (list string) :=
  match kvs with
  | [] => Some []
  | (k, x) :: rest =>
      match json_key k, json_encode x, encode_members rest with
      | Some a, Some b, Some c => Some (json_member a b :: c)
      | _, _, _ => None
      end
  end.

(** An allowance of recursive calls that is enough for the decoder to read
    the value back. *)
Fixpoint cost (v : pyvalue) : nat :=
  match v with
  | PList l | PTuple l =>
      S ((fix go (l : list pyvalue) : nat :=
            match l with [] => O | x :: rest => S (cost x + go rest) end) l)
  | PDict kvs =>
      S ((fix go (kvs : list (pyvalue * pyvalue)) : nat :=
            match kvs with [] => O | (_, x) :: rest => S (cost x + go rest) end) kvs)
  | _ => 1
  end.

Fixpoint cost_items (l : list pyvalue) : nat :=
  match l with [] => O | x :: rest => S (cost x + cost_items rest) end.

Fixpoint cost_members (kvs : list (pyvalue * pyvalue)) : nat :=
  match kvs with [] => O | (_, x) :: rest => S (cost x + cost_members rest) end.

(** [v] is read back from its text, whatever follows it in the document. *)
Definition reads_back (v : pyvalue) : Prop :=
  forall j rest fuel,
    json_native v = true -> json_encode v = Some j ->
    follow_ok rest = true -> (cost v <= fuel)%nat ->
    scan_once fuel (j +:+ rest) = Some (v, rest).

(* ===================================================================== *)
(** * repr *)
(* ===================================================================== *)

Fixpoint str_contains (c : ascii) (s : string) : bool :=
  match s with
  | "" => false
  | String x rest => Ascii.eqb x c || str_contains c rest
  end.

(** ['\\x{0:02x}'.format(n)] for [n] below 256. *)
Definition x_escape (n : N) : string :=
  String "\" (String "x" (String (hex_digit ((n / 16) mod 16))
                                 (String (hex_digit (n mod 16)) ""))).

(** ['\\U{0:08x}'.format(n)] *)
Definition U_escape (n : N) : string :=
  String "\" (String "U" (hex4 (n / 65536) +:+ hex4 (n mod 65536))).

(** [str.isprintable] on the code points 128..255: the C1 controls, the
    no-break space and the soft hyphen are not printable. *)
Definition latin1_printable (n : N) : bool :=
  ((161 <=? n) && negb (n =? 173))%N.

(** [str.isprintable] from 256 on is a table of the Unicode database. What
    is kept of it here are the separators, the format characters of the
    general punctuation block, the byte order mark, the surrogates, the
    private use area and the two non-characters of the basic plane; the
    code points that are not assigned are not told from the others. *)
Definition wide_printable (n : N) : bool :=
  (negb ((n =? 5760) || ((8192 <=? n) && (n <=? 8207))
         || ((8232 <=? n) && (n <=? 8239)) || ((8287 <=? n) && (n <=? 8292))
         || (n =? 12288) || ((55296 <=? n) && (n <=? 63743))
         || (n =? 65279) || (65534 <=? n) && (n <=? 65535)))%N.

Definition isprintable (n : N) : bool :=
  (if n <? 127 then 32 <=? n
   else if n <? 256 then latin1_printable n
   else wide_printable n)%N.

(** The bytes of a code point in UTF-8, the encoding in which the body of
    a response goes out. *)
Definition utf8 (n : N) : string :=
  (if n <? 128 then String (ascii_of_N n) ""
   else if n <? 2048 then
     String (ascii_of_N (192 + n / 64)) (String (ascii_of_N (128 + n mod 64)) "")
   else if n <? 65536 then
     String (ascii_of_N (224 + n / 4096))
       (String (ascii_of_N (128 + (n / 64) mod 64))
          (String (ascii_of_N (128 + n mod 64)) ""))
   else
     String (ascii_of_N (240 + n / 262144))
       (String (ascii_of_N (128 + (n / 4096) mod 64))
          (String (ascii_of_N (128 + (n / 64) mod 64))
             (String (ascii_of_N (128 + n mod 64)) ""))))%N.

Definition repr_char (quote c : N) : string :=
  (if (c =? quote) || (c =? 92) then String "\" (String (ascii_of_N c) "")
   else if c =? 9 then "\t"
   else if c =? 10 then "\n"
   else if c =? 13 then "\r"
   else if (c <? 32) || (c =? 127) then x_escape c
   else if isprintable c then utf8 c
   else if c <? 256 then x_escape c
   else if c <? 65536 then u_escape c
   else U_escape c)%N.

Fixpoint repr_chars (quote : N) (s : pystr) : string :=
  match s with
  | [] => ""
  | c :: rest => repr_char quote c +:+ repr_chars quote rest
  end.

(** [repr] of a [str]: single quotes, unless the text holds a single quote
    and no double quote. *)
Definition str_repr (s : pystr) : string :=
  let quote :=
    if (existsb (N.eqb 39) s && negb (existsb (N.eqb 34) s))%bool
    then 34%N else 39%N in
  String (ascii_of_N quote) (repr_chars quote s +:+ String (ascii_of_N quote) "").

(** [repr(v)], in UTF-8. It raises what the [__repr__] of an object in [v]
    raises, and [ValueError] on an integer beyond the limit of digits. *)
Fixpoint py_repr (v : pyvalue) : result string :=
  match v with
  | PNone => Ok "None"
  | PBool true => Ok "True"
  | PBool false => Ok "False"
  | PInt z => int_str z
  | PFloat r => Ok r
  | PStr s => Ok (str_repr s)
  | PList l =>
      match (fix items (l : list pyvalue) : result (list string) :=
               match l with
               | [] => Ok []
               | x :: rest =>
                   match py_repr x with
                   | Raise e => Raise e
                   | Ok a => match items rest with
                             | Raise e => Raise e
                             | Ok b => Ok (a :: b)
                             end
                   end
               end) l with
      | Raise e => Raise e
      | Ok parts => Ok ("[" +:+ str_join ", " parts +:+ "]")
      end
  | PTuple l =>
      match (fix items (l : list pyvalue) : result (list string) :=
               match l with
               | [] => Ok []
               | x :: rest =>
                   match py_repr x with
                   | Raise e => Raise e
                   | Ok a => match items rest with
                             | Raise e => Raise e
                             | Ok b => Ok (a :: b)
                             end
                   end
               end) l with
      | Raise e => Raise e
      | Ok [x] => Ok ("(" +:+ x +:+ ",)")
      | Ok parts => Ok ("(" +:+ str_join ", " parts +:+ ")")
      end
  | PDict kvs =>
      match (fix members (kvs : list (pyvalue * pyvalue)) : result (list string) :=
               match kvs with
               | [] => Ok []
               | (k, x) :: rest =>
                   match py_repr k with
                   | Raise e => Raise e
                   | Ok a =>
                       match py_repr x with
                       | Raise e => Raise e
                       | Ok b => match members rest with
                                 | Raise e => Raise e
                                 | Ok c => Ok ((a +:+ ": " +:+ b) :: c)
                                 end
                       end
                   end
               end) kvs with
      | Raise e => Raise e
      | Ok parts => Ok ("{" +:+ str_join ", " parts +:+ "}")
      end
  | PObject o => obj_repr o
  end.

(* ===================================================================== *)
(** * ApiResult and ApiException *)
(* ===================================================================== *)

(** A response: the bytes of its body, its status and its content type. *)
Record Response := mkResponse {
  body : string;
  status_code : Z;
  mimetype : string
}.

Record ApiResult := mkApiResult {
  value : pyvalue;
  status : Z
}.

(** [ApiResult.__init__(self, value, status=200)] *)
Definition ApiResult_init (value : pyvalue) (status : option Z) : ApiResult :=
  mkApiResult value (default 200%Z status).

(** [ApiResult.to_response(self, serializer=None)]. The serializer is a
    callable of the caller and may raise; it is called outside the [try].
    The handler of the [try] calls [repr], which may raise as well. *)
Definition to_response (self : ApiResult)
    (serializer : option (pyvalue -> result pyvalue)) : result Response :=
  r ← match serializer with
      | Some f => f (value self)
      | None => Ok (value self)
      end;
  j ← try_result (json_dumps r) is_exception (fun _ => py_repr r);
  Ok (mkResponse j (status self) "application/json").

(** [ApiException.__init__(self, message, status=400)] *)
Definition ApiException_init (message : pyvalue) (status : option Z) : ApiResult :=
  mkApiResult (PDict [(PStr "success", PBool false); (PStr "message", message)])
              (default 400%Z status).
(* ===================================================================== *)
(** * os.path (POSIX) and str.rsplit *)
(* ===================================================================== *)

(** The split of [s] at its last [sep], when it has one. *)
Fixpoint rsplit1 (sep : ascii) (s : string) : option (string * string) :=
  match s with
  | "" => None
  | String c rest =>
      match rsplit1 sep rest with
      | Some (a, b) => Some (String c a, b)
      | None => if Ascii.eqb c sep then Some ("", rest) else None
      end
  end.

(** [s.rsplit(sep, 1)] *)
Definition str_rsplit1 (sep : ascii) (s : string) : list string :=
  match rsplit1 sep s with
  | Some (a, b) => [a; b]
  | None => [s]
  end.

Definition starts_with_slash (s : string) : bool :=
  match s with String "/" _ => true | _ => false end.

Fixpoint ends_with_slash (s : string) : bool :=
  match s with
  | "" => false
  | String c "" => Ascii.eqb c "/"
  | String _ rest => ends_with_slash rest
  end.

(** [os.path.join(a, b)] *)
Definition path_join (a b : string) : string :=
  if (starts_with_slash b || String.eqb a "")%bool then b
  else if ends_with_slash a then a +:+ b
  else a +:+ "/" +:+ b.

(** [os.path.basename(p)] *)
Definition basename (p : string) : string :=
  match rsplit1 "/" p with
  | Some (_, b) => b
  | None => p
  end.

Fixpoint all_slashes (s : string) : bool :=
  match s with
  | "" => true
  | String c rest => Ascii.eqb c "/" && all_slashes rest
  end.

(** [s.rstrip('/')] *)
Fixpoint rstrip_slashes (s : string) : string :=
  match s with
  | "" => ""
  | String c rest =>
      match rstrip_slashes rest with
      | "" => if Ascii.eqb c "/" then "" else String c ""
      | r => String c r
      end
  end.

(** [os.path.dirname(p)] *)
Definition dirname (p : string) : string :=
  match rsplit1 "/" p with
  | None => ""
  | Some (h, _) => if all_slashes h then h +:+ "/" else rstrip_slashes h
  end.

(* ===================================================================== *)
(** * uuid4 *)
(* ===================================================================== *)

(** [width] lower-case hexadecimal digits of [n], most significant first. *)
Fixpoint hex_fixed (width : nat) (n : N) (acc : string) : string :=
  match width with
  | O => acc
  | S w => hex_fixed w (n / 16)%N (String (hex_digit (n mod 16)%N) acc)
  end.

(** The integer of the UUID that [uuid4()] makes of 16 random bytes: the
    variant bits are set to [10] and the version to 4. *)
Definition uuid4_of (random : N) : N :=
  N.lor (N.ldiff (N.lor (N.ldiff (random mod 2 ^ 128) (N.shiftl 49152 48))
                        (N.shiftl 32768 48))
                 (N.shiftl 61440 64))
        (N.shiftl 4 76).

(** [uuid4().hex]: ['%032x' % self.int]; the integer of a UUID is below
    [2^128]. *)
Definition uuid_hex (u : N) : string := hex_fixed 32 u "".

Fixpoint str_take (n : nat) (s : string) : string :=
  match n, s with
  | S n, String c r => String c (str_take n r)
  | _, _ => ""
  end.

(** [str(uuid4())]: the digits in groups of 8-4-4-4-12. *)
Definition uuid_str (u : N) : string :=
  let h := uuid_hex u in
  str_take 8 h +:+ "-" +:+ str_take 4 (str_drop 8 h) +:+ "-"
    +:+ str_take 4 (str_drop 12 h) +:+ "-" +:+ str_take 4 (str_drop 16 h)
    +:+ "-" +:+ str_drop 20 h.

(* ===================================================================== *)
(** * The world: files, clock, other processes, request context *)
(* ===================================================================== *)

Inductive contents :=
| Data (text : string)
| Partial.   (* left behind by a write an exception cut short *)

Inductive node :=
| Dir
| File (c : contents).

(** What other processes and threads do to the staging area while this
    thread sleeps. *)
Inductive env_event :=
| ExtRemove (path : string)     (* somebody else deletes the file *)
| ExtLock (path : string)       (* the file can no longer be removed *)
| ExtUnlock (path : string).

(** What the trace keeps of a run: the sleeps and the calls of [os.remove]. *)
Inductive event :=
| EvSleep (seconds : nat)
| EvRemove (path : string).

(** A callback registered with [after_this_request]. The only one the code
    registers is [cleanup], closed over [tmp_file]. *)
Inductive hook :=
| Cleanup (tmp_file : string).

Record World := mkWorld {
  fs : gmap string node;
  locked : gset string;               (* [os.remove] is refused on these *)
  clock : nat;                        (* seconds *)
  agenda : list (nat * env_event);    (* due time, event *)
  uuid_source : nat -> N;             (* the random bytes [uuid4] draws *)
  uuid_count : nat;
  after_request : list hook;          (* of the request being served *)
  trace : list event                  (* most recent first *)
}.

Definition set_fs (f : gmap string node -> gmap string node) (w : World) : World :=
  mkWorld (f (fs w)) (locked w) (clock w) (agenda w) (uuid_source w) (uuid_count w)
          (after_request w) (trace w).

Definition log (e : event) (w : World) : World :=
  mkWorld (fs w) (locked w) (clock w) (agenda w) (uuid_source w) (uuid_count w)
          (after_request w) (e :: trace w).

(** State and exceptions. *)
Definition M (A : Type) : Type := World -> result A * World.

Definition ret {A} (a : A) : M A := fun w => (Ok a, w).
Definition raise {A} (e : exn) : M A := fun w => (Raise e, w).
Definition bind {A B} (m : M A) (k : A -> M B) : M B :=
  fun w =>
    match m w with
    | (Ok a, w1) => k a w1
    | (Raise e, w1) => (Raise e, w1)
    end.

(** A computation that does not touch the world. *)
Definition of_result {A} (r : result A) : M A := fun w => (r, w).

#[global] Instance M_ret : MRet M := @ret.
#[global] Instance M_bind : MBind M := fun A B k m => bind m k.

(** [try: body except (classes): handler] *)
Definition try_except {A} (body : M A) (catches : exn_class -> bool)
    (handler : exn -> M A) : M A :=
  fun w =>
    match body w with
    | (Raise e, w1) => if catches (exn_class_of e) then handler e w1 else (Raise e, w1)
    | r => r
    end.

(** ** File system calls *)

Definition isfile (p : string) : M bool :=
  fun w => (Ok (match fs w !! p with Some (File _) => true | _ => false end), w).

Definition isdir (p : string) : M bool :=
  fun w => (Ok (match fs w !! p with Some Dir => true | _ => false end), w).

(** [p] and the directories above it, nearest first. *)
Fixpoint ancestors (fuel : nat) (p : string) : list string :=
  match fuel with
  | O => []
  | S fuel =>
      if (String.eqb p "" || all_slashes p)%bool then []
      else p :: ancestors fuel (dirname p)
  end.

Definition mkdir_all (ps : list string) (m : gmap string node) : gmap string node :=
  foldr (fun p m => match m !! p with Some _ => m | None => <[p := Dir]> m end) m ps.

(** [os.makedirs(p)], with nothing but directories in the way: the
    directories of the path that are missing are made, and a regular file
    found on the path, on which [os.makedirs] would raise, is an obstacle
    the environment is taken not to put there. *)
Definition makedirs (p : string) : M unit :=
  fun w => (Ok tt, set_fs (mkdir_all (ancestors (String.length p) p)) w).

(** [shutil.copy2(src, dst)]: the source must be another file than the
    destination, and the destination is opened for writing, which takes
    its directory to be there. (A directory at [dst] would make [copy2]
    write into it, under the base name of [src]; it is turned down here:
    the destinations of the code carry a token that is only just drawn.) *)
Definition copy2 (src dst : string) : M unit :=
  fun w =>
    match fs w !! src with
    | None => (Raise (Exn FileNotFoundError src ""), w)
    | Some Dir => (Raise (Exn IsADirectoryError src ""), w)
    | Some (File c) =>
        if String.eqb src dst then (Raise (Exn SameFileError dst ""), w)
        else
          match fs w !! dst with
          | Some Dir => (Raise (Exn IsADirectoryError dst ""), w)
          | _ =>
              if String.eqb (dirname dst) "" then (Ok tt, set_fs <[dst := File c]> w)
              else
                match fs w !! dirname dst with
                | Some Dir => (Ok tt, set_fs <[dst := File c]> w)
                | Some (File _) => (Raise (Exn NotADirectoryError dst ""), w)
                | None => (Raise (Exn FileNotFoundError dst ""), w)
                end
          end
    end.

(** [os.remove(p)] *)
Definition remove (p : string) : M unit :=
  fun w =>
    let w := log (EvRemove p) w in
    match fs w !! p with
    | None => (Raise (Exn FileNotFoundError p ""), w)
    | Some Dir => (Raise (Exn IsADirectoryError p ""), w)
    | Some (File _) =>
        if decide (p ∈ locked w) then (Raise (Exn PermissionError p ""), w)
        else (Ok tt, set_fs (delete p) w)
    end.

(** [with open(p, 'w') as f: json.dump(data, f)]: the file is created or
    truncated, then the document is written; when the encoder raises, the
    file stays behind with what was written before. *)
Definition dump_json_file (p : string) (data : pyvalue) : M unit :=
  fun w =>
    match json_dumps data with
    | Ok j => (Ok tt, set_fs <[p := File (Data j)]> w)
    | Raise e => (Raise e, set_fs <[p := File Partial]> w)
    end.

(** ** Time *)

Definition apply_env (ev : env_event) (w : World) : World :=
  match ev with
  | ExtRemove p => set_fs (delete p) w
  | ExtLock p =>
      mkWorld (fs w) ({[p]} ∪ locked w) (clock w) (agenda w) (uuid_source w)
              (uuid_count w) (after_request w) (trace w)
  | ExtUnlock p =>
      mkWorld (fs w) (locked w ∖ {[p]}) (clock w) (agenda w) (uuid_source w)
              (uuid_count w) (after_request w) (trace w)
  end.

(** [time.sleep(n)]: the clock advances and the events that fall due in
    the meantime happen. *)
Definition sleep (n : nat) : M unit :=
  fun w =>
    let t := (clock w + n)%nat in
    let due := filter (fun e => (e.1 <= t)%nat) (agenda w) in
    let later := filter (fun e => ¬ (e.1 <= t)%nat) (agenda w) in
    let w1 :=
      mkWorld (fs w) (locked w) t later (uuid_source w) (uuid_count w)
              (after_request w) (EvSleep n :: trace w) in
    (Ok tt, foldl (fun w e => apply_env e.2 w) w1 due).

(** ** The generator and the request context *)

(** [uuid4()] *)
Definition uuid4 : M N :=
  fun w =>
    (Ok (uuid4_of (uuid_source w (uuid_count w))),
     mkWorld (fs w) (locked w) (clock w) (agenda w) (uuid_source w)
             (S (uuid_count w)) (after_request w) (trace w)).

(** [after_this_request(f)] *)
Definition after_this_request (h : hook) : M unit :=
  fun w =>
    (Ok tt,
     mkWorld (fs w) (locked w) (clock w) (agenda w) (uuid_source w) (uuid_count w)
             (after_request w ++ [h]) (trace w)).

(** What the code reads from [current_app], and [url_for('static', ...)]. *)
Record App := mkApp {
  root_path : string;
  static_folder : string;
  url_for_static : string -> string
}.

(* ===================================================================== *)
(** * ApiFileResult *)
(* ===================================================================== *)

Definition MAX_CLEANUP_TRIES : nat := 5.
Definition KEEP_FILE_FOR_SECONDS : nat := 60.

Definition perm_or_not_found (c : exn_class) : bool :=
  match c with
  | PermissionError | FileNotFoundError => true
  | _ => false
  end.

(** [cleanup_tempfile(tries=0)], closed over [tmp_file]. The function calls
    itself with [tries + 1] only while [tries < MAX_CLEANUP_TRIES]; [fuel]
    is the number of calls still allowed for. *)
Fixpoint cleanup_tempfile_from (fuel : nat) (tmp_file : string) (tries : nat) : M unit :=
  match fuel with
  | O => ret tt
  | S fuel =>
      present ← isfile tmp_file;
      if negb present then ret tt
      else
        sleep KEEP_FILE_FOR_SECONDS;;
        try_except (remove tmp_file) perm_or_not_found
          (fun _ =>
           sleep 2;;
           if (tries <? MAX_CLEANUP_TRIES)%nat
           then cleanup_tempfile_from fuel tmp_file (tries + 1)
           else ret tt)
  end.

Definition cleanup_tempfile (tmp_file : string) (tries : nat) : M unit :=
  cleanup_tempfile_from (S (MAX_CLEANUP_TRIES - tries)) tmp_file tries.

(** The body of the thread that [cleanup(response)] starts:
    [threading.Thread(target=cleanup_tempfile).start()]. *)
Definition run_hook (h : hook) : M unit :=
  match h with
  | Cleanup tmp_file => cleanup_tempfile tmp_file 0
  end.

(** The name under which the file is staged:
    [unique_attachment = attachment_name.rsplit('.', 1)];
    [unique_attachment[0] += f'_{uuid4().hex}'];
    ['.'.join(unique_attachment)]. *)
Definition unique_attachment (attachment_name token : string) : string :=
  let parts := str_rsplit1 "." attachment_name in
  let parts :=
    match parts with
    | first :: others => (first +:+ "_" +:+ token) :: others
    | [] => []
    end in
  str_join "." parts.

(** [os.path.join(root, 'static', 'downloads')] *)
Definition downloads_dir (app : App) : string :=
  path_join (path_join (root_path app) "static") "downloads".

(** [attachment_name or os.path.basename(filepath)] *)
Definition display_name (filepath : string) (attachment_name : option string) : string :=
  match attachment_name with
  | Some n => if String.eqb n "" then basename filepath else n
  | None => basename filepath
  end.

Definition tmp_file_path (app : App) (name token : string) : string :=
  path_join (downloads_dir app) (unique_attachment name token).

(** [ApiFileResult.__init__(self, filepath, attachment_name=None, status=200)] *)
Definition ApiFileResult_init (app : App) (filepath : string)
    (attachment_name : option string) (status : option Z) : M ApiResult :=
  is_file ← isfile filepath;
  if negb is_file then raise (Exn TypeError "Tried to return a non-file as a file" "")
  else
    let downloads := downloads_dir app in
    have_dir ← isdir downloads;
    (if negb have_dir then makedirs downloads else ret tt);;
    let attachment_name := display_name filepath attachment_name in
    u ← uuid4;
    let unique := unique_attachment attachment_name (uuid_hex u) in
    let tmp_file := path_join downloads unique in
    copy2 filepath tmp_file;;
    let value :=
      PDict [(PStr "success", PBool true);
             (PStr "url", PStr (url_for_static app ("downloads/" +:+ unique)));
             (PStr "attachment_name", PStr attachment_name);
             (PStr "available_for_seconds", PInt (Z.of_nat KEEP_FILE_FOR_SECONDS))] in
    after_this_request (Cleanup tmp_file);;
    ret (mkApiResult value (default 200%Z status)).

(* ===================================================================== *)
(** * ApiAsyncJob *)
(* ===================================================================== *)

(** [job_path(job_id)]:
    [os.path.join(current_app.static_folder, f'./temp/{job_id}.json')] *)
Definition job_path (app : App) (job_id : string) : string :=
  path_join (static_folder app) ("./temp/" +:+ job_id +:+ ".json").

(** [async_target], closed over [target] and [job_id]. The unit of work,
    its arguments applied, is a computation [target]. *)
Definition async_target (app : App) (job_id : string) (target : M pyvalue) : M unit :=
  data ← try_except
            (x ← target;
             ret (PDict [(PStr "status", PStr "complete"); (PStr "data", x)]))
            is_exception
            (fun e =>
             ret (PDict [(PStr "status", PStr "complete");
                         (PStr "error", PStr (format_exc e))]));
  go ← of_result (or_test (dict_get data "data") (dict_get data "error"));
  if go : bool
  then
    let fpath := job_path app job_id in
    have_dir ← isdir (dirname fpath);
    (if negb have_dir then makedirs (dirname fpath) else ret tt);;
    dump_json_file fpath data
  else ret tt.

(** The outcome object [data] of [async_target], by the way the unit of
    work ended. *)
Definition outcome (r : result pyvalue) : pyvalue :=
  match r with
  | Ok x => PDict [(PStr "status", PStr "complete"); (PStr "data", x)]
  | Raise e => PDict [(PStr "status", PStr "complete"); (PStr "error", PStr (format_exc e))]
  end.

(** The unit of work returned, or raised what [except Exception] catches:
    there is an outcome object. *)
Definition handled (r : result pyvalue) : bool :=
  match r with
  | Ok _ => true
  | Raise e => is_exception (exn_class_of e)
  end.

Record ApiAsyncJob := mkApiAsyncJob {
  _job_id : string;
  _thread : M unit      (* the target of the thread, not yet started *)
}.

(** [ApiAsyncJob.__init__(self, target, args=(), kwargs={})] *)
Definition ApiAsyncJob_init (app : App) (target : M pyvalue) : M ApiAsyncJob :=
  u ← uuid4;
  let job_id := uuid_str u in
  ret (mkApiAsyncJob job_id (async_target app job_id target)).


(* ===================================================================== *)
(** * Observations on a run *)
(* ===================================================================== *)

Definition is_remove (e : event) : bool :=
  match e with EvRemove _ => true | EvSleep _ => false end.

(** How often [os.remove] was called. *)
Definition remove_calls (w : World) : nat := length (List.filter is_remove (trace w)).

(** The seconds spent in [time.sleep]. *)
Definition seconds_slept (w : World) : nat :=
  foldr (fun e n => match e with EvSleep s => (s + n)%nat | EvRemove _ => n end) 0%nat (trace w).

Definition is_regular_file (w : World) (p : string) : bool :=
  match fs w !! p with Some (File _) => true | _ => false end.

(** The value the next call of [uuid4] returns. *)
Definition next_uuid (w : World) : N := uuid4_of (uuid_source w (uuid_count w)).

Definition is_dir_in (w : World) (p : string) : bool :=
  match fs w !! p with Some Dir => true | _ => false end.

(* ===================================================================== *)
(** * Notions used to state further properties *)
(* ===================================================================== *)

(** The world in which a construction on a regular file calls
    [shutil.copy2]: the downloads directory made when it was missing, one
    token drawn. *)
Definition before_copy (app : App) (w : World) : World :=
  mkWorld (if is_dir_in w (downloads_dir app) then fs w
           else mkdir_all (ancestors (String.length (downloads_dir app)) (downloads_dir app))
                          (fs w))
          (locked w) (clock w) (agenda w) (uuid_source w) (S (uuid_count w))
          (after_request w) (trace w).

(** What a construction on a regular file returns when the copy succeeds. *)
Definition descriptor (app : App) (shown unique : string) : pyvalue :=
  PDict [(PStr "success", PBool true);
         (PStr "url", PStr (url_for_static app ("downloads/" +:+ unique)));
         (PStr "attachment_name", PStr shown);
         (PStr "available_for_seconds", PInt 60)].

(** Nothing but directories stands at [p] and above it: [os.makedirs(p)]
    finds no regular file in its way. *)
Definition creatable (p : string) (w : World) : bool :=
  forallb (fun q => match fs w !! q with Some (File _) => false | _ => true end)
          (ancestors (String.length p) p).

(** The path an event of the environment is about. *)
Definition event_path (ev : env_event) : string :=
  match ev with
  | ExtRemove p | ExtLock p | ExtUnlock p => p
  end.

(** No pending event is about [p]: whatever else goes on in the staging
    area, nobody else deletes, locks or unlocks [p]. *)
Definition undisturbed (p : string) (w : World) : Prop :=
  Forall (fun e => event_path (snd e) <> p) (agenda w).

(** The state of the world after a computation, and its result. *)
Definition world_after {A} (m : M A) (w : World) : World := snd (m w).
Definition result_of {A} (m : M A) (w : World) : result A := fst (m w).

(** The events that fall due, applied in the order of the agenda. *)
Definition run_events (due : list (nat * env_event)) (w : World) : World :=
  foldl (fun w e => apply_env (snd e) w) w due.


(** What a run that works on [tmp] leaves alone between [w] and [w']: the
    generator and the registered callbacks; every entry of the file system
    is one that was there; and a path other than [tmp] that nobody else
    works on keeps its entry and its lock. *)
Definition leaves_alone (tmp : string) (w w' : World) : Prop :=
  uuid_count w' = uuid_count w /\ after_request w' = after_request w
  /\ (forall q x, fs w' !! q = Some x -> fs w !! q = Some x)
  /\ (forall q, q <> tmp -> undisturbed q w ->
        fs w' !! q = fs w !! q /\ (q ∈ locked w' <-> q ∈ locked w) /\ undisturbed q w').

(** The calls of [os.remove] and the seconds of sleep between [w] and [w']. *)
Definition spent (removes seconds : nat) (w w' : World) : Prop :=
  remove_calls w' = (remove_calls w + removes)%nat
  /\ seconds_slept w' = (seconds_slept w + seconds)%nat
  /\ clock w' = (clock w + seconds)%nat.

(** The only thing anybody else still does to [p] is to release its lock. *)
Definition only_unlocks (p : string) (w : World) : Prop :=
  Forall (fun e => event_path (snd e) = p -> snd e = ExtUnlock p) (agenda w).

(** The digits of an identifier in the form 8-4-4-4-12, its dashes dropped. *)
Definition uuid_digits (s : string) : string :=
  str_take 8 s +:+ str_take 4 (str_drop 9 s) +:+ str_take 4 (str_drop 14 s)
    +:+ str_take 4 (str_drop 19 s) +:+ str_drop 24 s.

(** A character in the printable range of ASCII, [' '] to ['~']. *)
Definition printable_ascii (c : ascii) : bool :=
  ((32 <=? N_of_ascii c) && (N_of_ascii c <=? 126))%N.

Fixpoint all_printable (s : string) : bool :=
  match s with
  | "" => true
  | String c rest => printable_ascii c && all_printable rest
  end.
(* ===================================================================== *)
(** * Concrete inputs *)
(* ===================================================================== *)

Definition app0 : App :=
  mkApp "/srv/app" "/srv/app/static" (fun filename => "/static/" +:+ filename).

(** Nothing but a report to serve; the random bytes [uuid4] draws are those
    of 1000, 1001, ... *)
Definition world0 : World :=
  mkWorld {["/tmp/report.pdf" := File (Data "%PDF")]} ∅ 0 []
          (fun n => (N.of_nat n + 1000)%N) 0 [] [].

(** Where [report.pdf] is staged by the first construction in [world0]. *)
Definition staged0 : string :=
  "/srv/app/static/downloads/report_000000000000400080000000000003e8.pdf".

(** A staged file that nobody is allowed to remove. *)
Definition world_locked : World :=
  mkWorld {[staged0 := File (Data "%PDF")]} {[staged0]} 0 []
          (fun n => (N.of_nat n + 1000)%N) 0 [] [].

(** The same, the lock being released after 100 seconds. *)
Definition world_unlocked_later : World :=
  mkWorld {[staged0 := File (Data "%PDF")]} {[staged0]} 0 [(100%nat, ExtUnlock staged0)]
          (fun n => (N.of_nat n + 1000)%N) 0 [] [].

(** The staged file is deleted by somebody else after 30 seconds. *)
Definition world_removed_meanwhile : World :=
  mkWorld {[staged0 := File (Data "%PDF")]} ∅ 0 [(30%nat, ExtRemove staged0)]
          (fun n => (N.of_nat n + 1000)%N) 0 [] [].

(** A unit of work that raises. *)
Definition failing_work : M pyvalue :=
  raise (Exn ValueError "bad input"
             ("  File job.py, line 3, in work" +:+ nl)).

(** An object the JSON encoder has no rule for, such as the set [{1, 2}]. *)
Definition a_set : pyvalue := PObject (PyObject "set" (Ok "{1, 2}") (Ok true)).




(** The report staged and not locked, while somebody locks another file
    after 10 seconds. *)
Definition world_staged : World :=
  mkWorld {[staged0 := File (Data "%PDF"); "/tmp/report.pdf" := File (Data "%PDF")]} ∅ 0
          [(10%nat, ExtLock "/tmp/notes.txt")] (fun n => (N.of_nat n + 1000)%N) 0 [] [].

(** An object the JSON encoder has no rule for and whose [__repr__]
    raises. *)
Definition no_repr_error : exn := Exn (UserError "RuntimeError") "no repr" "".
Definition no_repr : pyvalue := PObject (PyObject "Bad" (Raise no_repr_error) (Ok true)).


(** The report, a directory outside the application, and the downloads
    directory. *)
Definition world_www : World :=
  mkWorld {["/tmp/report.pdf" := File (Data "%PDF"); "/var/www" := Dir;
            "/srv/app/static/downloads" := Dir]} ∅ 0 []
          (fun n => (N.of_nat n + 1000)%N) 0 [] [].
(* ===================================================================== *)
(** * The model on concrete inputs *)
(* ===================================================================== *)

Example json_encode_ex1 :
  json_encode (PDict [(PStr "status", PStr "complete");
                      (PStr "data", PList [PInt 1; PInt (-20); PNone; PBool true])])
  = Some (dq "{'status': 'complete', 'data': [1, -20, null, true]}").
Proof. vm_compute. reflexivity. Qed.

Example json_decode_ex1 :
  json_decode (dq "{'status': 'complete', 'data': [1, -20, null, true, 'a\u00e9\n'], 'k': {}}")
  = Some (PDict [(PStr "status", PStr "complete");
                 (PStr "data", PList [PInt 1; PInt (-20); PNone; PBool true;
                                      PStr (String "a" (String "233" (String "010" "")))]);
                 (PStr "k", PDict [])]).
Proof. vm_compute. reflexivity. Qed.

Example json_decode_ex2 : json_decode "[1, 2,]" = None.
Proof. vm_compute. reflexivity. Qed.

Example json_decode_ex3 : json_decode "012" = None.
Proof. vm_compute. reflexivity. Qed.

Example json_decode_ex4 :
  json_decode (dq "{'a': 1, 'b': 2, 'a': 3}") = Some (PDict [(PStr "a", PInt 3); (PStr "b", PInt 2)]).
Proof. vm_compute. reflexivity. Qed.

Example py_repr_ex1 :
  py_repr (PDict [(PStr "a", PTuple [PInt 1]); (PInt 2, PList [PNone; PStr "it's"])])
  = Ok ("{'a': (1,), 2: [None, " +:+ String dquote ("it's" +:+ String dquote "]}")).
Proof. vm_compute. reflexivity. Qed.

Example to_response_ex1 :
  to_response (ApiException_init (PStr "no") None) None
  = Ok (mkResponse (dq "{'success': false, 'message': 'no'}") 400 "application/json").
Proof. vm_compute. reflexivity. Qed.

Example to_response_ex2 :
  to_response (ApiResult_init (PList [PInt 1; PObject (PyObject "set" (Ok "{1, 2}") (Ok true))]) None) None
  = Ok (mkResponse "[1, {1, 2}]" 200 "application/json").
Proof. vm_compute. reflexivity. Qed.

Example dirname_ex1 : dirname "/srv/app/static/./temp/ab.json" = "/srv/app/static/./temp".
Proof. vm_compute. reflexivity. Qed.

Example dirname_ex2 : dirname "/x" = "/" /\ dirname "x" = "" /\ dirname "a//b" = "a".
Proof. vm_compute. auto. Qed.

Example basename_ex1 : basename "/tmp/report.pdf" = "report.pdf".
Proof. vm_compute. reflexivity. Qed.

Example path_join_ex1 :
  path_join "/srv/app" "static" = "/srv/app/static" /\ path_join "/srv/" "/etc/x" = "/etc/x".
Proof. vm_compute. auto. Qed.

Example uuid_str_ex1 :
  uuid_str 0x0123456789abcdef0123456789abcdef = "01234567-89ab-cdef-0123-456789abcdef".
Proof. vm_compute. reflexivity. Qed.

Example file_result_ex1 :
  let '(r, w) := ApiFileResult_init app0 "/tmp/report.pdf" (Some "report.pdf") None world0 in
  let staged := "/srv/app/static/downloads/report_000000000000400080000000000003e8.pdf" in
  r = Ok (mkApiResult
            (PDict [(PStr "success", PBool true);
                    (PStr "url",
                     PStr "/static/downloads/report_000000000000400080000000000003e8.pdf");
                    (PStr "attachment_name", PStr "report.pdf");
                    (PStr "available_for_seconds", PInt 60)]) 200)
  /\ fs w !! staged = Some (File (Data "%PDF"))
  /\ after_request w = [Cleanup staged].
Proof. vm_compute. auto. Qed.

Example cleanup_ex1 :
  let '(r, w) := cleanup_tempfile staged0 0 world_unlocked_later in
  r = Ok tt /\ fs w !! staged0 = None /\ remove_calls w = 2%nat /\ clock w = 122%nat.
Proof. vm_compute. auto. Qed.

Example cleanup_ex2 :
  let '(r, w) := cleanup_tempfile staged0 0 world_removed_meanwhile in
  r = Ok tt /\ remove_calls w = 1%nat
  /\ trace w = [EvSleep 2; EvRemove staged0; EvSleep 60].
Proof. vm_compute. auto. Qed.

Example job_ex1 :
  let '(r, w) := async_target app0 "j1" (ret (PList [PInt 1])) world0 in
  r = Ok tt
  /\ fs w !! "/srv/app/static/./temp/j1.json"
     = Some (File (Data (dq "{'status': 'complete', 'data': [1]}"))).
Proof. vm_compute. auto. Qed.

Example json_encode_ex2 :
  json_encode (PStr (String dquote (String "\" (String "010" (String "233" "")))))
  = Some (String dquote (String "\" (String dquote
            ("\\" +:+ "\n" +:+ "\u00e9" +:+ String dquote "")))).
Proof. vm_compute. reflexivity. Qed.

Example json_encode_ex3 :
  json_encode (PDict [(PInt 1, PTuple [PBool false]); (PNone, PDict [])])
  = Some (dq "{'1': [false], 'null': {}}")
  /\ json_encode (PDict [(PTuple [], PInt 1)]) = None
  /\ json_encode (PList [a_set]) = None.
Proof. vm_compute. auto. Qed.

Example json_decode_ex5 :
  json_decode (dq "{'1': [false], 'null': {}}")
  = Some (PDict [(PStr "1", PList [PBool false]); (PStr "null", PDict [])])
  /\ json_decode "1.5" = Some (PFloat "1.5")
  /\ json_decode " [ 1 , 2 ] " = Some (PList [PInt 1; PInt 2])
  /\ json_decode "-0" = Some (PInt 0).
Proof. vm_compute. auto. Qed.

Example unique_attachment_ex1 :
  unique_attachment "report.final.pdf" "ab12" = "report.final_ab12.pdf"
  /\ unique_attachment "README" "ab12" = "README_ab12"
  /\ unique_attachment ".bashrc" "ab12" = "_ab12.bashrc".
Proof. vm_compute. auto. Qed.

Example truthy_ex1 :
  map truthy [PNone; PBool false; PInt 0; PStr ""; PList []; PTuple []; PDict []]
  = [false; false; false; false; false; false; false]
  /\ map truthy [PInt (-1); PStr "0"; PList [PNone]; a_set] = [true; true; true; true].
Proof. vm_compute. auto. Qed.

Example job_ex2 :
  let quit := Exn SystemExit "1" "" in
  async_target app0 "j1" (raise quit) world0 = (Raise quit, world0).
Proof. vm_compute. reflexivity. Qed.

Example json_encode_ex4 :
  json_encode (PList [PStr [8364%N]; PStr [128512%N]; PFloat "1.5"; PFloat "-inf"])
  = Some (dq "['\u20ac', '\ud83d\ude00', 1.5, -Infinity]")
  /\ json_decode (dq "['\u20ac', '\ud83d\ude00', 1.5, -Infinity]")
     = Some (PList [PStr [8364%N]; PStr [128512%N]; PFloat "1.5"; PFloat "-inf"]).
Proof. vm_compute. auto. Qed.

Example json_decode_ex6 :
  json_decode "[1e+16, -2.5E-3, 0.0, NaN, 1.e5]" = None
  /\ json_decode "[1e+16, -2.5E-3, 0.0, NaN]"
     = Some (PList [PFloat "1e+16"; PFloat "-2.5E-3"; PFloat "0.0"; PFloat "nan"])
  /\ json_decode (dq "'\ud83d'") = Some (PStr [55357%N])
  /\ json_decode (dq "'\ud83dx'") = Some (PStr [55357%N; 120%N])
  /\ json_decode (dq "'\ud83d\u00e9'") = Some (PStr [55357%N; 233%N])
  /\ json_decode (dq "'\ud83d\uzzzz'") = None.
Proof. vm_compute. auto 10. Qed.

Example py_repr_ex2 :
  py_repr (PList [PStr [233%N; 8364%N; 10%N; 173%N; 8232%N; 128512%N]; PFloat "1.5"])
  = Ok (String "[" (String "'" (String "195" (String "169" (String "226" (String "130"
          (String "172" ("\n\xad\u2028" +:+ String "240" (String "159" (String "152"
          (String "128" "', 1.5]")))))))))))
  /\ py_repr (PList [PInt 1; PObject (PyObject "Bad" (Raise (Exn (UserError "RuntimeError") "no repr" "")) (Ok true))])
     = Raise (Exn (UserError "RuntimeError") "no repr" "").
Proof. vm_compute. auto. Qed.

Example format_exc_ex1 :
  format_exc (Exn ValueError "" "")
  = pystr_of ("Traceback (most recent call last):" +:+ nl +:+ "ValueError" +:+ nl)
  /\ format_exc (Exn ValueError "bad" "")
     = pystr_of ("Traceback (most recent call last):" +:+ nl +:+ "ValueError: bad" +:+ nl).
Proof. vm_compute. auto. Qed.

Example uuid4_ex1 :
  uuid_str (uuid4_of 0) = "00000000-0000-4000-8000-000000000000"
  /\ uuid_str (uuid4_of (2 ^ 128 - 1)) = "ffffffff-ffff-4fff-bfff-ffffffffffff".
Proof. vm_compute. auto. Qed.

(* ===================================================================== *)
(** * Facts about text *)
(* ===================================================================== *)

Section Text.

Implicit Types (s t u : string) (c : ascii).

Lemma str_app_cons c s t : String c s +:+ t = String c (s +:+ t).
Proof. reflexivity. Qed.

Lemma str_app_nil_r s : s +:+ "" = s.
Proof. induction s as [|c s IH]; [reflexivity|]. rewrite str_app_cons, IH. reflexivity. Qed.

Lemma str_app_assoc s t u : (s +:+ t) +:+ u = s +:+ (t +:+ u).
Proof.
  induction s as [|c s IH]; [reflexivity|].
  rewrite !str_app_cons, IH. reflexivity.
Qed.

Lemma str_app_length s t : String.length (s +:+ t) = (String.length s + String.length t)%nat.
Proof.
  induction s as [|c s IH]; [reflexivity|].
  rewrite str_app_cons. simpl. rewrite IH. reflexivity.
Qed.

(** Two texts that end in parts of equal length agree part by part. *)
Lemma str_app_inj_tail s1 s2 t1 t2 :
  String.length t1 = String.length t2 -> s1 +:+ t1 = s2 +:+ t2 -> s1 = s2 /\ t1 = t2.
Proof.
  revert s2. induction s1 as [|c s1 IH]; intros [|d s2] Hlen Heq.
  - auto.
  - exfalso. apply (f_equal String.length) in Heq.
    change ("" +:+ t1) with t1 in Heq. rewrite str_app_cons in Heq. simpl in Heq.
    rewrite str_app_length in Heq. lia.
  - exfalso. apply (f_equal String.length) in Heq.
    change ("" +:+ t2) with t2 in Heq. rewrite str_app_cons in Heq. simpl in Heq.
    rewrite str_app_length in Heq. lia.
  - rewrite !str_app_cons in Heq. injection Heq as -> Heq.
    destruct (IH s2 Hlen Heq) as [-> ->]. auto.
Qed.

Lemma str_contains_app c s t :
  str_contains c (s +:+ t) = (str_contains c s || str_contains c t)%bool.
Proof.
  induction s as [|d s IH]; [reflexivity|].
  rewrite str_app_cons. simpl. rewrite IH. apply orb_assoc.
Qed.

(** [rsplit1] finds the last separator, and only fails when there is none. *)
Lemma rsplit1_Some sep s a b :
  rsplit1 sep s = Some (a, b) ->
  s = a +:+ String sep b /\ str_contains sep b = false.
Proof.
  revert a b. induction s as [|c s IH]; intros a b H; simpl in H; [discriminate|].
  destruct (rsplit1 sep s) as [[a' b']|] eqn:E.
  - injection H as <- <-. destruct (IH _ _ eq_refl) as [-> Hb].
    rewrite str_app_cons. auto.
  - destruct (Ascii.eqb_spec c sep) as [->|]; [|discriminate].
    injection H as <- <-. split; [reflexivity|].
    clear IH. induction s as [|d s IH]; [reflexivity|].
    simpl in E. destruct (rsplit1 sep s) as [[? ?]|]; [discriminate|].
    destruct (Ascii.eqb_spec d sep); [discriminate|].
    simpl. destruct (Ascii.eqb_spec d sep); [contradiction|]. auto.
Qed.

Lemma rsplit1_None sep s : rsplit1 sep s = None <-> str_contains sep s = false.
Proof.
  induction s as [|c s IH]; simpl; [tauto|].
  destruct (rsplit1 sep s) as [[a b]|].
  - split; [discriminate|]. intros H. apply orb_false_iff in H as [_ H].
    apply IH in H. discriminate.
  - destruct (Ascii.eqb_spec c sep); simpl; split; try discriminate; try tauto.
Qed.

Lemma rsplit1_app sep s b :
  str_contains sep b = false -> rsplit1 sep (s +:+ String sep b) = Some (s, b).
Proof.
  intros Hb. induction s as [|c s IH].
  - change ("" +:+ String sep b) with (String sep b). simpl.
    apply rsplit1_None in Hb. rewrite Hb, Ascii.eqb_refl. reflexivity.
  - rewrite str_app_cons. simpl. rewrite IH. reflexivity.
Qed.

End Text.

(* ===================================================================== *)
(** * Facts about the uuid text *)
(* ===================================================================== *)

Lemma hex_digit_not c n : str_contains c "0123456789abcdef" = false -> hex_digit n <> c.
Proof.
  intros H E. subst c. revert H. unfold hex_digit.
  destruct n as [|p]; [vm_compute; discriminate|].
  do 4 (try destruct p as [p|p|]); vm_compute; discriminate.
Qed.

Lemma hex_fixed_length w n acc :
  String.length (hex_fixed w n acc) = (w + String.length acc)%nat.
Proof.
  revert n acc. induction w as [|w IH]; intros n acc; simpl; [reflexivity|].
  rewrite IH. simpl. lia.
Qed.

Lemma hex_fixed_contains c w n acc :
  str_contains c "0123456789abcdef" = false ->
  str_contains c (hex_fixed w n acc) = str_contains c acc.
Proof.
  intros Hc. revert n acc. induction w as [|w IH]; intros n acc; simpl; [reflexivity|].
  rewrite IH. simpl.
  destruct (Ascii.eqb_spec (hex_digit (n mod 16)) c) as [E|]; [|reflexivity].
  exfalso. exact (hex_digit_not c _ Hc E).
Qed.

Lemma uuid_hex_length u : String.length (uuid_hex u) = 32%nat.
Proof. unfold uuid_hex. rewrite hex_fixed_length. reflexivity. Qed.


(* ===================================================================== *)
(** * Facts about the staged name and path *)
(* ===================================================================== *)

Lemma unique_attachment_eq name token :
  unique_attachment name token =
  match rsplit1 "." name with
  | Some (base, ext) => (base +:+ "_" +:+ token) +:+ String "." ext
  | None => name +:+ "_" +:+ token
  end.
Proof.
  unfold unique_attachment, str_rsplit1.
  destruct (rsplit1 "." name) as [[base ext]|]; reflexivity.
Qed.


Lemma starts_with_slash_app s t :
  s <> "" -> starts_with_slash (s +:+ t) = starts_with_slash s.
Proof. destruct s as [|c s]; [congruence|]. reflexivity. Qed.

Lemma unique_attachment_absolute name token :
  starts_with_slash (unique_attachment name token) = starts_with_slash name.
Proof.
  rewrite unique_attachment_eq.
  destruct (rsplit1 "." name) as [[b e]|] eqn:E.
  - apply rsplit1_Some in E as [-> _].
    destruct b as [|c b]; reflexivity.
  - destruct name as [|c name]; reflexivity.
Qed.

Lemma path_join_inj d u1 u2 :
  starts_with_slash u1 = starts_with_slash u2 ->
  path_join d u1 = path_join d u2 -> u1 = u2.
Proof.
  unfold path_join. intros <-.
  destruct (starts_with_slash u1 || String.eqb d "")%bool; [auto|].
  destruct (ends_with_slash d); intros H.
  - exact (String.app_inj d _ _ H).
  - apply (String.app_inj d) in H. exact (String.app_inj "/" _ _ H).
Qed.

(* ===================================================================== *)
(** * Facts about the file system calls *)
(* ===================================================================== *)

Lemma mkdir_all_keeps ps (m : gmap string node) p x :
  m !! p = Some x -> mkdir_all ps m !! p = Some x.
Proof.
  intros H. induction ps as [|q ps IH]; simpl; [exact H|].
  destruct (mkdir_all ps m !! q) eqn:E; [exact IH|].
  rewrite lookup_insert_ne; [exact IH|]. intros ->. congruence.
Qed.

Lemma apply_env_trace (due : list (nat * env_event)) w :
  trace (foldl (fun w e => apply_env e.2 w) w due) = trace w.
Proof.
  revert w. induction due as [|[t ev] due IH]; intros w; simpl; [reflexivity|].
  rewrite IH. destruct ev; reflexivity.
Qed.

Lemma sleep_trace n w :
  exists w', sleep n w = (Ok tt, w') /\ trace w' = EvSleep n :: trace w.
Proof.
  unfold sleep. eexists. split; [reflexivity|].
  rewrite apply_env_trace. reflexivity.
Qed.

Lemma remove_trace p w r w' :
  remove p w = (r, w') -> trace w' = EvRemove p :: trace w.
Proof.
  unfold remove. simpl. destruct (fs w !! p) as [[|c]|]; simpl.
  - intros [= <- <-]. reflexivity.
  - destruct (decide (p ∈ locked w)); intros [= <- <-]; reflexivity.
  - intros [= <- <-]. reflexivity.
Qed.

(** One call of [cleanup_tempfile], spelled out. *)
Lemma cleanup_tempfile_from_S fuel tmp tries w :
  cleanup_tempfile_from (S fuel) tmp tries w =
  if is_regular_file w tmp then
    let w1 := (sleep KEEP_FILE_FOR_SECONDS w).2 in
    match remove tmp w1 with
    | (Ok tt, w2) => (Ok tt, w2)
    | (Raise e, w2) =>
        if perm_or_not_found (exn_class_of e) then
          let w3 := (sleep 2 w2).2 in
          if (tries <? MAX_CLEANUP_TRIES)%nat
          then cleanup_tempfile_from fuel tmp (tries + 1) w3
          else (Ok tt, w3)
        else (Raise e, w2)
    end
  else (Ok tt, w).
Proof.
  unfold is_regular_file. simpl.
  unfold mbind, M_bind, bind, isfile, try_except. simpl.
  destruct (fs w !! tmp) as [[|c]|]; simpl; try reflexivity.
  destruct (remove tmp _) as [[[]|e] w2]; simpl; try reflexivity.
  destruct (perm_or_not_found (exn_class_of e)); [|reflexivity].
  destruct (tries <? MAX_CLEANUP_TRIES)%nat; reflexivity.
Qed.

(** The allowance of calls is never used up: any allowance of at least
    [MAX_CLEANUP_TRIES - tries + 1] gives the same run. *)
Lemma cleanup_tempfile_fuel fuel tmp tries w :
  (MAX_CLEANUP_TRIES - tries < fuel)%nat ->
  cleanup_tempfile_from fuel tmp tries w = cleanup_tempfile tmp tries w.
Proof.
  unfold cleanup_tempfile.
  remember (MAX_CLEANUP_TRIES - tries)%nat as k eqn:Hk.
  revert fuel tries w Hk. induction k as [|k IH]; intros fuel tries w Hk Hlt.
  - destruct fuel as [|fuel]; [lia|]. rewrite !cleanup_tempfile_from_S.
    assert ((tries <? MAX_CLEANUP_TRIES)%nat = false) as -> by (apply Nat.ltb_ge; lia).
    reflexivity.
  - destruct fuel as [|fuel]; [lia|]. rewrite !cleanup_tempfile_from_S.
    destruct (is_regular_file w tmp); [|reflexivity]. simpl.
    destruct (remove tmp _) as [[[]|e] w2]; [reflexivity|].
    destruct (perm_or_not_found _); [|reflexivity].
    destruct (tries <? MAX_CLEANUP_TRIES)%nat; [|reflexivity].
    apply IH; lia.
Qed.

(** However the environment behaves, one run of the cleanup calls
    [os.remove] at most [MAX_CLEANUP_TRIES + 1] times. *)
Lemma cleanup_tempfile_from_removes fuel tmp tries w r w' :
  cleanup_tempfile_from fuel tmp tries w = (r, w') ->
  (remove_calls w' <= remove_calls w + fuel)%nat.
Proof.
  revert tries w. induction fuel as [|fuel IH]; intros tries w.
  - simpl. intros [= <- <-]. lia.
  - rewrite cleanup_tempfile_from_S.
    destruct (is_regular_file w tmp); [|intros [= <- <-]; lia]. cbv zeta.
    destruct (sleep_trace KEEP_FILE_FOR_SECONDS w) as (w1 & -> & Ht1). cbn [snd].
    destruct (remove tmp w1) as [[[]|e] w2] eqn:Er; apply remove_trace in Er.
    + intros [= <- <-]. unfold remove_calls. rewrite Er, Ht1. simpl. lia.
    + assert (remove_calls w2 = S (remove_calls w)) as Hc
        by (unfold remove_calls; rewrite Er, Ht1; reflexivity).
      destruct (perm_or_not_found _); [|intros [= <- <-]; lia].
      cbv zeta. destruct (sleep_trace 2 w2) as (w3 & -> & Ht3). cbn [snd].
      assert (remove_calls w3 = S (remove_calls w)) as Hc3
        by (unfold remove_calls in *; rewrite Ht3; exact Hc).
      destruct (tries <? MAX_CLEANUP_TRIES)%nat.
      * intros H. apply IH in H. lia.
      * intros [= <- <-]. lia.
Qed.

Lemma cleanup_tempfile_removes tmp w r w' :
  cleanup_tempfile tmp 0 w = (r, w') ->
  (remove_calls w' <= remove_calls w + (MAX_CLEANUP_TRIES + 1))%nat.
Proof.
  unfold cleanup_tempfile. intros H. apply cleanup_tempfile_from_removes in H.
  simpl in *. lia.
Qed.

(** A run of the cleanup only adds to the trace. *)
Lemma cleanup_tempfile_from_trace fuel tmp tries w r w' :
  cleanup_tempfile_from fuel tmp tries w = (r, w') ->
  exists more, trace w' = (more ++ trace w)%list.
Proof.
  revert tries w. induction fuel as [|fuel IH]; intros tries w.
  - simpl. intros [= <- <-]. exists []. reflexivity.
  - rewrite cleanup_tempfile_from_S.
    destruct (is_regular_file w tmp); [|intros [= <- <-]; exists []; reflexivity].
    cbv zeta. destruct (sleep_trace KEEP_FILE_FOR_SECONDS w) as (w1 & -> & Ht1). cbn [snd].
    destruct (remove tmp w1) as [[[]|e] w2] eqn:Er; apply remove_trace in Er.
    + intros [= <- <-]. rewrite Er, Ht1. eexists [_; _]. reflexivity.
    + destruct (perm_or_not_found _).
      * cbv zeta. destruct (sleep_trace 2 w2) as (w3 & -> & Ht3). cbn [snd].
        destruct (tries <? MAX_CLEANUP_TRIES)%nat.
        -- intros H. apply IH in H as [more Hm]. rewrite Hm, Ht3, Er, Ht1.
           exists (more ++ [EvSleep 2; EvRemove tmp; EvSleep KEEP_FILE_FOR_SECONDS])%list.
           rewrite <- app_assoc. reflexivity.
        -- intros [= <- <-]. rewrite Ht3, Er, Ht1. eexists [_; _; _]. reflexivity.
      * intros [= <- <-]. rewrite Er, Ht1. eexists [_; _]. reflexivity.
Qed.

(** When the staged file is there, the first things the cleanup does are to
    sleep for the retention window and then to call [os.remove]. *)
Lemma cleanup_tempfile_first_steps tmp w r w' :
  is_regular_file w tmp = true ->
  cleanup_tempfile tmp 0 w = (r, w') ->
  exists later,
    trace w' = (later ++ [EvRemove tmp; EvSleep KEEP_FILE_FOR_SECONDS] ++ trace w)%list.
Proof.
  intros Hf. unfold cleanup_tempfile. cbn [Nat.sub MAX_CLEANUP_TRIES].
  rewrite cleanup_tempfile_from_S, Hf. cbv zeta.
  destruct (sleep_trace KEEP_FILE_FOR_SECONDS w) as (w1 & -> & Ht1). cbn [snd].
  destruct (remove tmp w1) as [[[]|e] w2] eqn:Er; apply remove_trace in Er.
  - intros [= <- <-]. exists []. rewrite Er, Ht1. reflexivity.
  - destruct (perm_or_not_found _).
    + cbv zeta. destruct (sleep_trace 2 w2) as (w3 & -> & Ht3). cbn [snd].
      cbn [Nat.ltb Nat.leb]. intros H.
      apply cleanup_tempfile_from_trace in H as [more Hm].
      exists (more ++ [EvSleep 2])%list. rewrite Hm, Ht3, Er, Ht1, <- app_assoc.
      reflexivity.
    + intros [= <- <-]. exists []. rewrite Er, Ht1. reflexivity.
Qed.

(** [shutil.copy2] either writes the contents of the source at the
    destination, or raises and leaves the world as it was. *)
Lemma copy2_cases src dst w :
  (exists c, fs w !! src = Some (File c) /\ src <> dst /\ fs w !! dst <> Some Dir
             /\ (dirname dst = "" \/ fs w !! dirname dst = Some Dir)
             /\ copy2 src dst w = (Ok tt, set_fs <[dst := File c]> w))
  \/ (exists e, copy2 src dst w = (Raise e, w)).
Proof.
  unfold copy2. destruct (fs w !! src) as [[|c]|] eqn:Hs; [right; eauto| |right; eauto].
  destruct (String.eqb_spec src dst) as [->|Hne]; [right; eauto|].
  destruct (fs w !! dst) as [[|c']|] eqn:Hd; [right; eauto| |].
  all: destruct (String.eqb_spec (dirname dst) "") as [He|He];
    [left; exists c; repeat split; auto; discriminate|].
  all: destruct (fs w !! dirname dst) as [[|c'']|] eqn:Hp; [|right; eauto..].
  all: left; exists c; repeat split; auto; discriminate.
Qed.

Lemma copy2_ok src dst w c :
  fs w !! src = Some (File c) -> src <> dst -> fs w !! dst <> Some Dir ->
  dirname dst = "" \/ fs w !! dirname dst = Some Dir ->
  copy2 src dst w = (Ok tt, set_fs <[dst := File c]> w).
Proof.
  intros Hs Hne Hd Hp. unfold copy2. rewrite Hs.
  destruct (String.eqb_spec src dst); [contradiction|].
  destruct (fs w !! dst) as [[|c']|]; [congruence| |].
  all: destruct Hp as [-> | ->]; [reflexivity|].
  all: destruct (String.eqb (dirname dst) ""); reflexivity.
Qed.

(** A construction on a regular file, spelled out. *)
Lemma ApiFileResult_init_eq app filepath name status w c :
  fs w !! filepath = Some (File c) ->
  let shown := display_name filepath name in
  let unique := unique_attachment shown (uuid_hex (next_uuid w)) in
  let tmp_file := path_join (downloads_dir app) unique in
  ApiFileResult_init app filepath name status w =
    match copy2 filepath tmp_file (before_copy app w) with
    | (Ok _, w2) =>
        (Ok (mkApiResult (descriptor app shown unique) (default 200%Z status)),
         mkWorld (fs w2) (locked w2) (clock w2) (agenda w2) (uuid_source w2)
                 (uuid_count w2) (after_request w2 ++ [Cleanup tmp_file]) (trace w2))
    | (Raise e, w2) => (Raise e, w2)
    end.
Proof.
  intros Hf shown unique tmp_file.
  unfold ApiFileResult_init, mbind, M_bind, bind, isfile, isdir, before_copy, is_dir_in.
  rewrite Hf. cbn [negb fst snd].
  destruct (match fs w !! downloads_dir app with Some Dir => true | _ => false end);
    cbn [negb ret makedirs uuid4 set_fs fs locked clock agenda uuid_source uuid_count
         after_request trace];
    fold (next_uuid w); fold shown; fold unique; fold tmp_file;
    match goal with |- context [copy2 ?a ?b ?w0] => destruct (copy2 a b w0) as [[[]|e] w2] end;
    reflexivity.
Qed.

(* ===================================================================== *)
(** * The decoder reads back what the encoder writes *)
(* ===================================================================== *)

(** ** Text *)

Lemma hex_val_digit n : (n < 16)%N -> hex_val (hex_digit n) = Some n.
Proof.
  intros H. destruct n as [|p]; [reflexivity|].
  do 4 (destruct p as [p|p|]; try reflexivity; try lia).
Qed.

Lemma decode_u4_hex4 x :
  (x < 65536)%N ->
  decode_u4 (hex_digit ((x / 4096) mod 16)) (hex_digit ((x / 256) mod 16))
            (hex_digit ((x / 16) mod 16)) (hex_digit (x mod 16)) = Some x.
Proof.
  intros H. unfold decode_u4. rewrite !hex_val_digit by (apply N.mod_lt; lia).
  f_equal.
  replace (x / 256)%N with (x / 16 / 16)%N by (rewrite N.Div0.div_div; reflexivity).
  replace (x / 4096)%N with (x / 16 / 16 / 16)%N by (rewrite !N.Div0.div_div; reflexivity).
  pose proof (N.div_mod x 16 ltac:(lia)) as E1.
  pose proof (N.div_mod (x / 16) 16 ltac:(lia)) as E2.
  pose proof (N.div_mod (x / 16 / 16) 16 ltac:(lia)) as E3.
  assert (x / 16 / 16 / 16 < 16)%N as H3.
  { rewrite !N.Div0.div_div. apply N.Div0.div_lt_upper_bound. exact H. }
  rewrite (N.mod_small (x / 16 / 16 / 16) 16) by exact H3.
  generalize dependent (x / 16 / 16 / 16)%N. intros q3 E3 H3.
  generalize dependent ((x / 16 / 16) mod 16)%N. intros b E3.
  generalize dependent (x / 16 / 16)%N. intros q2 E2 E3.
  generalize dependent ((x / 16) mod 16)%N. intros c0 E2.
  generalize dependent (x / 16)%N. intros q1 E1 E2.
  lia.
Qed.

Lemma scanstring_u h1 h2 h3 h4 t :
  scanstring (String "\" (String "u" (String h1 (String h2 (String h3 (String h4 t)))))) =
  match decode_u4 h1 h2 h3 h4 with
  | None => None
  | Some x =>
      if is_high_surrogate x then after_high x t scanstring
      else cons_char x (scanstring t)
  end.
Proof. reflexivity. Qed.

Lemma scanstring_u_escape x t :
  (x < 65536)%N ->
  scanstring (u_escape x +:+ t) =
    if is_high_surrogate x then after_high x t scanstring
    else cons_char x (scanstring t).
Proof.
  intros H. unfold u_escape, hex4. rewrite !str_app_cons.
  change ("" +:+ t) with t. rewrite scanstring_u, decode_u4_hex4 by exact H.
  reflexivity.
Qed.

Lemma after_high_u_escape x y t scan :
  (y < 65536)%N ->
  after_high x (u_escape y +:+ t) scan =
    if is_low_surrogate y then cons_char (join_surrogates x y) (scan t)
    else cons_char x (scan (u_escape y +:+ t)).
Proof.
  intros H. unfold u_escape, hex4. rewrite !str_app_cons.
  change ("" +:+ t) with t. unfold after_high. rewrite decode_u4_hex4 by exact H.
  reflexivity.
Qed.

Lemma after_high_other x a t scan :
  a <> "\"%char -> after_high x (String a t) scan = cons_char x (scan (String a t)).
Proof.
  intros H. destruct a as [[] [] [] [] [] [] [] []]; try reflexivity. congruence.
Qed.

Lemma ascii_of_N_neq c n :
  (c < 256)%N -> (n < 256)%N -> c <> n -> ascii_of_N c <> ascii_of_N n.
Proof.
  intros Hc Hn Hne E. apply (f_equal N_of_ascii) in E.
  rewrite !N_ascii_embedding in E by assumption. contradiction.
Qed.

(** A code point that is not a high surrogate, escaped, is read back as
    that code point, whatever follows. *)
Lemma scanstring_escape_char c t :
  (c < 1114112)%N -> is_high_surrogate c = false ->
  scanstring (escape_char c +:+ t) = cons_char c (scanstring t).
Proof.
  intros Hc Hh. unfold escape_char.
  repeat match goal with
         | |- context [(c =? ?n)%N] =>
             destruct (N.eqb_spec c n); [subst c; reflexivity|]
         end.
  destruct ((32 <=? c)%N && (c <=? 126)%N) eqn:Hp.
  - apply andb_true_iff in Hp as [H1 H2].
    apply N.leb_le in H1. apply N.leb_le in H2.
    rewrite str_app_cons. change ("" +:+ t) with t. cbn [scanstring].
    assert (Hq : Ascii.eqb (ascii_of_N c) dquote = false).
    { apply Ascii.eqb_neq. apply (ascii_of_N_neq c 34); lia. }
    assert (Hb : Ascii.eqb (ascii_of_N c) "\" = false).
    { apply Ascii.eqb_neq. apply (ascii_of_N_neq c 92); lia. }
    rewrite Hq, Hb, N_ascii_embedding by lia.
    destruct (N.ltb_spec c 32); [lia|]. reflexivity.
  - destruct (N.ltb_spec c 65536) as [Hlt|Hge].
    + rewrite scanstring_u_escape, Hh by exact Hlt. reflexivity.
    + rewrite str_app_assoc.
      remember (c - 65536)%N as v eqn:Ev.
      assert (Hv : (v < 1048576)%N) by lia.
      assert (Hd : (v / 1024 < 1024)%N) by (apply N.Div0.div_lt_upper_bound; lia).
      assert (Hm : (v mod 1024 < 1024)%N) by (apply N.mod_lt; lia).
      rewrite (N.mod_small (v / 1024) 1024) by exact Hd.
      pose proof (N.div_mod v 1024 ltac:(lia)) as Hv'.
      remember (v / 1024)%N as q eqn:Eq. remember (v mod 1024)%N as r eqn:Er.
      rewrite scanstring_u_escape by lia.
      replace (is_high_surrogate (55296 + q)) with true
        by (unfold is_high_surrogate; symmetry; apply andb_true_iff; split; apply N.leb_le; lia).
      rewrite after_high_u_escape by lia.
      replace (is_low_surrogate (56320 + r)) with true
        by (unfold is_low_surrogate; symmetry; apply andb_true_iff; split; apply N.leb_le; lia).
      replace (join_surrogates (55296 + q) (56320 + r)) with c; [reflexivity|].
      unfold join_surrogates. lia.
Qed.


Lemma is_high_surrogate_range c :
  is_high_surrogate c = true <-> (55296 <= c <= 56319)%N.
Proof.
  unfold is_high_surrogate. rewrite andb_true_iff, !N.leb_le. reflexivity.
Qed.

Lemma is_low_surrogate_range c :
  is_low_surrogate c = true <-> (56320 <= c <= 57343)%N.
Proof.
  unfold is_low_surrogate. rewrite andb_true_iff, !N.leb_le. reflexivity.
Qed.

(** A code point of the basic plane outside printable ASCII is written as
    one [\u] escape. *)
Lemma escape_char_u c :
  (127 <= c < 65536)%N -> escape_char c = u_escape c.
Proof.
  intros H. unfold escape_char.
  repeat match goal with
         | |- context [(c =? ?n)%N] => destruct (N.eqb_spec c n); [lia|]
         end.
  destruct (N.leb_spec c 126); [lia|]. rewrite andb_false_r.
  destruct (N.ltb_spec c 65536); [reflexivity|lia].
Qed.

(** After the escape of a high surrogate, the escape of a code point that
    is not a low surrogate is not taken for the second half of a pair. *)
Lemma after_high_escape_char x d t scan :
  is_low_surrogate d = false ->
  after_high x (escape_char d +:+ t) scan = cons_char x (scan (escape_char d +:+ t)).
Proof.
  intros Hl. unfold escape_char.
  repeat match goal with
         | |- context [(d =? ?n)%N] => destruct (N.eqb_spec d n); [reflexivity|]
         end.
  destruct ((32 <=? d)%N && (d <=? 126)%N) eqn:Hp.
  - apply andb_true_iff in Hp as [H1 H2].
    apply N.leb_le in H1. apply N.leb_le in H2.
    rewrite str_app_cons. apply after_high_other.
    change "\"%char with (ascii_of_N 92). apply ascii_of_N_neq; lia.
  - destruct (N.ltb_spec d 65536) as [Hlt|Hge].
    + rewrite after_high_u_escape, Hl by exact Hlt. reflexivity.
    + rewrite str_app_assoc.
      assert (Hm : (((d - 65536) / 1024) mod 1024 < 1024)%N) by (apply N.mod_lt; lia).
      remember (((d - 65536) / 1024) mod 1024)%N as q eqn:Eq.
      rewrite after_high_u_escape by lia.
      replace (is_low_surrogate (55296 + q)) with false; [reflexivity|].
      symmetry. apply not_true_iff_false. rewrite is_low_surrogate_range. lia.
Qed.

Lemma scanstring_escape_string s rest :
  str_ok s = true ->
  scanstring (escape_string s +:+ String dquote rest) = Some (s, rest).
Proof.
  induction s as [|c s IH]; intros H; [reflexivity|].
  cbn [str_ok] in H. apply andb_true_iff in H as [H Hs].
  apply andb_true_iff in H as [Hc Hp]. apply N.ltb_lt in Hc.
  cbn [escape_string]. rewrite str_app_assoc.
  destruct (is_high_surrogate c) eqn:Hh.
  - cbn [andb] in Hp. apply negb_true_iff in Hp.
    pose proof (proj1 (is_high_surrogate_range c) Hh) as Hr.
    rewrite escape_char_u, scanstring_u_escape, Hh by lia.
    destruct s as [|d s].
    + reflexivity.
    + cbn [low_next] in Hp. cbn [escape_string]. rewrite str_app_assoc.
      rewrite after_high_escape_char by exact Hp.
      rewrite <- str_app_assoc. change (escape_char d +:+ escape_string s)
        with (escape_string (d :: s)).
      rewrite (IH Hs). reflexivity.
  - rewrite scanstring_escape_char, (IH Hs) by assumption. reflexivity.
Qed.

Lemma scanstring_encoded s rest :
  str_ok s = true ->
  exists tail,
    encode_basestring_ascii s +:+ rest = String dquote tail
    /\ scanstring tail = Some (s, rest).
Proof.
  intros H. exists (escape_string s +:+ String dquote rest). split.
  - unfold encode_basestring_ascii. rewrite str_app_cons, str_app_assoc. reflexivity.
  - apply scanstring_escape_string, H.
Qed.

(** The [str] of a text made of characters is read back. *)
Lemma str_ok_pystr_of (s : string) : str_ok s = true.
Proof.
  induction s as [|a s IH]; [reflexivity|].
  change (pystr_of (String a s)) with (N_of_ascii a :: pystr_of s).
  cbn [str_ok]. rewrite IH. pose proof (N_ascii_bounded a) as Hb.
  replace (is_high_surrogate (N_of_ascii a)) with false.
  - destruct (N.ltb_spec (N_of_ascii a) 1114112); [reflexivity|lia].
  - symmetry. apply not_true_iff_false. rewrite is_high_surrogate_range. lia.
Qed.

Lemma pystr_of_inj (s t : string) : pystr_of s = pystr_of t -> s = t.
Proof.
  revert t. induction s as [|a s IH]; intros [|b t]; try discriminate; [reflexivity|].
  change (pystr_of (String a s)) with (N_of_ascii a :: pystr_of s).
  change (pystr_of (String b t)) with (N_of_ascii b :: pystr_of t).
  intros [= H1 H2]. f_equal; [|apply IH, H2].
  rewrite <- (ascii_N_embedding a), <- (ascii_N_embedding b), H1. reflexivity.
Qed.

(** ** Numbers *)

Lemma follow_ok_cases rest :
  follow_ok rest = true ->
  rest = "" \/ exists c t, rest = String c t /\ (c = "," \/ c = "]" \/ c = "}")%char.
Proof.
  destruct rest as [|c t]; [auto|]. simpl. intros H. right. exists c, t. split; [reflexivity|].
  apply orb_true_iff in H as [H|H]; [apply orb_true_iff in H as [H|H]|];
    apply Ascii.eqb_eq in H; auto.
Qed.

Ltac follow_cases H :=
  apply follow_ok_cases in H as [->|(? & ? & -> & [->|[->| ->]])].

Lemma span_digits_app s rest :
  follow_ok rest = true ->
  span_digits (s +:+ rest) = (fst (span_digits s), snd (span_digits s) +:+ rest).
Proof.
  intros H. induction s as [|a s IH].
  - change ("" +:+ rest) with rest. follow_cases H; reflexivity.
  - rewrite str_app_cons. cbn [span_digits]. rewrite IH.
    destruct (is_digit a); [|reflexivity]. destruct (span_digits s); reflexivity.
Qed.

Lemma span_integer_app s rest :
  follow_ok rest = true ->
  span_integer (s +:+ rest) = (fst (span_integer s), snd (span_integer s) +:+ rest).
Proof.
  intros H. destruct s as [|a s].
  - change ("" +:+ rest) with rest. follow_cases H; reflexivity.
  - rewrite str_app_cons.
    assert (forall x, span_integer (String a x)
                      = if Ascii.eqb a "0" then ("0", x) else span_digits (String a x)) as E.
    { intros x. destruct a as [[] [] [] [] [] [] [] []]; reflexivity. }
    rewrite !E. destruct (Ascii.eqb a "0"); [reflexivity|].
    rewrite <- str_app_cons. apply span_digits_app, H.
Qed.

Lemma span_frac_app s rest :
  follow_ok rest = true ->
  span_frac (s +:+ rest) = (fst (span_frac s), snd (span_frac s) +:+ rest).
Proof.
  intros H. destruct s as [|a s].
  - change ("" +:+ rest) with rest. follow_cases H; reflexivity.
  - rewrite str_app_cons.
    assert (forall x, span_frac (String a x)
                      = if Ascii.eqb a "." then
                          match span_digits x with
                          | ("", _) => ("", String a x)
                          | (ds, r) => (String "." ds, r)
                          end
                        else ("", String a x)) as E.
    { intros x. destruct a as [[] [] [] [] [] [] [] []]; reflexivity. }
    rewrite !E. destruct (Ascii.eqb a "."); [|reflexivity].
    rewrite (span_digits_app s rest H).
    destruct (span_digits s) as [[|d ds] r]; reflexivity.
Qed.

Lemma span_exp_app s rest :
  follow_ok rest = true ->
  span_exp (s +:+ rest) = (fst (span_exp s), snd (span_exp s) +:+ rest).
Proof.
  intros H. destruct s as [|e s].
  - change ("" +:+ rest) with rest. follow_cases H; reflexivity.
  - rewrite str_app_cons. cbn [span_exp].
    destruct (Ascii.eqb e "e" || Ascii.eqb e "E")%bool; [|reflexivity].
    destruct s as [|c s].
    + change ("" +:+ rest) with rest. follow_cases H; reflexivity.
    + rewrite str_app_cons.
      destruct (Ascii.eqb c "-" || Ascii.eqb c "+")%bool.
      * rewrite (span_digits_app s rest H).
        destruct (span_digits s) as [[|d ds] r]; reflexivity.
      * rewrite <- str_app_cons, (span_digits_app (String c s) rest H).
        destruct (span_digits (String c s)) as [[|d ds] r]; reflexivity.
Qed.

Lemma split_sign_app s rest :
  follow_ok rest = true ->
  split_sign (s +:+ rest) = (fst (split_sign s), snd (split_sign s) +:+ rest).
Proof.
  intros H. destruct s as [|a s].
  - change ("" +:+ rest) with rest. follow_cases H; reflexivity.
  - rewrite str_app_cons. destruct a as [[] [] [] [] [] [] [] []]; reflexivity.
Qed.

Lemma parse_number_eq s :
  parse_number s =
    let sp := split_sign s in
    let i := span_integer (snd sp) in
    match fst i with
    | "" => None
    | _ =>
        let f := span_frac (snd i) in
        let e := span_exp (snd f) in
        match fst f, fst e with
        | "", "" =>
            if (MAX_STR_DIGITS <? String.length (fst i))%nat then None
            else match Z_of_digits (fst i) with
                 | Some n => Some (PInt (if String.eqb (fst sp) "" then n else (- n)%Z), snd i)
                 | None => None
                 end
        | _, _ => Some (PFloat (fst sp +:+ fst i +:+ fst f +:+ fst e), snd e)
        end
    end.
Proof.
  unfold parse_number. destruct (split_sign s) as [sg s1]. cbn [fst snd].
  destruct (span_integer s1) as [ds r1]. cbn [fst snd].
  destruct (span_frac r1) as [fr r2]. cbn [fst snd].
  destruct (span_exp r2) as [ex r3]. reflexivity.
Qed.

(** A number is read the same whatever follows it in a document the
    encoder wrote. *)
Lemma parse_number_app s rest v r :
  follow_ok rest = true ->
  parse_number s = Some (v, r) -> parse_number (s +:+ rest) = Some (v, r +:+ rest).
Proof.
  intros H. rewrite !parse_number_eq. cbv zeta.
  rewrite (split_sign_app s rest H). cbn [fst snd].
  rewrite (span_integer_app _ rest H). cbn [fst snd].
  destruct (fst (span_integer (snd (split_sign s)))) as [|d ds]; [discriminate|].
  rewrite (span_frac_app _ rest H). cbn [fst snd].
  rewrite (span_exp_app _ rest H). cbn [fst snd].
  destruct (fst (span_frac _)), (fst (span_exp _));
    try (intros [= <- <-]; reflexivity).
  destruct (MAX_STR_DIGITS <? _)%nat; [discriminate|].
  destruct (Z_of_digits _); [|discriminate]. intros [= <- <-]. reflexivity.
Qed.

(** What starts a number starts a value. *)
Lemma parse_number_head s v r :
  parse_number s = Some (v, r) ->
  exists c t, s = String c t /\ (is_digit c || Ascii.eqb c "-")%bool = true.
Proof.
  destruct s as [|c t]; [discriminate|]. intros H. exists c, t. split; [reflexivity|].
  destruct c as [[] [] [] [] [] [] [] []]; try reflexivity; discriminate.
Qed.

(** A text that is a number is read by the decoder as that number. *)
Lemma scan_once_parse_number fuel s v r :
  parse_number s = Some (v, r) -> scan_once (S fuel) s = Some (v, r).
Proof.
  intros H. destruct (parse_number_head s v r H) as (c & t & -> & Hc).
  assert (scan_once (S fuel) (String c t) =
          if starts_with "-I" (String c t)
          then expect "-Infinity" (PFloat "-inf") (String c t)
          else parse_number (String c t)) as ->.
  { destruct c as [[] [] [] [] [] [] [] []]; try discriminate; reflexivity. }
  destruct (starts_with "-I" (String c t)) eqn:E; [|exact H].
  cbn [starts_with] in E. apply andb_true_iff in E as [E1 E2].
  destruct t as [|b t]; [discriminate|].
  apply andb_true_iff in E2 as [E2 _].
  apply Ascii.eqb_eq in E1, E2. subst c b. discriminate.
Qed.

(** ** Integers *)

Lemma span_digits_uint d :
  span_digits (NilEmpty.string_of_uint d) = (NilEmpty.string_of_uint d, "").
Proof.
  induction d; simpl NilEmpty.string_of_uint; [reflexivity|..];
    cbn [span_digits]; rewrite IHd; reflexivity.
Qed.

(** The digits of a positive number do not start with a zero. *)
Lemma pos_to_uint_head p :
  match Pos.to_uint p with Decimal.Nil | Decimal.D0 _ => False | _ => True end.
Proof.
  pose proof (DecimalPos.Unsigned.to_of (Pos.to_uint p)) as H.
  rewrite DecimalPos.Unsigned.of_to in H. simpl in H.
  pose proof (DecimalPos.Unsigned.to_uint_nonzero p) as Hz.
  destruct (Pos.to_uint p) as [|d| | | | | | | | |] eqn:E; try exact I.
  - discriminate.
  - rewrite unorm_D0 in H. unfold Decimal.unorm in H.
    pose proof (nzhead_nonzero d d) as Hn.
    destruct (Decimal.nzhead d) eqn:En; congruence.
Qed.

Lemma Z_of_digits_pos p :
  Z_of_digits (NilEmpty.string_of_uint (Pos.to_uint p)) = Some (Zpos p).
Proof.
  unfold Z_of_digits.
  pose proof (NilZero.usu (Pos.to_uint p) (DecimalPos.Unsigned.to_uint_nonnil p)) as H.
  unfold NilZero.string_of_uint in H.
  pose proof (DecimalPos.Unsigned.to_uint_nonnil p) as Hn.
  destruct (Pos.to_uint p) eqn:E; try congruence;
    rewrite H; unfold N.of_uint; rewrite <- E, DecimalPos.Unsigned.of_to; reflexivity.
Qed.

Lemma parse_digits_pos p :
  let ds := NilEmpty.string_of_uint (Pos.to_uint p) in
  exists c tail,
    ds = String c tail /\ is_digit c = true /\ Ascii.eqb c "0" = false
    /\ span_integer ds = (ds, "").
Proof.
  intros ds. subst ds.
  pose proof (pos_to_uint_head p) as Hh.
  destruct (Pos.to_uint p) as [|d|d|d|d|d|d|d|d|d|d]; try contradiction;
    simpl NilEmpty.string_of_uint;
    (eexists _, _; split; [reflexivity|]; split; [reflexivity|]; split; [reflexivity|];
     unfold span_integer; cbn [span_digits];
     rewrite (span_digits_uint d); reflexivity).
Qed.

Lemma int_repr_cases z :
  match z with
  | Z0 => int_repr z = "0"
  | Zpos p => int_repr z = NilEmpty.string_of_uint (Pos.to_uint p)
  | Zneg p => int_repr z = String "-" (NilEmpty.string_of_uint (Pos.to_uint p))
  end.
Proof.
  destruct z as [|p|p]; unfold int_repr; simpl; [reflexivity| |];
    pose proof (DecimalPos.Unsigned.to_uint_nonnil p) as Hn;
    unfold NilZero.string_of_uint; destruct (Pos.to_uint p); congruence.
Qed.

Lemma split_sign_digit c t : is_digit c = true -> split_sign (String c t) = ("", String c t).
Proof. destruct c as [[] [] [] [] [] [] [] []]; try discriminate; reflexivity. Qed.

(** The digits of a number within the limit are read as that number. *)
Lemma parse_number_digits sign p :
  let ds := NilEmpty.string_of_uint (Pos.to_uint p) in
  (MAX_STR_DIGITS <? String.length ds)%nat = false ->
  split_sign (sign +:+ ds) = (sign, ds) ->
  parse_number (sign +:+ ds) =
    Some (PInt (if String.eqb sign "" then Zpos p else Zneg p), "").
Proof.
  intros ds Hlen Hsign.
  destruct (parse_digits_pos p) as (c & tail & Hds & Hc & H0 & Hspan). fold ds in Hds, Hspan.
  rewrite parse_number_eq. cbv zeta. rewrite Hsign. cbn [fst snd].
  rewrite Hspan. cbn [fst snd]. rewrite Hlen.
  unfold ds at 2. rewrite Z_of_digits_pos.
  rewrite Hds at 1. cbn [span_frac span_exp fst snd].
  destruct (String.eqb sign ""); reflexivity.
Qed.

Lemma parse_number_int_repr z :
  int_too_long z = false -> parse_number (int_repr z) = Some (PInt z, "").
Proof.
  unfold int_too_long, int_digits. intros Hlen.
  pose proof (int_repr_cases z) as Hz. pose proof (int_repr_cases (Z.abs z)) as Ha.
  destruct z as [|p|p]; [reflexivity| |]; cbn [Z.abs] in Ha; rewrite Ha in Hlen; rewrite Hz.
  - destruct (parse_digits_pos p) as (c & tail & Hds & Hc & _).
    apply (parse_number_digits "" p Hlen).
    change ("" +:+ ?s) with s. cbv zeta in Hds. rewrite Hds. apply split_sign_digit, Hc.
  - apply (parse_number_digits "-" p Hlen). reflexivity.
Qed.

(** A number starts with a digit or a minus sign. *)
Lemma int_repr_head z :
  exists c tail, int_repr z = String c tail
    /\ (is_digit c || Ascii.eqb c "-")%bool = true.
Proof.
  pose proof (int_repr_cases z) as Hz. destruct z as [|p|p]; rewrite Hz.
  - eexists _, _. split; reflexivity.
  - destruct (parse_digits_pos p) as (c & tail & Hds & Hc & _).
    exists c, tail. rewrite Hc. auto.
  - eexists _, _. split; reflexivity.
Qed.

(** ** Floats *)

Lemma is_float_token_parse r :
  is_float_token r = true -> parse_number r = Some (PFloat r, "").
Proof.
  unfold is_float_token. destruct (parse_number r) as [[[] [|]]|]; try discriminate.
  intros H. apply String.eqb_eq in H. subst. reflexivity.
Qed.

(** The text of a finite float is the text the encoder writes for it. *)
Lemma float_json_token r : is_float_token r = true -> float_json r = r.
Proof.
  intros H. unfold float_json.
  repeat match goal with
         | |- context [String.eqb r ?s] =>
             destruct (String.eqb_spec r s); [subst r; discriminate|]
         end.
  reflexivity.
Qed.

Lemma float_json_head r :
  float_text r = true ->
  exists c t, float_json r = String c t /\ value_start c = true.
Proof.
  unfold float_text. intros H.
  apply orb_true_iff in H as [H|H];
    [apply orb_true_iff in H as [H|H]; [apply orb_true_iff in H as [H|H]|]|];
    try (apply String.eqb_eq in H; subst r; eexists _, _; split; reflexivity).
  rewrite (float_json_token r H).
  destruct (parse_number_head _ _ _ (is_float_token_parse r H)) as (c & t & -> & Hc).
  exists c, t. split; [reflexivity|]. unfold value_start.
  apply orb_true_iff in Hc as [-> | ->]; rewrite ?orb_true_r; reflexivity.
Qed.

(** A float is read back from its text. *)
Lemma scan_once_float fuel r rest :
  float_text r = true -> follow_ok rest = true ->
  scan_once (S fuel) (float_json r +:+ rest) = Some (PFloat r, rest).
Proof.
  unfold float_text. intros H Hrest.
  apply orb_true_iff in H as [H|H];
    [apply orb_true_iff in H as [H|H]; [apply orb_true_iff in H as [H|H]|]|];
    try (apply String.eqb_eq in H; subst r; reflexivity).
  rewrite (float_json_token r H). apply scan_once_parse_number.
  apply (parse_number_app r rest _ "" Hrest), is_float_token_parse, H.
Qed.

(** ** Values *)

(** Induction on values, with the hypothesis for every element of a list or
    tuple and for every value of a dict. *)
Lemma pyvalue_ind' (P : pyvalue -> Prop) :
  P PNone -> (forall b, P (PBool b)) -> (forall z, P (PInt z)) ->
  (forall r, P (PFloat r)) -> (forall s, P (PStr s)) ->
  (forall l, Forall P l -> P (PList l)) ->
  (forall l, Forall P l -> P (PTuple l)) ->
  (forall kvs, Forall (fun kv => P (snd kv)) kvs -> P (PDict kvs)) ->
  (forall o, P (PObject o)) ->
  forall v, P v.
Proof.
  intros HN HB HI HF HS HL HT HD HO. fix IH 1. intros [|b|z|r|s|l|l|kvs|o].
  - exact HN.
  - apply HB.
  - apply HI.
  - apply HF.
  - apply HS.
  - apply HL. induction l as [|x l IHl]; constructor; [apply IH|exact IHl].
  - apply HT. induction l as [|x l IHl]; constructor; [apply IH|exact IHl].
  - apply HD. induction kvs as [|[k x] kvs IHl]; constructor; [apply IH|exact IHl].
  - apply HO.
Qed.

Lemma json_encode_list l : json_encode (PList l) = json_array <$> encode_items l.
Proof. reflexivity. Qed.

Lemma json_encode_tuple l : json_encode (PTuple l) = json_array <$> encode_items l.
Proof. reflexivity. Qed.

Lemma json_encode_dict kvs : json_encode (PDict kvs) = json_object <$> encode_members kvs.
Proof. reflexivity. Qed.

Lemma cost_list l : cost (PList l) = S (cost_items l).
Proof. reflexivity. Qed.

Lemma cost_dict kvs : cost (PDict kvs) = S (cost_members kvs).
Proof. reflexivity. Qed.

Lemma cost_pos v : (0 < cost v)%nat.
Proof. destruct v; simpl; lia. Qed.

(** What a value can start with is neither blank nor a delimiter. *)
Lemma value_start_facts c :
  value_start c = true ->
  is_ws c = false /\ Ascii.eqb c "]" = false /\ Ascii.eqb c "}" = false.
Proof.
  destruct c as [[] [] [] [] [] [] [] []]; simpl; intros H;
    try discriminate; repeat split.
Qed.

Lemma skip_ws_value_start c t :
  value_start c = true -> skip_ws (String c t) = String c t.
Proof.
  intros H. apply value_start_facts in H as [H _]. simpl. rewrite H. reflexivity.
Qed.

Lemma json_encode_head v j :
  json_encode v = Some j -> exists c t, j = String c t /\ value_start c = true.
Proof.
  destruct v as [|[]|z|r|s|l|l|kvs|o].
  1-3: intros [= <-]; eexists _, _; split; reflexivity.
  - cbn [json_encode]. destruct (int_too_long z); [discriminate|].
    intros [= <-]. destruct (int_repr_head z) as (c & t & -> & Hc).
    exists c, t. split; [reflexivity|]. unfold value_start.
    apply orb_true_iff in Hc as [-> | ->]; rewrite ?orb_true_r; reflexivity.
  - cbn [json_encode]. destruct (float_text r) eqn:Hr; [|discriminate].
    intros [= <-]. apply float_json_head, Hr.
  - intros [= <-]. eexists _, _. split; reflexivity.
  - rewrite json_encode_list. destruct (encode_items l); intros [= <-].
    eexists _, _; split; reflexivity.
  - rewrite json_encode_tuple. destruct (encode_items l); intros [= <-].
    eexists _, _; split; reflexivity.
  - rewrite json_encode_dict. destruct (encode_members kvs); intros [= <-].
    eexists _, _; split; reflexivity.
  - discriminate.
Qed.

(** Distinct keys: building the dict from the pairs changes nothing. *)
Lemma assoc_set_fresh k v acc :
  existsb (fun kv => key_eqb (fst kv) k) acc = false ->
  assoc_set k v acc = (acc ++ [(k, v)])%list.
Proof.
  induction acc as [|[k' v'] acc IH]; simpl; [reflexivity|].
  intros H. apply orb_false_iff in H as [-> H]. rewrite IH by exact H. reflexivity.
Qed.

Lemma keys_distinct_app_cons acc k v ps :
  keys_distinct (acc ++ (k, v) :: ps)%list = true ->
  existsb (fun kv => key_eqb (fst kv) k) acc = false
  /\ keys_distinct ((acc ++ [(k, v)]) ++ ps)%list = true.
Proof.
  intros H. split.
  - induction acc as [|[k' v'] acc IH]; [reflexivity|].
    simpl in *. apply andb_true_iff in H as [H1 H2].
    rewrite (IH H2), orb_false_r.
    apply negb_true_iff in H1. rewrite existsb_app in H1.
    apply orb_false_iff in H1 as [_ H1]. simpl in H1.
    apply orb_false_iff in H1 as [H1 _]. exact H1.
  - rewrite <- app_assoc. exact H.
Qed.

Lemma dict_of_pairs_distinct ps :
  keys_distinct ps = true -> dict_of_pairs ps = ps.
Proof.
  unfold dict_of_pairs. change ps with ([] ++ ps)%list at 1 3.
  generalize (@nil (pyvalue * pyvalue)) as acc.
  induction ps as [|[k v] ps IH]; intros acc H; simpl.
  - rewrite app_nil_r. reflexivity.
  - apply keys_distinct_app_cons in H as [Hk Hd].
    rewrite (assoc_set_fresh k v acc Hk), (IH _ Hd), <- app_assoc. reflexivity.
Qed.

Lemma str_join_cons sep x y parts :
  str_join sep (x :: y :: parts) = x +:+ sep +:+ str_join sep (y :: parts).
Proof. reflexivity. Qed.

Lemma encode_items_cons x l parts :
  encode_items (x :: l) = Some parts ->
  exists jx parts', parts = jx :: parts' /\ json_encode x = Some jx
                    /\ encode_items l = Some parts'.
Proof.
  simpl. destruct (json_encode x) as [jx|]; [|discriminate].
  destruct (encode_items l) as [parts'|]; [|discriminate].
  intros [= <-]. eauto.
Qed.

Lemma encode_members_cons k x kvs parts :
  encode_members ((PStr k, x) :: kvs) = Some parts ->
  exists jx parts', parts = json_member k jx :: parts' /\ json_encode x = Some jx
                    /\ encode_members kvs = Some parts'.
Proof.
  simpl. destruct (json_encode x) as [jx|]; [|discriminate].
  destruct (encode_members kvs) as [parts'|]; [|discriminate].
  intros [= <-]. eauto.
Qed.

Lemma items_read_back l :
  Forall reads_back l -> l <> [] -> forallb json_native l = true ->
  forall parts rest fuel,
    encode_items l = Some parts -> (cost_items l <= fuel)%nat ->
    scan_elements fuel (str_join ", " parts +:+ String "]" rest) = Some (l, rest).
Proof.
  induction l as [|x l IH]; [congruence|].
  intros HF _ Hnat parts rest fuel Henc Hfuel.
  apply Forall_cons in HF as [Hx HF].
  simpl in Hnat. apply andb_true_iff in Hnat as [Hnx Hnl].
  apply encode_items_cons in Henc as (jx & parts' & -> & Hjx & Hps).
  simpl in Hfuel. destruct fuel as [|fuel]; [lia|].
  destruct l as [|y l].
  - injection Hps as <-. simpl str_join. cbn [scan_elements].
    rewrite (Hx jx (String "]" rest) fuel Hnx Hjx eq_refl) by lia.
    reflexivity.
  - destruct (encode_items_cons _ _ _ Hps) as (jy & parts'' & -> & Hjy & _).
    rewrite str_join_cons, !str_app_assoc. cbn [scan_elements].
    change (", " +:+ ?s) with (String "," (String " " s)).
    erewrite (Hx jx _ fuel Hnx Hjx); [|reflexivity|lia].
    cbn [skip_ws is_ws]. cbn [Ascii.eqb Bool.eqb]. cbv iota.
    destruct (json_encode_head _ _ Hjy) as (c & t & -> & Hc).
    assert (exists t', str_join ", " (String c t :: parts'') +:+ String "]" rest
                       = String c t') as [t' Ht'].
    { destruct parts''; simpl str_join; rewrite ?str_app_cons; eauto. }
    rewrite Ht', (skip_ws_value_start c t' Hc), <- Ht'.
    rewrite (IH HF ltac:(discriminate) Hnl _ rest fuel Hps) by (simpl in *; lia).
    reflexivity.
Qed.

Lemma skip_ws_encoded v j rest :
  json_encode v = Some j -> skip_ws (j +:+ rest) = j +:+ rest.
Proof.
  intros H. destruct (json_encode_head _ _ H) as (c & t & -> & Hc).
  rewrite str_app_cons. apply skip_ws_value_start. exact Hc.
Qed.

(** One member [key: value] of an object, followed by [rest]. *)
Lemma member_read_back fuel k x jx rest :
  str_ok k = true ->
  reads_back x -> json_native x = true -> json_encode x = Some jx ->
  follow_ok rest = true -> (cost x <= fuel)%nat ->
  exists tail,
    json_member k jx +:+ rest = String dquote tail
    /\ scanstring tail = Some (k, String ":" (String " " (jx +:+ rest)))
    /\ scan_once fuel (skip_ws (jx +:+ rest)) = Some (x, rest).
Proof.
  intros Hk Hx Hn Hj Hr Hf.
  destruct (scanstring_encoded k (String ":" (String " " (jx +:+ rest))) Hk)
    as (tail & Ht & Hs).
  exists tail. split; [|split; [exact Hs|]].
  - rewrite <- Ht. unfold json_member. rewrite !str_app_assoc. reflexivity.
  - rewrite (skip_ws_encoded x jx rest Hj).
    apply Hx; assumption.
Qed.

Lemma members_read_back kvs :
  Forall (fun kv => reads_back (snd kv)) kvs -> kvs <> [] ->
  forallb (fun kv => is_str_ok (fst kv) && json_native (snd kv)) kvs = true ->
  forall parts rest fuel,
    encode_members kvs = Some parts -> (cost_members kvs <= fuel)%nat ->
    scan_members fuel (str_join ", " parts +:+ String "}" rest) = Some (kvs, rest).
Proof.
  induction kvs as [|[k x] kvs IH]; [congruence|].
  intros HF _ Hnat parts rest fuel Henc Hfuel.
  apply Forall_cons in HF as [Hx HF]. simpl in Hx.
  simpl in Hnat. apply andb_true_iff in Hnat as [Hnx Hnl].
  apply andb_true_iff in Hnx as [Hk Hnx].
  destruct k as [| | | |k| | | |]; try discriminate. cbn [is_str_ok] in Hk.
  apply encode_members_cons in Henc as (jx & parts' & -> & Hjx & Hps).
  simpl in Hfuel. destruct fuel as [|fuel]; [lia|].
  destruct kvs as [|[k' y] kvs].
  - injection Hps as <-. simpl str_join.
    destruct (member_read_back fuel k x jx (String "}" rest) Hk Hx Hnx Hjx eq_refl
                ltac:(lia)) as (tail & -> & Hs & Hv).
    cbn [scan_members]. rewrite Ascii.eqb_refl. cbn [negb].
    rewrite Hs. cbn [skip_ws is_ws]. cbn [Ascii.eqb Bool.eqb negb]. cbv iota.
    rewrite Hv. reflexivity.
  - assert (exists k2, k' = PStr k2) as [k2 ->].
    { simpl in Hnl. apply andb_true_iff in Hnl as [Hny _].
      apply andb_true_iff in Hny as [Hk' _].
      destruct k'; try discriminate. eauto. }
    destruct (encode_members_cons _ _ _ _ Hps) as (jy & ps & -> & _ & _).
    rewrite str_join_cons, !str_app_assoc.
    change (", " +:+ ?s) with (String "," (String " " s)).
    destruct (member_read_back fuel k x jx
                (String "," (String " "
                   (str_join ", " (json_member k2 jy :: ps) +:+ String "}" rest)))
                Hk Hx Hnx Hjx eq_refl ltac:(lia)) as (tail & -> & Hs & Hv).
    cbn [scan_members]. rewrite Ascii.eqb_refl. cbn [negb].
    rewrite Hs. cbn [skip_ws is_ws]. cbn [Ascii.eqb Bool.eqb negb]. cbv iota.
    rewrite Hv. cbn [skip_ws is_ws]. cbn [Ascii.eqb Bool.eqb]. cbv iota.
    assert (skip_ws (str_join ", " (json_member k2 jy :: ps) +:+ String "}" rest)
            = str_join ", " (json_member k2 jy :: ps) +:+ String "}" rest) as ->.
    { unfold json_member, encode_basestring_ascii.
      destruct ps; simpl str_join; rewrite ?str_app_cons; reflexivity. }
    rewrite (IH HF ltac:(discriminate) Hnl _ rest fuel Hps) by (simpl in *; lia).
    reflexivity.
Qed.

(** Every JSON-native value is read back from its text. *)
Lemma json_encode_reads_back v : reads_back v.
Proof.
  induction v as [|b|z|r|s|l IH|l IH|kvs IH|o] using pyvalue_ind';
    intros j rest fuel Hnat Henc Hrest Hfuel;
    (destruct fuel as [|fuel]; [simpl in Hfuel; lia|]).
  - injection Henc as <-. reflexivity.
  - destruct b; injection Henc as <-; reflexivity.
  - cbn [json_encode] in Henc. destruct (int_too_long z) eqn:Hz; [discriminate|].
    injection Henc as <-. apply scan_once_parse_number.
    apply (parse_number_app _ rest _ "" Hrest), parse_number_int_repr, Hz.
  - cbn [json_encode] in Henc. destruct (float_text r); [|discriminate].
    injection Henc as <-. apply scan_once_float; assumption.
  - injection Henc as <-.
    destruct (scanstring_encoded s rest Hnat) as (tail & -> & Hs).
    cbn [scan_once]. rewrite Ascii.eqb_refl, Hs. reflexivity.
  - rewrite json_encode_list in Henc.
    destruct (encode_items l) as [parts|] eqn:Hparts; [|discriminate].
    injection Henc as <-. unfold json_array.
    rewrite !str_app_assoc. change ("[" +:+ ?s) with (String "[" s).
    change ("]" +:+ rest) with (String "]" rest).
    destruct l as [|x l].
    + injection Hparts as <-. reflexivity.
    + destruct (encode_items_cons _ _ _ Hparts) as (jx & ps & -> & Hjx & _).
      destruct (json_encode_head _ _ Hjx) as (c & t & -> & Hc).
      assert (exists t', str_join ", " (String c t :: ps) +:+ String "]" rest
                         = String c t') as [t' Ht'].
      { destruct ps; simpl str_join; rewrite ?str_app_cons; eauto. }
      rewrite cost_list in Hfuel.
      pose proof (items_read_back (x :: l) IH ltac:(discriminate) Hnat _ rest fuel
                    Hparts ltac:(lia)) as Hitems.
      rewrite Ht' in *. cbn [scan_once]. cbn [Ascii.eqb Bool.eqb dquote]. cbv iota.
      rewrite (skip_ws_value_start c t' Hc).
      destruct (value_start_facts c Hc) as (_ & -> & _).
      rewrite Hitems. reflexivity.
  - discriminate.
  - rewrite json_encode_dict in Henc.
    destruct (encode_members kvs) as [parts|] eqn:Hparts; [|discriminate].
    injection Henc as <-. unfold json_object.
    rewrite !str_app_assoc. change ("{" +:+ ?s) with (String "{" s).
    change ("}" +:+ rest) with (String "}" rest).
    simpl in Hnat. apply andb_true_iff in Hnat as [Hnat Hdist].
    destruct kvs as [|[k x] kvs].
    + injection Hparts as <-. reflexivity.
    + assert (exists k1, k = PStr k1) as [k1 ->].
      { cbn [forallb fst] in Hnat. apply andb_true_iff in Hnat as [Hk _].
        apply andb_true_iff in Hk as [Hk _]. destruct k; try discriminate. eauto. }
      destruct (encode_members_cons _ _ _ _ Hparts) as (jx & ps & -> & Hjx & _).
      assert (exists t', str_join ", " (json_member k1 jx :: ps) +:+ String "}" rest
                         = String dquote t') as [t' Ht'].
      { unfold json_member, encode_basestring_ascii.
        destruct ps; simpl str_join; rewrite ?str_app_cons; eauto. }
      rewrite cost_dict in Hfuel.
      pose proof (members_read_back ((PStr k1, x) :: kvs) IH ltac:(discriminate) Hnat _
                    rest fuel Hparts ltac:(lia)) as Hmembers.
      rewrite Ht' in *. cbn [scan_once]. cbn [Ascii.eqb Bool.eqb dquote]. cbv iota.
      cbn [skip_ws is_ws dquote]. cbn [Ascii.eqb Bool.eqb]. cbv iota.
      rewrite Hmembers, (dict_of_pairs_distinct _ Hdist). reflexivity.
  - discriminate.
Qed.

(** The allowance the decoder gives itself, the length of the text, is
    enough. *)
Lemma str_join_length_items l :
  Forall (fun x => forall j, json_encode x = Some j -> (cost x <= String.length j)%nat) l ->
  forall parts, encode_items l = Some parts ->
  (cost_items l <= S (String.length (str_join ", " parts)))%nat.
Proof.
  induction l as [|x l IH]; intros HF parts Henc; [simpl; lia|].
  apply Forall_cons in HF as [Hx HF].
  apply encode_items_cons in Henc as (jx & ps & -> & Hjx & Hps).
  specialize (IH HF ps Hps). specialize (Hx jx Hjx).
  destruct ps as [|p ps].
  - destruct l; [|apply encode_items_cons in Hps as (? & ? & [=] & _)].
    simpl. lia.
  - rewrite str_join_cons, !str_app_length. simpl in *. lia.
Qed.

Lemma str_join_length_members kvs :
  Forall (fun kv => forall j, json_encode (snd kv) = Some j ->
                              (cost (snd kv) <= String.length j)%nat) kvs ->
  forall parts, encode_members kvs = Some parts ->
  (cost_members kvs <= S (String.length (str_join ", " parts)))%nat.
Proof.
  induction kvs as [|[k x] kvs IH]; intros HF parts Henc; [simpl; lia|].
  apply Forall_cons in HF as [Hx HF]. simpl in Hx, Henc.
  destruct (json_key k) as [jk|]; [|discriminate].
  destruct (json_encode x) as [jx|] eqn:Hjx; [|discriminate].
  destruct (encode_members kvs) as [ps|] eqn:Hps; [|discriminate].
  injection Henc as <-.
  specialize (IH HF ps eq_refl). specialize (Hx jx eq_refl).
  assert (String.length jx <= String.length (json_member jk jx))%nat as Hm.
  { unfold json_member. rewrite !str_app_length. lia. }
  destruct ps as [|p ps].
  - destruct kvs as [|[k' y] kvs]; [cbn [cost_members str_join]; lia|].
    simpl in Hps. destruct (json_key k'), (json_encode y), (encode_members kvs);
      discriminate.
  - rewrite str_join_cons, !str_app_length. cbn [cost_members] in *.
    change (String.length ", ") with 2%nat. lia.
Qed.

Lemma cost_le_length v :
  forall j, json_encode v = Some j -> (cost v <= String.length j)%nat.
Proof.
  induction v as [|b|z|r|s|l IH|l IH|kvs IH|o] using pyvalue_ind'; intros j Henc.
  - injection Henc as <-. simpl. lia.
  - destruct b; injection Henc as <-; simpl; lia.
  - destruct (json_encode_head _ _ Henc) as (c & t & -> & _). simpl. lia.
  - destruct (json_encode_head _ _ Henc) as (c & t & -> & _). simpl. lia.
  - injection Henc as <-. simpl. lia.
  - rewrite json_encode_list in Henc.
    destruct (encode_items l) as [parts|] eqn:Hp; [|discriminate]. injection Henc as <-.
    rewrite cost_list. pose proof (str_join_length_items l IH parts Hp).
    unfold json_array. rewrite !str_app_length. simpl. lia.
  - rewrite json_encode_tuple in Henc.
    destruct (encode_items l) as [parts|] eqn:Hp; [|discriminate]. injection Henc as <-.
    change (cost (PTuple l)) with (cost (PList l)). rewrite cost_list.
    pose proof (str_join_length_items l IH parts Hp).
    unfold json_array. rewrite !str_app_length. simpl. lia.
  - rewrite json_encode_dict in Henc.
    destruct (encode_members kvs) as [parts|] eqn:Hp; [|discriminate]. injection Henc as <-.
    rewrite cost_dict. pose proof (str_join_length_members kvs IH parts Hp).
    unfold json_object. rewrite !str_app_length. simpl. lia.
  - discriminate.
Qed.

(** [json.loads(json.dumps(v)) == v] for every JSON-native [v]. *)
Lemma json_decode_encode v j :
  json_native v = true -> json_encode v = Some j -> json_decode j = Some v.
Proof.
  intros Hnat Henc. unfold json_decode.
  rewrite <- (str_app_nil_r j) at 2.
  rewrite (skip_ws_encoded v j "" Henc).
  rewrite (json_encode_reads_back v j "" _ Hnat Henc eq_refl).
  - reflexivity.
  - pose proof (cost_le_length v j Henc). lia.
Qed.

(* ===================================================================== *)
(** * Facts about the job runner *)
(* ===================================================================== *)







(** [async_target], spelled out: the outcome object is built when the unit
    of work returns or raises an [Exception]; then, under the test, the
    directory is made when missing and the document is written to the path
    of the job. Anything else the unit of work raises leaves the function,
    and so does what the test raises. *)
Lemma async_target_eq app job_id target w :
  async_target app job_id target w =
  let '(r, w1) := target w in
  if handled r then
    let data := outcome r in
    let fpath := job_path app job_id in
    match or_test (dict_get data "data") (dict_get data "error") with
    | Ok true =>
        let w1' :=
          if is_dir_in w1 (dirname fpath) then w1
          else set_fs (mkdir_all (ancestors (String.length (dirname fpath)) (dirname fpath)))
                      w1 in
        match json_dumps data with
        | Ok j => (Ok tt, set_fs <[fpath := File (Data j)]> w1')
        | Raise e => (Raise e, set_fs <[fpath := File Partial]> w1')
        end
    | Ok false => (Ok tt, w1)
    | Raise e => (Raise e, w1)
    end
  else
    match r with
    | Raise e => (Raise e, w1)
    | Ok _ => (Ok tt, w1)
    end.
Proof.
  unfold async_target, mbind at 1, M_bind at 1, bind at 1, try_except.
  unfold mbind at 1, M_bind at 1, bind at 1.
  destruct (target w) as [[x|e] w1]; cbn [handled].
  2: destruct (is_exception (exn_class_of e)); [|reflexivity].
  all: cbn [ret outcome]; cbv zeta; unfold of_result;
    (destruct (or_test _ _) as [[]|]; [|reflexivity..]);
    unfold mbind, M_bind, bind, isdir, is_dir_in; cbn [fst snd];
    match goal with |- context [fs ?w0 !! ?p] => destruct (fs w0 !! p) as [[|c]|] end;
    reflexivity.
Qed.


(* ===================================================================== *)
(** * Facts about rendering *)
(* ===================================================================== *)

Lemma json_error_list x l :
  json_error (PList (x :: l)) =
  match json_error x with Some e => Some e | None => json_error (PList l) end.
Proof. reflexivity. Qed.

Lemma json_error_tuple l : json_error (PTuple l) = json_error (PList l).
Proof. reflexivity. Qed.

Lemma json_error_dict k x kvs :
  json_error (PDict ((k, x) :: kvs)) =
  match key_error k with
  | Some e => Some e
  | None => match json_error x with Some e => Some e | None => json_error (PDict kvs) end
  end.
Proof. reflexivity. Qed.

(** What [json.dumps] raises is a [TypeError] or a [ValueError]. *)
Lemma json_error_class v e :
  json_error v = Some e ->
  exn_class_of e = TypeError \/ exn_class_of e = ValueError.
Proof.
  revert e. induction v as [|b|z|r|s|l IH|l IH|kvs IH|o] using pyvalue_ind';
    intros e; try discriminate.
  - cbn [json_error]. destruct (int_too_long z); [|discriminate]. intros [= <-]. auto.
  - induction IH as [|x l Hx _ IHl]; [discriminate|].
    rewrite json_error_list. destruct (json_error x); [intros [= <-]; auto|exact IHl].
  - rewrite json_error_tuple. induction IH as [|x l Hx _ IHl]; [discriminate|].
    rewrite json_error_list. destruct (json_error x); [intros [= <-]; auto|exact IHl].
  - induction IH as [|[k x] kvs Hx _ IHl]; [discriminate|].
    rewrite json_error_dict. cbn [snd] in Hx.
    destruct (key_error k) as [e'|] eqn:Hk.
    + intros [= <-]. destruct k; try discriminate; cbn [key_error] in Hk;
        try (injection Hk as <-; auto).
      destruct (int_too_long z); [injection Hk as <-; auto|discriminate].
    + destruct (json_error x); [intros [= <-]; auto|exact IHl].
  - intros [= <-]. auto.
Qed.

Lemma json_dumps_caught v e :
  json_dumps v = Raise e -> is_exception (exn_class_of e) = true.
Proof.
  unfold json_dumps. destruct (json_encode v); [discriminate|]. intros [= <-].
  destruct (json_error v) as [e|] eqn:E; [|reflexivity].
  destruct (json_error_class v e E) as [H|H]; simpl; rewrite H; reflexivity.
Qed.

Lemma json_dumps_encode v j : json_dumps v = Ok j <-> json_encode v = Some j.
Proof.
  unfold json_dumps. destruct (json_encode v); split; intros H; congruence.
Qed.

(** The response of a result, spelled out: the JSON text of the value, or
    its [repr] when [json.dumps] raises, as far as [repr] returns. *)
Lemma to_response_eq v s :
  to_response (mkApiResult v s) None =
  match json_encode v with
  | Some j => Ok (mkResponse j s "application/json")
  | None =>
      match py_repr v with
      | Ok t => Ok (mkResponse t s "application/json")
      | Raise e => Raise e
      end
  end.
Proof.
  unfold to_response, try_result, mbind, result_bind. cbn [value status].
  destruct (json_dumps v) as [j|e] eqn:E.
  - apply json_dumps_encode in E. rewrite E. reflexivity.
  - rewrite (json_dumps_caught v e E).
    unfold json_dumps in E. destruct (json_encode v); [discriminate|].
    destruct (py_repr v); reflexivity.
Qed.

(** With a serializer that returns [r], the response is rendered from [r];
    with one that raises, the exception leaves [to_response]. *)
Lemma to_response_with_serializer v s f :
  to_response (mkApiResult v s) (Some f) =
  match f v with
  | Ok r => to_response (mkApiResult r s) None
  | Raise e => Raise e
  end.
Proof.
  unfold to_response, mbind, result_bind. cbn [value status].
  destruct (f v) as [r|e]; reflexivity.
Qed.

(* ===================================================================== *)
(** * More facts about paths *)
(* ===================================================================== *)

Lemma ends_with_slash_app s t :
  t <> "" -> ends_with_slash (s +:+ t) = ends_with_slash t.
Proof.
  intros Ht. induction s as [|c s IH]; [reflexivity|].
  rewrite str_app_cons. simpl. rewrite IH.
  destruct (s +:+ t) eqn:E; [|reflexivity].
  exfalso. destruct s; [|discriminate]. apply Ht. exact E.
Qed.

Lemma all_slashes_ends s : s <> "" -> all_slashes s = true -> ends_with_slash s = true.
Proof.
  induction s as [|c s IH]; [congruence|]. intros _ H. simpl in H.
  apply andb_true_iff in H as [Hc Hs].
  destruct s as [|d s]; [exact Hc|]. apply IH; [discriminate|exact Hs].
Qed.

Lemma rstrip_slashes_id s : ends_with_slash s = false -> rstrip_slashes s = s.
Proof.
  induction s as [|c s IH]; [reflexivity|]. intros H.
  destruct s as [|d s].
  - simpl in *. rewrite H. reflexivity.
  - specialize (IH H). simpl rstrip_slashes in *. rewrite IH. reflexivity.
Qed.

Lemma no_slash_relative s : str_contains "/" s = false -> starts_with_slash s = false.
Proof.
  destruct s as [|c s]; [reflexivity|]. simpl. intros H.
  apply orb_false_iff in H as [H _]. apply Ascii.eqb_neq in H.
  destruct c as [[] [] [] [] [] [] [] []]; try reflexivity. congruence.
Qed.

(** A name without a slash, joined to a directory path: the directory and
    the name can be read back. *)
Lemma dirname_basename_join d u :
  d <> "" -> ends_with_slash d = false -> str_contains "/" u = false ->
  path_join d u = d +:+ "/" +:+ u
  /\ dirname (path_join d u) = d /\ basename (path_join d u) = u.
Proof.
  intros Hd He Hu.
  assert (path_join d u = d +:+ String "/" u) as Hj.
  { unfold path_join. rewrite (no_slash_relative u Hu), He.
    destruct (String.eqb_spec d ""); [contradiction|]. reflexivity. }
  rewrite Hj. split; [reflexivity|].
  unfold dirname, basename. rewrite (rsplit1_app "/" d u Hu).
  split; [|reflexivity].
  destruct (all_slashes d) eqn:Ha.
  - rewrite (all_slashes_ends d Hd Ha) in He. discriminate.
  - apply rstrip_slashes_id. exact He.
Qed.

Lemma path_join_tail a b :
  b <> "" -> ends_with_slash b = false ->
  path_join a b <> "" /\ ends_with_slash (path_join a b) = false.
Proof.
  intros Hb He. unfold path_join.
  destruct (starts_with_slash b || String.eqb a "")%bool; [auto|].
  destruct (ends_with_slash a).
  - split; [destruct a; [exact Hb|discriminate]|].
    rewrite ends_with_slash_app by exact Hb. exact He.
  - split; [destruct a; discriminate|].
    rewrite <- str_app_assoc, ends_with_slash_app by exact Hb. exact He.
Qed.

Lemma downloads_dir_shape app :
  downloads_dir app <> "" /\ ends_with_slash (downloads_dir app) = false.
Proof. apply path_join_tail; [discriminate|reflexivity]. Qed.

Lemma basename_no_slash p : str_contains "/" (basename p) = false.
Proof.
  unfold basename. destruct (rsplit1 "/" p) as [[a b]|] eqn:E.
  - apply rsplit1_Some in E as [_ H]. exact H.
  - apply rsplit1_None. exact E.
Qed.

(** A name without a slash is staged under a name without a slash. *)
Lemma unique_attachment_no_slash name u :
  str_contains "/" name = false ->
  str_contains "/" (unique_attachment name (uuid_hex u)) = false.
Proof.
  intros Hn. rewrite unique_attachment_eq.
  assert (str_contains "/" (uuid_hex u) = false) as Ht
    by (unfold uuid_hex; rewrite hex_fixed_contains; reflexivity).
  destruct (rsplit1 "." name) as [[b e]|] eqn:E.
  - apply rsplit1_Some in E as [-> _].
    rewrite str_contains_app in Hn. apply orb_false_iff in Hn as [Hb He].
    simpl in He. rewrite !str_contains_app, Hb, Ht. simpl. exact He.
  - rewrite !str_contains_app, Hn, Ht. reflexivity.
Qed.

(* ===================================================================== *)
(** * More facts about the construction of a file result *)
(* ===================================================================== *)

Lemma mkdir_all_other ps (m : gmap string node) p x :
  mkdir_all ps m !! p = Some x -> m !! p = Some x \/ x = Dir.
Proof.
  revert x. induction ps as [|q ps IH]; intros x; simpl; [auto|].
  destruct (mkdir_all ps m !! q) eqn:E; [apply IH|].
  destruct (decide (q = p)) as [->|Hne].
  - rewrite lookup_insert_eq. intros [= <-]. auto.
  - rewrite lookup_insert_ne by exact Hne. apply IH.
Qed.

Lemma mkdir_all_new ps (m : gmap string node) p x :
  mkdir_all ps m !! p = Some x -> m !! p = Some x \/ (x = Dir /\ p ∈ ps).
Proof.
  revert x. induction ps as [|q ps IH]; intros x; simpl; [auto|].
  destruct (mkdir_all ps m !! q) eqn:E.
  - intros H. destruct (IH _ H) as [?|[? ?]]; [auto|]. right. split; [auto|].
    apply elem_of_cons. auto.
  - destruct (decide (q = p)) as [->|Hne].
    + rewrite lookup_insert_eq. intros [= <-]. right. split; [auto|]. apply list_elem_of_here.
    + rewrite lookup_insert_ne by exact Hne. intros H.
      destruct (IH _ H) as [?|[? ?]]; [auto|]. right. split; [auto|].
      apply elem_of_cons. auto.
Qed.

Lemma mkdir_all_made ps (m : gmap string node) p :
  p ∈ ps -> exists x, mkdir_all ps m !! p = Some x.
Proof.
  induction ps as [|q ps IH]; intros Hin; [apply elem_of_nil in Hin; contradiction|].
  simpl. apply elem_of_cons in Hin as [->|Hin].
  - destruct (mkdir_all ps m !! q) eqn:E; [eauto|]. rewrite lookup_insert_eq. eauto.
  - destruct (IH Hin) as [x Hx]. destruct (mkdir_all ps m !! q) eqn:E; [eauto|].
    destruct (decide (q = p)) as [->|Hne]; [congruence|].
    rewrite lookup_insert_ne by exact Hne. eauto.
Qed.

Lemma rstrip_slashes_length s :
  (String.length (rstrip_slashes s) <= String.length s)%nat.
Proof.
  induction s as [|c s IH]; [reflexivity|]. cbn [rstrip_slashes].
  destruct (rstrip_slashes s); [destruct (Ascii.eqb c "/")|]; simpl in *; lia.
Qed.

Lemma dirname_length p : (String.length (dirname p) <= String.length p)%nat.
Proof.
  unfold dirname. destruct (rsplit1 "/" p) as [[h b]|] eqn:E; [|simpl; lia].
  apply rsplit1_Some in E as [-> _]. rewrite str_app_length. cbn [String.length].
  destruct (all_slashes h).
  - rewrite str_app_length. simpl. lia.
  - pose proof (rstrip_slashes_length h). lia.
Qed.

Lemma ancestors_length n p q :
  q ∈ ancestors n p -> (String.length q <= String.length p)%nat.
Proof.
  revert p. induction n as [|n IH]; intros p Hin; [apply elem_of_nil in Hin; contradiction|].
  cbn [ancestors] in Hin. destruct (String.eqb p "" || all_slashes p)%bool;
    [apply elem_of_nil in Hin; contradiction|].
  apply elem_of_cons in Hin as [->|Hin]; [lia|].
  apply IH in Hin. pose proof (dirname_length p). lia.
Qed.

(** The world in which the copy is made: what was there is there, what is
    new is a directory at the downloads directory or above it. *)
Lemma before_copy_keeps app w p x :
  fs w !! p = Some x -> fs (before_copy app w) !! p = Some x.
Proof.
  intros H. unfold before_copy. cbn [fs].
  destruct (is_dir_in w (downloads_dir app)); [exact H|]. apply mkdir_all_keeps, H.
Qed.

Lemma before_copy_new app w p x :
  fs (before_copy app w) !! p = Some x ->
  fs w !! p = Some x
  \/ (x = Dir /\ (String.length p <= String.length (downloads_dir app))%nat).
Proof.
  unfold before_copy. cbn [fs].
  destruct (is_dir_in w (downloads_dir app)); [auto|]. intros H.
  apply mkdir_all_new in H as [H|[-> H]]; [auto|]. right. split; [reflexivity|].
  apply ancestors_length in H. exact H.
Qed.

Lemma before_copy_longer app w p :
  (String.length (downloads_dir app) < String.length p)%nat ->
  fs (before_copy app w) !! p = fs w !! p.
Proof.
  intros Hlen. destruct (fs (before_copy app w) !! p) as [x|] eqn:E.
  - apply before_copy_new in E as [E|[_ E]]; [congruence|lia].
  - destruct (fs w !! p) as [x|] eqn:E'; [|reflexivity].
    apply (before_copy_keeps app) in E'. congruence.
Qed.

Lemma ancestors_head p :
  p <> "" -> all_slashes p = false ->
  exists rest, ancestors (String.length p) p = p :: rest.
Proof.
  intros Hp Ha. destruct p as [|c p]; [congruence|]. cbn [String.length ancestors].
  rewrite Ha. cbn [String.eqb orb]. eauto.
Qed.

Lemma ends_with_slash_all s : s <> "" -> ends_with_slash s = false -> all_slashes s = false.
Proof.
  intros Hs He. destruct (all_slashes s) eqn:Ha; [|reflexivity].
  rewrite (all_slashes_ends s Hs Ha) in He. discriminate.
Qed.

(** With no regular file standing where the downloads directory belongs,
    the directory is there when the copy is made. *)
Lemma before_copy_downloads app w :
  creatable (downloads_dir app) w = true ->
  fs (before_copy app w) !! downloads_dir app = Some Dir.
Proof.
  intros Hc. destruct (downloads_dir_shape app) as [Hne He].
  destruct (ancestors_head _ Hne (ends_with_slash_all _ Hne He)) as [rest Hrest].
  unfold creatable in Hc. rewrite Hrest in Hc. cbn [forallb] in Hc.
  apply andb_true_iff in Hc as [Hc _].
  unfold before_copy, is_dir_in. cbn [fs].
  destruct (fs w !! downloads_dir app) as [[|c]|] eqn:E; [exact E|discriminate|].
  rewrite Hrest.
  destruct (mkdir_all_made (downloads_dir app :: rest) (fs w) (downloads_dir app))
    as [x Hx]; [apply list_elem_of_here|].
  rewrite Hx. apply mkdir_all_new in Hx as [Hx|[-> _]]; [congruence|reflexivity].
Qed.

(** A construction on a regular file whose copy goes through. *)
Lemma ApiFileResult_init_ok app filepath name status w c :
  fs w !! filepath = Some (File c) ->
  let shown := display_name filepath name in
  let unique := unique_attachment shown (uuid_hex (next_uuid w)) in
  let tmp_file := path_join (downloads_dir app) unique in
  filepath <> tmp_file -> fs (before_copy app w) !! tmp_file <> Some Dir ->
  dirname tmp_file = "" \/ fs (before_copy app w) !! dirname tmp_file = Some Dir ->
  ApiFileResult_init app filepath name status w =
    (Ok (mkApiResult (descriptor app shown unique) (default 200%Z status)),
     mkWorld (<[tmp_file := File c]> (fs (before_copy app w))) (locked w) (clock w)
             (agenda w) (uuid_source w) (S (uuid_count w))
             (after_request w ++ [Cleanup tmp_file]) (trace w)).
Proof.
  intros Hf shown unique tmp_file Hne Hd Hp.
  rewrite (ApiFileResult_init_eq app filepath name status w c Hf).
  fold shown. fold unique. fold tmp_file.
  rewrite (copy2_ok filepath tmp_file (before_copy app w) c);
    [reflexivity|apply before_copy_keeps, Hf|assumption..].
Qed.

(** What a construction that returns has done. *)
Lemma ApiFileResult_init_inv app filepath name status w res w' :
  ApiFileResult_init app filepath name status w = (Ok res, w') ->
  let shown := display_name filepath name in
  let unique := unique_attachment shown (uuid_hex (next_uuid w)) in
  let tmp_file := path_join (downloads_dir app) unique in
  exists c,
    fs w !! filepath = Some (File c)
    /\ res = mkApiResult (descriptor app shown unique) (default 200%Z status)
    /\ w' = mkWorld (<[tmp_file := File c]> (fs (before_copy app w))) (locked w) (clock w)
                    (agenda w) (uuid_source w) (S (uuid_count w))
                    (after_request w ++ [Cleanup tmp_file]) (trace w).
Proof.
  intros H shown unique tmp_file.
  destruct (fs w !! filepath) as [[|c]|] eqn:Hf.
  1,3: unfold ApiFileResult_init, mbind, M_bind, bind, isfile in H;
       rewrite Hf in H; discriminate.
  exists c. split; [reflexivity|].
  rewrite (ApiFileResult_init_eq app filepath name status w c Hf) in H.
  fold shown in H. fold unique in H. fold tmp_file in H.
  destruct (copy2_cases filepath tmp_file (before_copy app w))
    as [(c' & Hc' & _ & _ & _ & E)|(e & E)]; rewrite E in H; [|discriminate].
  apply (before_copy_keeps app) in Hf. assert (c' = c) as -> by congruence.
  injection H as <- <-. split; reflexivity.
Qed.

(** A construction that raises has at most made directories. *)
Lemma ApiFileResult_init_raise app filepath name status w e w' :
  ApiFileResult_init app filepath name status w = (Raise e, w') ->
  w' = w \/ w' = before_copy app w.
Proof.
  intros H. destruct (fs w !! filepath) as [[|c]|] eqn:Hf.
  1,3: unfold ApiFileResult_init, mbind, M_bind, bind, isfile in H;
       rewrite Hf in H; injection H as _ <-; auto.
  rewrite (ApiFileResult_init_eq app filepath name status w c Hf) in H. cbv zeta in H.
  match type of H with context [copy2 ?a ?b ?w0] =>
    destruct (copy2_cases a b w0) as [(c' & _ & _ & _ & _ & E)|(e' & E)]; rewrite E in H
  end; [discriminate|]. injection H as _ <-. auto.
Qed.

(** A name without a slash is staged right inside the downloads
    directory. *)
Lemma staged_inside app name u :
  str_contains "/" name = false ->
  let tmp_file := path_join (downloads_dir app) (unique_attachment name (uuid_hex u)) in
  dirname tmp_file = downloads_dir app
  /\ (String.length (downloads_dir app) < String.length tmp_file)%nat.
Proof.
  intros Hn tmp_file. destruct (downloads_dir_shape app) as [Hne He].
  destruct (dirname_basename_join (downloads_dir app)
              (unique_attachment name (uuid_hex u)) Hne He
              (unique_attachment_no_slash name u Hn)) as (Hj & Hd & _).
  split; [exact Hd|]. unfold tmp_file. rewrite Hj, !str_app_length. simpl. lia.
Qed.

(** A construction on a regular file under a name without a slash, with
    nothing in the way: it returns, and the copy is at the staged path. *)
Lemma ApiFileResult_init_inside app filepath name status w c :
  fs w !! filepath = Some (File c) ->
  let shown := display_name filepath name in
  let unique := unique_attachment shown (uuid_hex (next_uuid w)) in
  let tmp_file := path_join (downloads_dir app) unique in
  str_contains "/" shown = false -> creatable (downloads_dir app) w = true ->
  fs w !! tmp_file = None ->
  ApiFileResult_init app filepath name status w =
    (Ok (mkApiResult (descriptor app shown unique) (default 200%Z status)),
     mkWorld (<[tmp_file := File c]> (fs (before_copy app w))) (locked w) (clock w)
             (agenda w) (uuid_source w) (S (uuid_count w))
             (after_request w ++ [Cleanup tmp_file]) (trace w)).
Proof.
  intros Hf shown unique tmp_file Hn Hc Hfree.
  destruct (staged_inside app shown (next_uuid w) Hn) as [Hd Hlen].
  fold unique in Hd, Hlen. fold tmp_file in Hd, Hlen.
  apply ApiFileResult_init_ok; fold shown; fold unique; fold tmp_file.
  - exact Hf.
  - intros E. rewrite E in Hf. congruence.
  - rewrite (before_copy_longer app w tmp_file Hlen), Hfree. discriminate.
  - right. rewrite Hd. apply before_copy_downloads, Hc.
Qed.

(* ===================================================================== *)
(** * More facts about time and the environment *)
(* ===================================================================== *)

Lemma Forall_filter_sub {A} (P Q : A -> Prop) `{forall x, Decision (P x)} (l : list A) :
  Forall Q l -> Forall Q (filter P l).
Proof.
  rewrite !Forall_forall. intros H0 x Hx. apply list_elem_of_filter in Hx as [_ Hx]. auto.
Qed.

Lemma run_events_frame due w :
  clock (run_events due w) = clock w
  /\ agenda (run_events due w) = agenda w
  /\ uuid_source (run_events due w) = uuid_source w
  /\ uuid_count (run_events due w) = uuid_count w
  /\ after_request (run_events due w) = after_request w
  /\ trace (run_events due w) = trace w.
Proof.
  revert w. induction due as [|[t ev] due IH]; intros w; [repeat split|].
  unfold run_events in *. simpl.
  destruct (IH (apply_env ev w)) as (-> & -> & -> & -> & -> & ->).
  destruct ev; repeat split.
Qed.

(** The environment only ever deletes. *)
Lemma run_events_lookup due w p x :
  fs (run_events due w) !! p = Some x -> fs w !! p = Some x.
Proof.
  revert w. induction due as [|[t ev] due IH]; intros w; [auto|].
  unfold run_events in *. simpl. intros H. apply IH in H.
  destruct ev as [q|q|q]; simpl in H; try exact H.
  destruct (decide (q = p)) as [->|Hne].
  - rewrite lookup_delete_eq in H. discriminate.
  - rewrite lookup_delete_ne in H by exact Hne. exact H.
Qed.

(** Events about other paths leave the entry and the lock of [p] alone. *)
Lemma run_events_other due w p :
  Forall (fun e => event_path (snd e) <> p) due ->
  fs (run_events due w) !! p = fs w !! p
  /\ (p ∈ locked (run_events due w) <-> p ∈ locked w).
Proof.
  revert w. induction due as [|[t ev] due IH]; intros w HF; [tauto|].
  apply Forall_cons in HF as [Hev HF]. unfold run_events in *. simpl.
  destruct (IH (apply_env ev w) HF) as [-> ->].
  destruct ev as [q|q|q]; simpl in Hev |- *.
  - rewrite lookup_delete_ne by exact Hev. tauto.
  - split; [reflexivity|]. rewrite elem_of_union, elem_of_singleton. intuition congruence.
  - split; [reflexivity|]. rewrite elem_of_difference, elem_of_singleton.
    intuition congruence.
Qed.

(** A deletion of [p] among the events leaves no entry at [p]. *)
Lemma run_events_removed due w p t :
  (t, ExtRemove p) ∈ due -> fs (run_events due w) !! p = None.
Proof.
  revert w. induction due as [|[t' ev] due IH]; intros w Hin.
  - apply elem_of_nil in Hin. contradiction.
  - apply elem_of_cons in Hin as [[= <- <-]|Hin].
    + unfold run_events. simpl.
      destruct (fs (foldl (fun w e => apply_env e.2 w) (set_fs (delete p) w) due) !! p)
        eqn:E; [|reflexivity].
      apply (run_events_lookup due) in E. simpl in E.
      rewrite lookup_delete_eq in E. discriminate.
    + unfold run_events in *. simpl. apply IH. exact Hin.
Qed.

(** [time.sleep], spelled out. *)
Lemma sleep_eq n w :
  sleep n w =
  (Ok tt,
   run_events (filter (fun e => (e.1 <= clock w + n)%nat) (agenda w))
     (mkWorld (fs w) (locked w) (clock w + n)
              (filter (fun e => ¬ (e.1 <= clock w + n)%nat) (agenda w))
              (uuid_source w) (uuid_count w) (after_request w) (EvSleep n :: trace w))).
Proof. reflexivity. Qed.

Lemma sleep_facts n w :
  exists w',
    sleep n w = (Ok tt, w')
    /\ clock w' = (clock w + n)%nat
    /\ trace w' = EvSleep n :: trace w
    /\ agenda w' = filter (fun e => ¬ (e.1 <= clock w + n)%nat) (agenda w)
    /\ uuid_count w' = uuid_count w /\ after_request w' = after_request w
    /\ (forall p x, fs w' !! p = Some x -> fs w !! p = Some x)
    /\ (forall p, undisturbed p w ->
          fs w' !! p = fs w !! p /\ (p ∈ locked w' <-> p ∈ locked w)
          /\ undisturbed p w')
    /\ (forall p t, (t, ExtRemove p) ∈ agenda w -> (t <= clock w + n)%nat ->
          fs w' !! p = None).
Proof.
  eexists. split; [apply sleep_eq|].
  match goal with |- context [run_events ?d ?w0] =>
    destruct (run_events_frame d w0) as (Hc & Ha & _ & Hu & Hr & Ht) end.
  rewrite Hc, Ht, Ha, Hu, Hr. cbn [clock trace agenda uuid_count after_request].
  repeat split.
  - intros p x H. apply run_events_lookup in H. exact H.
  - edestruct (run_events_other) as [-> _]; [|reflexivity].
    apply Forall_filter_sub. exact H.
  - edestruct (run_events_other) as [_ ->]; [|simpl; tauto].
    apply Forall_filter_sub. exact H.
  - edestruct (run_events_other) as [_ ->]; [|simpl; tauto].
    apply Forall_filter_sub. exact H.
  - unfold undisturbed. rewrite Ha. cbn [agenda]. apply Forall_filter_sub. exact H.
  - intros p t Hin Hdue. apply (run_events_removed _ _ p t).
    apply list_elem_of_filter. split; [exact Hdue|exact Hin].
Qed.

(* ===================================================================== *)
(** * More facts about the cleanup *)
(* ===================================================================== *)

(** The four ways a call of [os.remove] can go. *)
Lemma remove_cases p w :
  (fs w !! p = None
   /\ remove p w = (Raise (Exn FileNotFoundError p ""), log (EvRemove p) w))
  \/ (fs w !! p = Some Dir
      /\ remove p w = (Raise (Exn IsADirectoryError p ""), log (EvRemove p) w))
  \/ (exists c, fs w !! p = Some (File c) /\ p ∈ locked w
      /\ remove p w = (Raise (Exn PermissionError p ""), log (EvRemove p) w))
  \/ (exists c, fs w !! p = Some (File c) /\ (p ∉ locked w)
      /\ remove p w = (Ok tt, set_fs (delete p) (log (EvRemove p) w))).
Proof.
  unfold remove. cbv zeta. cbn [fs log locked].
  destruct (fs w !! p) as [[|c]|]; [right; left; auto| |left; auto].
  destruct (decide (p ∈ locked w)); right; right; [left|right]; eauto.
Qed.

Lemma leaves_alone_refl tmp w : leaves_alone tmp w w.
Proof. unfold leaves_alone. repeat split; auto. Qed.

Lemma leaves_alone_trans tmp w1 w2 w3 :
  leaves_alone tmp w1 w2 -> leaves_alone tmp w2 w3 -> leaves_alone tmp w1 w3.
Proof.
  intros (Hu1 & Ha1 & Hk1 & Ho1) (Hu2 & Ha2 & Hk2 & Ho2).
  split; [congruence|]. split; [congruence|]. split; [auto|].
  intros q Hq Hund. destruct (Ho1 q Hq Hund) as (E1 & L1 & U1).
  destruct (Ho2 q Hq U1) as (E2 & L2 & U2).
  split; [congruence|]. split; [tauto|exact U2].
Qed.

Lemma sleep_leaves_alone tmp n w : leaves_alone tmp w (snd (sleep n w)).
Proof.
  destruct (sleep_facts n w) as (w' & -> & _ & _ & _ & Hu & Ha & Hk & Ho & _).
  cbn [snd]. split; [exact Hu|]. split; [exact Ha|]. split; [exact Hk|].
  intros q _ Hq. apply Ho. exact Hq.
Qed.

Lemma remove_leaves_alone p w : leaves_alone p w (snd (remove p w)).
Proof.
  destruct (remove_cases p w) as [[_ ->]|[[_ ->]|[(c & _ & _ & ->)|(c & _ & _ & ->)]]];
    cbn [snd]; unfold leaves_alone, undisturbed;
    cbn [fs log set_fs uuid_count after_request locked agenda];
    (split; [reflexivity|]); (split; [reflexivity|]); try (split; [auto|tauto]).
  split.
  - intros q x H. destruct (decide (p = q)) as [->|Hne].
    + rewrite lookup_delete_eq in H. discriminate.
    + rewrite lookup_delete_ne in H by exact Hne. exact H.
  - intros q Hq Hund. rewrite lookup_delete_ne by congruence. tauto.
Qed.

Lemma spent_refl w : spent 0 0 w w.
Proof. unfold spent. lia. Qed.

Lemma spent_trans a b c d w1 w2 w3 :
  spent a b w1 w2 -> spent c d w2 w3 -> spent (a + c) (b + d) w1 w3.
Proof. unfold spent. lia. Qed.

Lemma sleep_spent n w : spent 0 n w (snd (sleep n w)).
Proof.
  destruct (sleep_facts n w) as (w' & -> & Hc & Ht & _).
  cbn [snd]. unfold spent, remove_calls, seconds_slept. rewrite Ht, Hc. simpl. lia.
Qed.

Lemma remove_spent p w : spent 1 0 w (snd (remove p w)).
Proof.
  destruct (remove_cases p w) as [[_ ->]|[[_ ->]|[(c & _ & _ & ->)|(c & _ & _ & ->)]]];
    cbn [snd]; unfold spent, remove_calls, seconds_slept; simpl; lia.
Qed.

(** A run of the cleanup, whatever the environment does: it ends normally;
    each call of [os.remove] comes after a sleep of the retention window
    and is followed by at most one sleep of 2 seconds. *)
Lemma cleanup_tempfile_from_run fuel tmp tries w :
  exists w' removes seconds,
    cleanup_tempfile_from fuel tmp tries w = (Ok tt, w')
    /\ leaves_alone tmp w w' /\ spent removes seconds w w'
    /\ (removes <= fuel)%nat
    /\ (KEEP_FILE_FOR_SECONDS * removes <= seconds)%nat
    /\ (seconds <= (KEEP_FILE_FOR_SECONDS + 2) * removes)%nat.
Proof.
  revert tries w. induction fuel as [|fuel IH]; intros tries w.
  { exists w, 0%nat, 0%nat. split; [reflexivity|].
    split; [apply leaves_alone_refl|]. split; [apply spent_refl|]. lia. }
  rewrite cleanup_tempfile_from_S.
  destruct (is_regular_file w tmp) eqn:Hf.
  2: { exists w, 0%nat, 0%nat. split; [reflexivity|].
       split; [apply leaves_alone_refl|]. split; [apply spent_refl|]. lia. }
  cbv zeta.
  pose proof (sleep_leaves_alone tmp KEEP_FILE_FOR_SECONDS w) as L1.
  pose proof (sleep_spent KEEP_FILE_FOR_SECONDS w) as S1.
  set (w1 := snd (sleep KEEP_FILE_FOR_SECONDS w)) in *.
  pose proof (remove_leaves_alone tmp w1) as L2.
  pose proof (remove_spent tmp w1) as S2.
  assert (forall w2, leaves_alone tmp w1 w2 -> spent 1 0 w1 w2 ->
          exists w' removes seconds,
            (if (tries <? MAX_CLEANUP_TRIES)%nat
             then cleanup_tempfile_from fuel tmp (tries + 1) (snd (sleep 2 w2))
             else (Ok tt, snd (sleep 2 w2))) = (Ok tt, w')
            /\ leaves_alone tmp w w' /\ spent removes seconds w w'
            /\ (removes <= S fuel)%nat
            /\ (KEEP_FILE_FOR_SECONDS * removes <= seconds)%nat
            /\ (seconds <= (KEEP_FILE_FOR_SECONDS + 2) * removes)%nat) as Hretry.
  { intros w2 L2' S2'.
    pose proof (sleep_leaves_alone tmp 2 w2) as L3.
    pose proof (sleep_spent 2 w2) as S3.
    set (w3 := snd (sleep 2 w2)) in *.
    assert (leaves_alone tmp w w3) as L
      by (eapply leaves_alone_trans; [eapply leaves_alone_trans|]; eassumption).
    pose proof (spent_trans _ _ _ _ _ _ _ (spent_trans _ _ _ _ _ _ _ S1 S2') S3) as S.
    destruct (tries <? MAX_CLEANUP_TRIES)%nat.
    - destruct (IH (tries + 1)%nat w3) as (w' & r & s & E & L4 & S4 & Hr & Hlo & Hhi).
      exists w', (0 + 1 + 0 + r)%nat, (KEEP_FILE_FOR_SECONDS + 0 + 2 + s)%nat.
      split; [exact E|]. split; [eapply leaves_alone_trans; eassumption|].
      split; [eapply spent_trans; eassumption|].
      unfold KEEP_FILE_FOR_SECONDS in *. lia.
    - exists w3, (0 + 1 + 0)%nat, (KEEP_FILE_FOR_SECONDS + 0 + 2)%nat.
      split; [reflexivity|]. split; [exact L|]. split; [exact S|].
      unfold KEEP_FILE_FOR_SECONDS in *. lia. }
  destruct (remove_cases tmp w1) as [[_ E]|[[Hd E]|[(c & _ & _ & E)|(c & _ & _ & E)]]];
    rewrite E in *; cbn [snd] in *.
  - apply Hretry; assumption.
  - exfalso. destruct L1 as (_ & _ & Hk & _). apply Hk in Hd.
    unfold is_regular_file in Hf. rewrite Hd in Hf. discriminate.
  - apply Hretry; assumption.
  - eexists _, (0 + 1)%nat, (KEEP_FILE_FOR_SECONDS + 0)%nat.
    split; [reflexivity|]. split; [eapply leaves_alone_trans; eassumption|].
    split; [eapply spent_trans; eassumption|].
    unfold KEEP_FILE_FOR_SECONDS in *. lia.
Qed.

Lemma sleep_undisturbed n w p :
  undisturbed p w ->
  fs (snd (sleep n w)) !! p = fs w !! p
  /\ (p ∈ locked (snd (sleep n w)) <-> p ∈ locked w)
  /\ undisturbed p (snd (sleep n w)).
Proof.
  destruct (sleep_facts n w) as (w' & -> & _ & _ & _ & _ & _ & _ & Ho & _).
  exact (Ho p).
Qed.

Lemma sleep_clock n w : clock (snd (sleep n w)) = (clock w + n)%nat.
Proof. destruct (sleep_spent n w) as (_ & _ & H). exact H. Qed.

Lemma regular_file_entry w p :
  is_regular_file w p = true -> exists c, fs w !! p = Some (File c).
Proof.
  unfold is_regular_file. destruct (fs w !! p) as [[|c]|]; try discriminate. eauto.
Qed.

(** A staged file that is there, is not locked and that nobody else works
    on: one sleep of the retention window, one call of [os.remove]. *)
Lemma cleanup_tempfile_from_quiet fuel tmp tries w :
  is_regular_file w tmp = true -> tmp ∉ locked w -> undisturbed tmp w ->
  cleanup_tempfile_from (S fuel) tmp tries w
  = (Ok tt, set_fs (delete tmp) (log (EvRemove tmp) (snd (sleep KEEP_FILE_FOR_SECONDS w)))).
Proof.
  intros Hf Hl Hu. rewrite cleanup_tempfile_from_S, Hf. cbv zeta.
  destruct (regular_file_entry w tmp Hf) as [c Hc].
  destruct (sleep_undisturbed KEEP_FILE_FOR_SECONDS w tmp Hu) as (E1 & K1 & _).
  set (w1 := snd (sleep KEEP_FILE_FOR_SECONDS w)) in *.
  rewrite Hc in E1.
  destruct (remove_cases tmp w1) as [[H _]|[[H _]|[(c' & _ & H & _)|(c' & _ & _ & ->)]]];
    [congruence|congruence|tauto|reflexivity].
Qed.

(** A staged file that somebody else deletes during the retention window:
    the one call of [os.remove] fails, and after the sleep of 2 seconds
    the next call of the function finds no file and returns. *)
Lemma cleanup_tempfile_from_deleted fuel tmp tries w t :
  is_regular_file w tmp = true ->
  (t, ExtRemove tmp) ∈ agenda w -> (t <= clock w + KEEP_FILE_FOR_SECONDS)%nat ->
  cleanup_tempfile_from (S fuel) tmp tries w
  = (Ok tt, snd (sleep 2 (log (EvRemove tmp) (snd (sleep KEEP_FILE_FOR_SECONDS w))))).
Proof.
  intros Hf Hin Hdue. rewrite cleanup_tempfile_from_S, Hf. cbv zeta.
  assert (fs (snd (sleep KEEP_FILE_FOR_SECONDS w)) !! tmp = None) as E1.
  { destruct (sleep_facts KEEP_FILE_FOR_SECONDS w) as (w' & -> & H).
    cbn [snd]. apply H with t; assumption. }
  set (w1 := snd (sleep KEEP_FILE_FOR_SECONDS w)) in *.
  destruct (remove_cases tmp w1) as [[_ ->]|[[H _]|[(c' & H & _)|(c' & H & _)]]];
    [|congruence..].
  cbn [exn_class_of perm_or_not_found].
  pose proof (sleep_leaves_alone tmp 2 (log (EvRemove tmp) w1)) as (_ & _ & Hk & _).
  set (w3 := snd (sleep 2 (log (EvRemove tmp) w1))) in *.
  assert (is_regular_file w3 tmp = false) as Hf3.
  { unfold is_regular_file. destruct (fs w3 !! tmp) as [x|] eqn:E3; [|reflexivity].
    apply Hk in E3. cbn [fs log] in E3. congruence. }
  destruct (tries <? MAX_CLEANUP_TRIES)%nat; [|reflexivity].
  destruct fuel as [|fuel]; [reflexivity|].
  rewrite cleanup_tempfile_from_S, Hf3. reflexivity.
Qed.

(** A staged file that stays locked: every call of [os.remove] fails, and
    the function calls itself until [tries] has reached
    [MAX_CLEANUP_TRIES]. *)
Lemma cleanup_tempfile_from_locked n tmp tries w :
  (tries + n = MAX_CLEANUP_TRIES)%nat ->
  is_regular_file w tmp = true -> tmp ∈ locked w -> undisturbed tmp w ->
  exists w',
    cleanup_tempfile_from (S n) tmp tries w = (Ok tt, w')
    /\ spent (S n) ((KEEP_FILE_FOR_SECONDS + 2) * S n) w w'
    /\ fs w' !! tmp = fs w !! tmp /\ tmp ∈ locked w'.
Proof.
  revert tries w. induction n as [|n IH]; intros tries w Hn Hf Hl Hu.
  all: rewrite cleanup_tempfile_from_S, Hf; cbv zeta.
  all: destruct (regular_file_entry w tmp Hf) as [c Hc].
  all: destruct (sleep_undisturbed KEEP_FILE_FOR_SECONDS w tmp Hu) as (E1 & K1 & U1).
  all: pose proof (sleep_spent KEEP_FILE_FOR_SECONDS w) as S1.
  all: set (w1 := snd (sleep KEEP_FILE_FOR_SECONDS w)) in *.
  all: pose proof (remove_spent tmp w1) as S2.
  all: destruct (remove_cases tmp w1) as [[H _]|[[H _]|[(c' & _ & _ & E)|(c' & _ & H & _)]]];
    [congruence|congruence| |tauto].
  all: rewrite E in *; cbn [snd exn_class_of perm_or_not_found] in *.
  all: destruct (sleep_undisturbed 2 (log (EvRemove tmp) w1) tmp U1) as (E3 & K3 & U3).
  all: pose proof (sleep_spent 2 (log (EvRemove tmp) w1)) as S3.
  all: set (w3 := snd (sleep 2 (log (EvRemove tmp) w1))) in *.
  all: cbn [fs locked log] in E3, K3.
  - assert ((tries <? MAX_CLEANUP_TRIES)%nat = false) as -> by (apply Nat.ltb_ge; lia).
    exists w3. split; [reflexivity|]. split; [|split; [congruence|tauto]].
    unfold spent, KEEP_FILE_FOR_SECONDS in *. lia.
  - assert ((tries <? MAX_CLEANUP_TRIES)%nat = true) as -> by (apply Nat.ltb_lt; lia).
    destruct (IH (tries + 1)%nat w3) as (w' & E' & S' & F' & L'); [lia| |tauto|exact U3|].
    { unfold is_regular_file. rewrite E3, E1, Hc. reflexivity. }
    exists w'. split; [exact E'|]. split; [|split; [congruence|exact L']].
    unfold spent, KEEP_FILE_FOR_SECONDS in *. lia.
Qed.

(** Events that, as far as [p] goes, only release its lock: the entry of
    [p] stays, a released lock stays released, and a release among the
    events leaves [p] without a lock. *)
Lemma run_events_only_unlocks due w p :
  Forall (fun e => event_path (snd e) = p -> snd e = ExtUnlock p) due ->
  fs (run_events due w) !! p = fs w !! p
  /\ (p ∉ locked w -> p ∉ locked (run_events due w))
  /\ (forall t, (t, ExtUnlock p) ∈ due -> p ∉ locked (run_events due w)).
Proof.
  revert w. induction due as [|[t' ev] due IH]; intros w HF.
  { split; [reflexivity|]. split; [auto|]. intros t Hin.
    apply elem_of_nil in Hin. contradiction. }
  apply Forall_cons in HF as [Hev HF]. cbn [snd] in Hev.
  destruct (IH (apply_env ev w) HF) as (Hfs & Hkeep & Hrel).
  change (run_events ((t', ev) :: due) w) with (run_events due (apply_env ev w)).
  assert (fs (apply_env ev w) !! p = fs w !! p) as Efs.
  { destruct ev as [q|q|q]; cbn [apply_env fs set_fs]; try reflexivity.
    destruct (decide (q = p)) as [->|Hne].
    - specialize (Hev eq_refl). discriminate.
    - apply lookup_delete_ne. exact Hne. }
  assert (p ∉ locked w -> p ∉ locked (apply_env ev w)) as Elk.
  { intros Hl. destruct ev as [q|q|q]; cbn [apply_env locked set_fs]; try exact Hl.
    - rewrite elem_of_union, elem_of_singleton. intros [->|H]; [|tauto].
      specialize (Hev eq_refl). discriminate.
    - rewrite elem_of_difference. tauto. }
  split; [congruence|]. split; [auto|].
  intros t Hin. apply elem_of_cons in Hin as [[= <- <-]|Hin]; [|eauto].
  apply Hkeep. cbn [apply_env locked].
  rewrite elem_of_difference, elem_of_singleton. tauto.
Qed.

Lemma sleep_only_unlocks n w p :
  only_unlocks p w ->
  fs (snd (sleep n w)) !! p = fs w !! p
  /\ only_unlocks p (snd (sleep n w))
  /\ (p ∉ locked w -> p ∉ locked (snd (sleep n w)))
  /\ (forall t, (t, ExtUnlock p) ∈ agenda w ->
        ((t <= clock w + n)%nat -> p ∉ locked (snd (sleep n w)))
        /\ (¬ (t <= clock w + n)%nat -> (t, ExtUnlock p) ∈ agenda (snd (sleep n w)))).
Proof.
  intros Hu. rewrite sleep_eq. cbn [snd].
  match goal with |- context [run_events ?d ?w0] =>
    destruct (run_events_frame d w0) as (_ & Ha & _);
    destruct (run_events_only_unlocks d w0 p) as (Hfs & Hkeep & Hrel);
    [apply Forall_filter_sub; exact Hu|] end.
  cbn [fs locked agenda] in *.
  split; [exact Hfs|]. split; [|split; [exact Hkeep|]].
  - unfold only_unlocks. rewrite Ha. apply Forall_filter_sub. exact Hu.
  - intros t Hin. split; intros Ht.
    + apply (Hrel t). apply list_elem_of_filter. split; [exact Ht|exact Hin].
    + rewrite Ha. apply list_elem_of_filter. split; [exact Ht|exact Hin].
Qed.

(** A staged file whose lock is released before the last call of
    [os.remove] is removed. *)
Lemma cleanup_tempfile_from_unlocked n tmp tries w :
  (tries + n = MAX_CLEANUP_TRIES)%nat ->
  is_regular_file w tmp = true -> only_unlocks tmp w ->
  (tmp ∉ locked w
   \/ exists t, (t, ExtUnlock tmp) ∈ agenda w
        /\ (t <= clock w + (KEEP_FILE_FOR_SECONDS + 2) * n + KEEP_FILE_FOR_SECONDS)%nat) ->
  exists w',
    cleanup_tempfile_from (S n) tmp tries w = (Ok tt, w') /\ fs w' !! tmp = None.
Proof.
  revert tries w. induction n as [|n IH]; intros tries w Hn Hf Hu Hrel.
  all: rewrite cleanup_tempfile_from_S, Hf; cbv zeta.
  all: destruct (regular_file_entry w tmp Hf) as [c Hc].
  all: destruct (sleep_only_unlocks KEEP_FILE_FOR_SECONDS w tmp Hu) as (E1 & U1 & K1 & R1).
  all: pose proof (sleep_clock KEEP_FILE_FOR_SECONDS w) as C1.
  all: set (w1 := snd (sleep KEEP_FILE_FOR_SECONDS w)) in *.
  all: destruct (remove_cases tmp w1) as [[H _]|[[H _]|[(c' & _ & L1 & E)|(c' & _ & _ & E)]]];
    [congruence|congruence| |rewrite E; eexists; split; [reflexivity|];
                              cbn [fs set_fs log]; apply lookup_delete_eq].
  all: destruct Hrel as [Hfree|(t & Hin & Ht)]; [tauto|].
  all: destruct (R1 t Hin) as [Rnow Rlater].
  all: destruct (decide (t <= clock w + KEEP_FILE_FOR_SECONDS)%nat) as [Hd|Hd]; [tauto|].
  - exfalso. lia.
  - rewrite E. cbn [exn_class_of perm_or_not_found].
    assert ((tries <? MAX_CLEANUP_TRIES)%nat = true) as -> by (apply Nat.ltb_lt; lia).
    assert (only_unlocks tmp (log (EvRemove tmp) w1)) as U2 by exact U1.
    destruct (sleep_only_unlocks 2 (log (EvRemove tmp) w1) tmp U2) as (E3 & U3 & K3 & R3).
    pose proof (sleep_clock 2 (log (EvRemove tmp) w1)) as C3.
    set (w3 := snd (sleep 2 (log (EvRemove tmp) w1))) in *.
    cbn [fs locked log clock agenda] in E3, K3, R3, C3.
    apply IH; [lia| |exact U3|].
    + unfold is_regular_file. rewrite E3, E1, Hc. reflexivity.
    + destruct (R3 t (Rlater Hd)) as [Rnow3 Rlater3].
      destruct (decide (t <= clock w1 + 2)%nat) as [Hd3|Hd3]; [left; tauto|].
      right. exists t. split; [tauto|]. unfold KEEP_FILE_FOR_SECONDS in *. lia.
Qed.

(* ===================================================================== *)
(** * More facts about the uuid text and the path of a job *)
(* ===================================================================== *)

Lemma hex_fixed_app w n acc : hex_fixed w n acc = hex_fixed w n "" +:+ acc.
Proof.
  revert n acc. induction w as [|w IH]; intros n acc; [reflexivity|].
  cbn [hex_fixed]. rewrite IH, (IH _ (String _ "")), str_app_assoc. reflexivity.
Qed.

(** Numbers below [16^w] are told apart by their [w] digits. *)
Lemma hex_fixed_inj w a b :
  (a < 16 ^ N.of_nat w)%N -> (b < 16 ^ N.of_nat w)%N ->
  hex_fixed w a "" = hex_fixed w b "" -> a = b.
Proof.
  revert a b. induction w as [|w IH]; intros a b Ha Hb H.
  { change (16 ^ N.of_nat 0)%N with 1%N in *. lia. }
  rewrite Nat2N.inj_succ, N.pow_succ_r' in Ha, Hb.
  cbn [hex_fixed] in H. rewrite (hex_fixed_app w (a / 16)), (hex_fixed_app w (b / 16)) in H.
  apply str_app_inj_tail in H as [Hhi Hlo]; [|reflexivity].
  apply IH in Hhi; [|apply N.Div0.div_lt_upper_bound; lia..].
  assert (Some (a mod 16)%N = Some (b mod 16)%N) as Hd.
  { rewrite <- !hex_val_digit by (apply N.mod_lt; lia). congruence. }
  injection Hd as Hd.
  rewrite (N.div_mod a 16), (N.div_mod b 16) by lia. congruence.
Qed.

Lemma uuid_hex_inj u1 u2 :
  (u1 < 2 ^ 128)%N -> (u2 < 2 ^ 128)%N -> uuid_hex u1 = uuid_hex u2 -> u1 = u2.
Proof.
  intros H1 H2. apply hex_fixed_inj.
  - replace (16 ^ N.of_nat 32)%N with (2 ^ 128)%N by reflexivity. exact H1.
  - replace (16 ^ N.of_nat 32)%N with (2 ^ 128)%N by reflexivity. exact H2.
Qed.

(** The dashes of [str(uuid4())] dropped, the text is [uuid4().hex]. *)
Lemma uuid_digits_str u : uuid_digits (uuid_str u) = uuid_hex u.
Proof.
  unfold uuid_str. cbv zeta. generalize (uuid_hex_length u). generalize (uuid_hex u).
  intros h Hl.
  do 32 (destruct h as [|? h]; [discriminate|]).
  destruct h; [reflexivity|discriminate].
Qed.

Lemma uuid_str_length u : String.length (uuid_str u) = 36%nat.
Proof.
  unfold uuid_str. cbv zeta. generalize (uuid_hex_length u). generalize (uuid_hex u).
  intros h Hl.
  do 32 (destruct h as [|? h]; [discriminate|]).
  destruct h; [reflexivity|discriminate].
Qed.

Lemma uuid_str_inj u1 u2 :
  (u1 < 2 ^ 128)%N -> (u2 < 2 ^ 128)%N -> uuid_str u1 = uuid_str u2 -> u1 = u2.
Proof.
  intros H1 H2 H. apply uuid_hex_inj; [exact H1|exact H2|].
  rewrite <- !uuid_digits_str, H. reflexivity.
Qed.

Lemma lt_pow2_bits x n :
  (forall m, (n <= m)%N -> N.testbit x m = false) -> (x < 2 ^ n)%N.
Proof.
  intros H. destruct (N.eq_dec x 0%N) as [->|Hx].
  - apply N.neq_0_lt_0, N.pow_nonzero. discriminate.
  - apply N.log2_lt_pow2; [lia|].
    destruct (N.lt_ge_cases (N.log2 x) n) as [Hlt|Hge]; [exact Hlt|].
    pose proof (N.bit_log2 x Hx) as Hb.
    rewrite (H _ Hge) in Hb. discriminate.
Qed.

(** A uuid has 128 bits. *)
Lemma uuid4_of_lt random : (uuid4_of random < 2 ^ 128)%N.
Proof.
  apply lt_pow2_bits. intros m Hm. unfold uuid4_of.
  rewrite !N.lor_spec, !N.ldiff_spec, !N.lor_spec, !N.ldiff_spec.
  rewrite N.mod_pow2_bits_high by exact Hm.
  rewrite (N.bits_above_log2 (N.shiftl 32768 48)) by (vm_compute N.log2; lia).
  rewrite (N.bits_above_log2 (N.shiftl 4 76)) by (vm_compute N.log2; lia).
  reflexivity.
Qed.

Lemma next_uuid_lt w : (next_uuid w < 2 ^ 128)%N.
Proof. apply uuid4_of_lt. Qed.

Lemma str_contains_take c n s :
  str_contains c s = false -> str_contains c (str_take n s) = false.
Proof.
  revert s. induction n as [|n IH]; intros [|x s]; simpl; try reflexivity.
  intros H. apply orb_false_iff in H as [-> H]. simpl. apply IH. exact H.
Qed.

Lemma str_contains_drop c n s :
  str_contains c s = false -> str_contains c (str_drop n s) = false.
Proof.
  revert s. induction n as [|n IH]; intros [|x s]; simpl; try (intros H; exact H).
  intros H. apply orb_false_iff in H as [_ H]. apply IH. exact H.
Qed.

(** An identifier is made of hexadecimal digits and dashes. *)
Lemma uuid_str_contains c u :
  str_contains c "0123456789abcdef-" = false -> str_contains c (uuid_str u) = false.
Proof.
  intros Hc.
  assert (str_contains c "-" = false /\ str_contains c "0123456789abcdef" = false) as [Hd Hx].
  { change "0123456789abcdef-" with ("0123456789abcdef" +:+ "-") in Hc.
    rewrite str_contains_app in Hc. apply orb_false_iff in Hc as [Hx Hd]. auto. }
  assert (str_contains c (uuid_hex u) = false) as Hh
    by (unfold uuid_hex; rewrite hex_fixed_contains; [reflexivity|exact Hx]).
  unfold uuid_str. cbv zeta. rewrite !str_contains_app, Hd.
  rewrite !str_contains_take, !str_contains_drop by
    (repeat first [exact Hh | apply str_contains_drop | apply str_contains_take]).
  reflexivity.
Qed.

Lemma job_path_inj app j1 j2 : job_path app j1 = job_path app j2 -> j1 = j2.
Proof.
  unfold job_path. intros H. apply path_join_inj in H; [|reflexivity].
  apply (String.app_inj "./temp/") in H.
  apply str_app_inj_tail in H as [H _]; [exact H|reflexivity].
Qed.

(** The path of a job, seen from the directory [<static folder>/./temp]. *)
Lemma job_path_in_temp app job_id :
  job_path app job_id
  = path_join (static_folder app) "./temp" +:+ "/" +:+ job_id +:+ ".json".
Proof.
  unfold job_path, path_join.
  change (starts_with_slash ("./temp/" +:+ job_id +:+ ".json")) with false.
  change (starts_with_slash "./temp") with false. cbn [orb].
  destruct (String.eqb (static_folder app) ""); [reflexivity|].
  destruct (ends_with_slash (static_folder app)); rewrite !str_app_assoc; reflexivity.
Qed.


Lemma ApiAsyncJob_init_eq app target w :
  ApiAsyncJob_init app target w
  = (Ok (mkApiAsyncJob (uuid_str (next_uuid w))
                       (async_target app (uuid_str (next_uuid w)) target)),
     mkWorld (fs w) (locked w) (clock w) (agenda w) (uuid_source w)
             (S (uuid_count w)) (after_request w) (trace w)).
Proof. reflexivity. Qed.

(* ===================================================================== *)
(** * The characters of a JSON text *)
(* ===================================================================== *)

Lemma all_printable_app s t :
  all_printable (s +:+ t) = (all_printable s && all_printable t)%bool.
Proof.
  induction s as [|c s IH]; [reflexivity|].
  rewrite str_app_cons. simpl. rewrite IH, andb_assoc. reflexivity.
Qed.

Lemma hex_digit_printable n : printable_ascii (hex_digit n) = true.
Proof.
  destruct n as [|p]; [reflexivity|].
  do 4 (destruct p as [p|p|]; try reflexivity).
Qed.

Lemma u_escape_printable x : all_printable (u_escape x) = true.
Proof.
  unfold u_escape, hex4. cbn [all_printable]. rewrite !hex_digit_printable. reflexivity.
Qed.

Lemma escape_char_printable c : all_printable (escape_char c) = true.
Proof.
  unfold escape_char.
  repeat match goal with
         | |- context [(c =? ?n)%N] => destruct (N.eqb_spec c n); [reflexivity|]
         end.
  destruct ((32 <=? c)%N && (c <=? 126)%N) eqn:Hp.
  - cbn [all_printable]. unfold printable_ascii.
    apply andb_true_iff in Hp as [H1 H2]. apply N.leb_le in H2.
    rewrite N_ascii_embedding by lia. rewrite H1. apply N.leb_le in H2. rewrite H2.
    reflexivity.
  - destruct (c <? 65536)%N; [apply u_escape_printable|].
    rewrite all_printable_app, !u_escape_printable. reflexivity.
Qed.

Lemma escape_string_printable s : all_printable (escape_string s) = true.
Proof.
  induction s as [|c s IH]; [reflexivity|].
  simpl. rewrite all_printable_app, escape_char_printable, IH. reflexivity.
Qed.

Lemma encode_basestring_ascii_printable s :
  all_printable (encode_basestring_ascii s) = true.
Proof.
  unfold encode_basestring_ascii. simpl.
  rewrite all_printable_app, escape_string_printable. reflexivity.
Qed.

Lemma string_of_uint_printable d : all_printable (NilEmpty.string_of_uint d) = true.
Proof. induction d; simpl; auto. Qed.

Lemma int_repr_printable z : all_printable (int_repr z) = true.
Proof.
  pose proof (int_repr_cases z) as H. destruct z; rewrite H; try reflexivity.
  - apply string_of_uint_printable.
  - simpl. apply string_of_uint_printable.
Qed.

Lemma is_digit_printable c : is_digit c = true -> printable_ascii c = true.
Proof.
  unfold is_digit, printable_ascii. intros H. apply andb_true_iff in H as [H1 H2].
  apply N.leb_le in H1, H2. apply andb_true_iff. split; apply N.leb_le; lia.
Qed.

Lemma span_digits_printable s : all_printable (fst (span_digits s)) = true.
Proof.
  induction s as [|c s IH]; [reflexivity|]. cbn [span_digits].
  destruct (is_digit c) eqn:Hc; [|reflexivity].
  destruct (span_digits s) as [ds r]. cbn [fst all_printable] in *.
  rewrite (is_digit_printable c Hc), IH. reflexivity.
Qed.

Lemma span_integer_printable s : all_printable (fst (span_integer s)) = true.
Proof.
  destruct s as [|c s]; [reflexivity|].
  destruct (Ascii.eqb_spec c "0") as [->|Hc]; [reflexivity|].
  replace (span_integer (String c s)) with (span_digits (String c s)).
  - apply span_digits_printable.
  - destruct c as [[] [] [] [] [] [] [] []]; try reflexivity. congruence.
Qed.

Lemma span_frac_printable s : all_printable (fst (span_frac s)) = true.
Proof.
  destruct s as [|c s]; [reflexivity|].
  destruct (Ascii.eqb_spec c ".") as [->|Hc].
  - cbn [span_frac]. pose proof (span_digits_printable s) as H.
    destruct (span_digits s) as [[|d ds] r]; [reflexivity|]. exact H.
  - replace (span_frac (String c s)) with ("", String c s); [reflexivity|].
    destruct c as [[] [] [] [] [] [] [] []]; try reflexivity. congruence.
Qed.

Lemma span_exp_printable s : all_printable (fst (span_exp s)) = true.
Proof.
  destruct s as [|e s]; [reflexivity|]. cbn [span_exp].
  destruct (Ascii.eqb e "e" || Ascii.eqb e "E")%bool eqn:He; [|reflexivity].
  assert (printable_ascii e = true) as Pe.
  { apply orb_true_iff in He as [He|He]; apply Ascii.eqb_eq in He; subst e; reflexivity. }
  destruct s as [|c s]; [reflexivity|].
  destruct (Ascii.eqb c "-" || Ascii.eqb c "+")%bool eqn:Hc.
  - assert (printable_ascii c = true) as Pc.
    { apply orb_true_iff in Hc as [Hc|Hc]; apply Ascii.eqb_eq in Hc; subst c; reflexivity. }
    pose proof (span_digits_printable s) as H.
    destruct (span_digits s) as [[|d ds] r]; [reflexivity|].
    cbn [fst] in *. rewrite str_app_cons. change ("" +:+ ?x) with x.
    cbn [all_printable] in *. rewrite Pe, Pc. exact H.
  - pose proof (span_digits_printable (String c s)) as H.
    destruct (span_digits (String c s)) as [[|d ds] r]; [reflexivity|].
    cbn [fst] in *. change ("" +:+ ?x) with x.
    cbn [all_printable] in *. rewrite Pe. exact H.
Qed.

Lemma split_sign_printable s : all_printable (fst (split_sign s)) = true.
Proof.
  destruct s as [|c s]; [reflexivity|].
  destruct c as [[] [] [] [] [] [] [] []]; reflexivity.
Qed.

(** The text of a float is made of digits, signs, a point and an [e]. *)
Lemma float_json_printable r : float_text r = true -> all_printable (float_json r) = true.
Proof.
  unfold float_text. intros H.
  apply orb_true_iff in H as [H|H];
    [apply orb_true_iff in H as [H|H]; [apply orb_true_iff in H as [H|H]|]|];
    try (apply String.eqb_eq in H; subst r; reflexivity).
  rewrite (float_json_token r H). apply is_float_token_parse in H.
  rewrite parse_number_eq in H. cbv zeta in H.
  destruct (fst (span_integer _)) eqn:Ei; [discriminate|]. rewrite <- Ei in H.
  assert (exists v, Some (PFloat (fst (split_sign r) +:+ fst (span_integer (snd (split_sign r)))
              +:+ fst (span_frac (snd (span_integer (snd (split_sign r)))))
              +:+ fst (span_exp (snd (span_frac (snd (span_integer (snd (split_sign r)))))))),
            v) = Some (PFloat r, "")) as [v Hv].
  { destruct (fst (span_frac _)), (fst (span_exp _)); eauto.
    destruct (MAX_STR_DIGITS <? _)%nat; [discriminate|].
    destruct (Z_of_digits _); discriminate. }
  injection Hv as Hv _. rewrite <- Hv.
  rewrite !all_printable_app, split_sign_printable, span_integer_printable,
    span_frac_printable, span_exp_printable. reflexivity.
Qed.

Lemma str_join_printable sep parts :
  all_printable sep = true -> Forall (fun p => all_printable p = true) parts ->
  all_printable (str_join sep parts) = true.
Proof.
  intros Hsep. induction 1 as [|p parts Hp _ IH]; [reflexivity|].
  destruct parts as [|q parts]; [exact Hp|].
  change (str_join sep (p :: q :: parts)) with (p +:+ sep +:+ str_join sep (q :: parts)).
  rewrite !all_printable_app, Hp, Hsep, IH. reflexivity.
Qed.

Lemma json_key_printable k a b :
  json_key k = Some a -> all_printable b = true -> all_printable (json_member a b) = true.
Proof.
  intros _ Hb. unfold json_member.
  rewrite !all_printable_app, encode_basestring_ascii_printable, Hb. reflexivity.
Qed.

(** [ensure_ascii]: whatever text a value holds, the document is made of
    printable ASCII characters. *)
Lemma json_encode_printable v j : json_encode v = Some j -> all_printable j = true.
Proof.
  revert j.
  induction v as [|b|z|r|s|l IH|l IH|kvs IH|o] using pyvalue_ind'; intros j Hj.
  - injection Hj as <-. reflexivity.
  - destruct b; injection Hj as <-; reflexivity.
  - cbn [json_encode] in Hj. destruct (int_too_long z); [discriminate|].
    injection Hj as <-. apply int_repr_printable.
  - cbn [json_encode] in Hj. destruct (float_text r) eqn:Hr; [|discriminate].
    injection Hj as <-. apply float_json_printable, Hr.
  - injection Hj as <-. apply encode_basestring_ascii_printable.
  - rewrite json_encode_list in Hj.
    destruct (encode_items l) as [parts|] eqn:E; [|discriminate]. injection Hj as <-.
    unfold json_array. rewrite !all_printable_app, str_join_printable; [reflexivity..|].
    revert parts E. induction IH as [|x l Hx _ IHl]; intros parts E.
    + injection E as <-. constructor.
    + simpl in E. destruct (json_encode x) as [a|]; [|discriminate].
      destruct (encode_items l) as [bs|]; [|discriminate]. injection E as <-.
      constructor; [apply Hx; reflexivity|apply IHl; reflexivity].
  - rewrite json_encode_tuple in Hj.
    destruct (encode_items l) as [parts|] eqn:E; [|discriminate]. injection Hj as <-.
    unfold json_array. rewrite !all_printable_app, str_join_printable; [reflexivity..|].
    revert parts E. induction IH as [|x l Hx _ IHl]; intros parts E.
    + injection E as <-. constructor.
    + simpl in E. destruct (json_encode x) as [a|]; [|discriminate].
      destruct (encode_items l) as [bs|]; [|discriminate]. injection E as <-.
      constructor; [apply Hx; reflexivity|apply IHl; reflexivity].
  - rewrite json_encode_dict in Hj.
    destruct (encode_members kvs) as [parts|] eqn:E; [|discriminate]. injection Hj as <-.
    unfold json_object. rewrite !all_printable_app, str_join_printable; [reflexivity..|].
    revert parts E. induction IH as [|[k x] kvs Hx _ IHl]; intros parts E.
    + injection E as <-. constructor.
    + simpl in E. cbn [snd] in Hx. destruct (json_key k) as [a|] eqn:Ek; [|discriminate].
      destruct (json_encode x) as [b|]; [|discriminate].
      destruct (encode_members kvs) as [cs|]; [|discriminate]. injection E as <-.
      constructor; [|apply IHl; reflexivity].
      apply (json_key_printable k); [exact Ek|apply Hx; reflexivity].
  - discriminate.
Qed.

(* ===================================================================== *)
(** * The claims of the specification *)
(* ===================================================================== *)

(** ** Deferred cleanup of a staged file *)

(** C1. The cleanup sleeps for the retention window and then tries to
    delete the staged file, and after a [PermissionError] waits 2 seconds
    and tries again; the specification allows for at most 5 calls of
    [os.remove]. On a staged file that stays locked the code calls it 6 times,
    once for each of [tries = 0, ..., MAX_CLEANUP_TRIES], and sleeps for
    the whole retention window before each of them. *)
Theorem cleanup_locked_file_six_removals :
  let '(r, w) := run_hook (Cleanup staged0) world_locked in
  r = Ok tt
  /\ remove_calls w = 6%nat
  /\ (MAX_CLEANUP_TRIES < remove_calls w)%nat
  /\ seconds_slept w = (6 * (KEEP_FILE_FOR_SECONDS + 2))%nat
  /\ is_regular_file w staged0 = true.
Proof. vm_compute. repeat split; lia. Qed.

(** C10. When the staged file is gone by the time the thread body runs,
    the cleanup returns at once: no sleep, no call of [os.remove], and the
    world (files, clock, trace) is what it was. *)
Theorem cleanup_missing_file_noop (tmp_file : string) (w : World) :
  is_regular_file w tmp_file = false ->
  run_hook (Cleanup tmp_file) w = (Ok tt, w).
Proof.
  intros H. unfold run_hook, cleanup_tempfile.
  rewrite cleanup_tempfile_from_S, H. reflexivity.
Qed.

Lemma cleanup_missing_file_noop_witness :
  is_regular_file world0 staged0 = false
  /\ run_hook (Cleanup staged0) world0 = (Ok tt, world0).
Proof.
  split; [reflexivity|].
  apply (cleanup_missing_file_noop staged0 world0). reflexivity.
Defined.

(** ** Staging a file *)

(** C7. A path that is not a regular file makes the construction raise
    [TypeError] (the code's invalid-input error) and leaves the world as it
    was: no directory made, no file copied, no callback registered, no
    token drawn. *)
Theorem non_file_fails_before_any_effect
    (app : App) (filepath : string) (attachment_name : option string)
    (status : option Z) (w : World) :
  is_regular_file w filepath = false ->
  exists e,
    ApiFileResult_init app filepath attachment_name status w = (Raise e, w)
    /\ exn_class_of e = TypeError.
Proof.
  intros H. unfold ApiFileResult_init, mbind, M_bind, bind, isfile.
  unfold is_regular_file in H. rewrite H. simpl.
  eexists. split; reflexivity.
Qed.

Lemma non_file_fails_before_any_effect_witness :
  is_regular_file world0 "/tmp/missing.pdf" = false
  /\ exists e,
       ApiFileResult_init app0 "/tmp/missing.pdf" None None world0 = (Raise e, world0)
       /\ exn_class_of e = TypeError.
Proof.
  split; [reflexivity|].
  apply (non_file_fails_before_any_effect app0 "/tmp/missing.pdf" None None world0).
  reflexivity.
Defined.




(** C9. A name without a dot (given, or taken from the path) is staged all
    the same. The token goes to the end of the whole name, and different
    tokens give different staged names. On a regular file the construction
    goes on to copy the file to the path under that name, and ends as the
    copy does: the missing dot is the cause of no error. With a name that
    is a plain file name, no regular file in the way of the downloads
    directory and nothing at the staged path, the copy goes through and
    the file is staged. *)
Theorem name_without_extension
    (app : App) (filepath : string) (attachment_name : option string)
    (status : option Z) (w : World) :
  is_regular_file w filepath = true ->
  let name := display_name filepath attachment_name in
  str_contains "." name = false ->
  let token := uuid_hex (next_uuid w) in
  let staged := path_join (downloads_dir app) (name +:+ "_" +:+ token) in
  unique_attachment name token = name +:+ "_" +:+ token
  /\ (forall token1 token2, token1 <> token2 ->
        unique_attachment name token1 <> unique_attachment name token2)
  /\ ApiFileResult_init app filepath attachment_name status w =
       match copy2 filepath staged (before_copy app w) with
       | (Ok _, w2) =>
           (Ok (mkApiResult (descriptor app name (name +:+ "_" +:+ token))
                            (default 200%Z status)),
            mkWorld (fs w2) (locked w2) (clock w2) (agenda w2) (uuid_source w2)
                    (uuid_count w2) (after_request w2 ++ [Cleanup staged]) (trace w2))
       | (Raise e, w2) => (Raise e, w2)
       end
  /\ (str_contains "/" name = false -> creatable (downloads_dir app) w = true ->
      fs w !! staged = None ->
      exists res w',
        ApiFileResult_init app filepath attachment_name status w = (Ok res, w')
        /\ is_regular_file w' staged = true
        /\ after_request w' = (after_request w ++ [Cleanup staged])%list).
Proof.
  intros Hfile name Hdot token staged.
  assert (forall t, unique_attachment name t = name +:+ "_" +:+ t) as Hu.
  { intros t. rewrite unique_attachment_eq.
    apply rsplit1_None in Hdot. rewrite Hdot. reflexivity. }
  destruct (regular_file_entry w filepath Hfile) as [c Hc].
  split; [apply Hu|]. split; [|split].
  - intros t1 t2 Hne H. rewrite !Hu in H. apply Hne.
    apply (String.app_inj name) in H. exact (String.app_inj "_" _ _ H).
  - rewrite (ApiFileResult_init_eq app filepath attachment_name status w c Hc).
    cbv zeta. fold name. rewrite Hu. reflexivity.
  - intros Hslash Hcr Hfree.
    pose proof (ApiFileResult_init_inside app filepath attachment_name status w c Hc) as H.
    cbv zeta in H. fold name in H. rewrite Hu in H. specialize (H Hslash Hcr Hfree).
    eexists _, _. split; [exact H|]. split; [|reflexivity].
    unfold is_regular_file. cbn [fs]. fold token. fold staged.
    rewrite lookup_insert_eq. reflexivity.
Qed.

Lemma name_without_extension_witness :
  let staged := "/srv/app/static/downloads/README_000000000000400080000000000003e8" in
  unique_attachment "README" (uuid_hex (next_uuid world0))
  = "README_000000000000400080000000000003e8"
  /\ exists res w',
       ApiFileResult_init app0 "/tmp/report.pdf" (Some "README") None world0 = (Ok res, w')
       /\ is_regular_file w' staged = true
       /\ after_request w' = [Cleanup staged].
Proof.
  destruct (name_without_extension app0 "/tmp/report.pdf" (Some "README") None world0)
    as (H1 & _ & _ & H4); [reflexivity | reflexivity |].
  split; [exact H1 | apply H4; reflexivity].
Defined.

(** ** Rendering a result *)

(** C3, as stated, fails on values that serialize and are not read back:
    a tuple is written as an array and read back as a list; a key that is
    not a string is written as a string and read back as one; a high
    surrogate followed by a low one is written as two escapes and read
    back as the one code point the pair spells. *)
Lemma values_not_read_back_counterexample :
  (let v := PTuple [PInt 1; PInt 2] in
   to_response (mkApiResult v 200) None = Ok (mkResponse "[1, 2]" 200 "application/json")
   /\ json_decode "[1, 2]" = Some (PList [PInt 1; PInt 2])
   /\ json_decode "[1, 2]" <> Some v)
  /\ (let v := PDict [(PInt 1, PStr "a")] in
      let b := dq "{'1': 'a'}" in
      to_response (mkApiResult v 200) None = Ok (mkResponse b 200 "application/json")
      /\ json_decode b = Some (PDict [(PStr "1", PStr "a")])
      /\ json_decode b <> Some v)
  /\ (let v := PStr [55357; 56832]%N in
      let b := dq "'\ud83d\ude00'" in
      to_response (mkApiResult v 200) None = Ok (mkResponse b 200 "application/json")
      /\ json_decode b = Some (PStr [128512%N])
      /\ json_decode b <> Some v).
Proof. vm_compute. repeat split; discriminate. Qed.

(** C3, amended. Let [v] be built from [None], booleans, integers, floats,
    strings in which no high surrogate stands right before a low one,
    lists, and dicts with such strings as keys. When [v] serializes
    (to [j]), the response rendered with no serializer, for every status
    [s], has the body [j], which decodes back to [v], and the status [s].
    (A float that is not a number is read back as one that is not a
    number.) *)
Theorem response_body_decodes_back (v : pyvalue) (s : Z) (j : string) :
  json_native v = true -> json_encode v = Some j ->
  to_response (mkApiResult v s) None = Ok (mkResponse j s "application/json")
  /\ json_decode j = Some v.
Proof.
  intros Hnat Hj. split.
  - rewrite to_response_eq, Hj. reflexivity.
  - exact (json_decode_encode v j Hnat Hj).
Qed.

Lemma response_body_decodes_back_witness :
  let v := PDict [(PStr "name", PStr [114; 233; 8364; 128512]%N);
                  (PStr "sizes", PList [PInt 3; PInt (-4); PFloat "1.5"; PFloat "-inf"])] in
  let j := dq "{'name': 'r\u00e9\u20ac\ud83d\ude00', 'sizes': [3, -4, 1.5, -Infinity]}" in
  to_response (mkApiResult v 201) None = Ok (mkResponse j 201 "application/json")
  /\ json_decode j = Some v.
Proof.
  apply (response_body_decodes_back
           (PDict [(PStr "name", PStr [114; 233; 8364; 128512]%N);
                   (PStr "sizes", PList [PInt 3; PInt (-4); PFloat "1.5"; PFloat "-inf"])])
           201); reflexivity.
Defined.

(** C4 fails on a value that [json.dumps] rejects and whose [repr] raises:
    the call of [repr] in the handler is not protected, and what it raises
    leaves [to_response]. *)
Theorem to_response_raises_with_repr :
  json_encode no_repr = None
  /\ py_repr no_repr = Raise no_repr_error
  /\ to_response (mkApiResult no_repr 200) None = Raise no_repr_error
  /\ to_response (mkApiResult (PList [PInt 1; no_repr]) 200) None = Raise no_repr_error.
Proof. repeat split. Qed.

(** ** Background jobs *)










(* ===================================================================== *)
(** * Further properties of the code *)
(* ===================================================================== *)

(** ** ApiResult and ApiException *)


(** X2. A serializer is called outside the [try]: what it raises leaves
    [to_response], and what it returns is rendered as a value given with no
    serializer is. A failure of [json.dumps] is absorbed by the handler as
    far as [repr] returns: then the body is the [repr] of the value; what
    [repr] raises leaves [to_response] as well. *)
Theorem serializer_runs_outside_the_try
    (v : pyvalue) (s : Z) (f : pyvalue -> result pyvalue) :
  (forall e, f v = Raise e -> to_response (mkApiResult v s) (Some f) = Raise e)
  /\ (forall r, f v = Ok r ->
        to_response (mkApiResult v s) (Some f) = to_response (mkApiResult r s) None)
  /\ (forall t, json_encode v = None -> py_repr v = Ok t ->
        to_response (mkApiResult v s) None = Ok (mkResponse t s "application/json"))
  /\ (forall e, json_encode v = None -> py_repr v = Raise e ->
        to_response (mkApiResult v s) None = Raise e).
Proof.
  repeat split.
  - intros e H. rewrite to_response_with_serializer, H. reflexivity.
  - intros r H. rewrite to_response_with_serializer, H. reflexivity.
  - intros t Hj Hr. rewrite to_response_eq, Hj, Hr. reflexivity.
  - intros e Hj Hr. rewrite to_response_eq, Hj, Hr. reflexivity.
Qed.

Lemma serializer_runs_outside_the_try_witness :
  to_response (mkApiResult (PInt 1) 200) (Some (fun _ => Raise no_repr_error))
  = Raise no_repr_error
  /\ to_response (mkApiResult (PInt 1) 200) (Some (fun x => Ok (PList [x])))
     = to_response (mkApiResult (PList [PInt 1]) 200) None
  /\ to_response (mkApiResult a_set 200) None
     = Ok (mkResponse "{1, 2}" 200 "application/json")
  /\ to_response (mkApiResult no_repr 200) None = Raise no_repr_error.
Proof.
  split; [|split; [|split]].
  - apply (serializer_runs_outside_the_try (PInt 1) 200 (fun _ => Raise no_repr_error)).
    reflexivity.
  - apply (serializer_runs_outside_the_try (PInt 1) 200 (fun x => Ok (PList [x]))).
    reflexivity.
  - apply (serializer_runs_outside_the_try a_set 200 (fun x => Ok x)); reflexivity.
  - apply (serializer_runs_outside_the_try no_repr 200 (fun x => Ok x)); reflexivity.
Defined.

(** ** ApiFileResult *)

(** X3. On a regular file, under a display name that is a plain file
    name, with no regular file in the way of the downloads directory and
    nothing at the staged path, the construction succeeds. It returns the
    descriptor (success, the static URL of [downloads/<staged name>], the
    display name, 60 seconds) with the status given, 200 by default; the
    staged path holds a copy of the contents of the source; exactly one
    cleanup for that path is registered, after those already there; one
    token is drawn; and nothing is removed and no time passes. *)
Theorem file_result_stages_a_copy
    (app : App) (filepath : string) (attachment_name : option string)
    (status : option Z) (w : World) (c : contents) :
  fs w !! filepath = Some (File c) ->
  let shown := display_name filepath attachment_name in
  let unique := unique_attachment shown (uuid_hex (next_uuid w)) in
  let tmp_file := path_join (downloads_dir app) unique in
  str_contains "/" shown = false -> creatable (downloads_dir app) w = true ->
  fs w !! tmp_file = None ->
  exists w',
    ApiFileResult_init app filepath attachment_name status w =
      (Ok (mkApiResult
             (PDict [(PStr "success", PBool true);
                     (PStr "url", PStr (url_for_static app ("downloads/" +:+ unique)));
                     (PStr "attachment_name", PStr shown);
                     (PStr "available_for_seconds", PInt 60)])
             (default 200%Z status)), w')
    /\ fs w' !! tmp_file = Some (File c)
    /\ after_request w' = (after_request w ++ [Cleanup tmp_file])%list
    /\ uuid_count w' = S (uuid_count w)
    /\ trace w' = trace w /\ clock w' = clock w.
Proof.
  intros Hf shown unique tmp_file Hn Hc Hfree.
  eexists. split;
    [apply (ApiFileResult_init_inside app filepath attachment_name status w c Hf Hn Hc Hfree)|].
  cbn [fs after_request uuid_count trace clock].
  split; [apply lookup_insert_eq|]. auto.
Qed.

Lemma file_result_stages_a_copy_witness :
  exists w',
    ApiFileResult_init app0 "/tmp/report.pdf" None (Some 201%Z) world0 =
      (Ok (mkApiResult
             (PDict [(PStr "success", PBool true);
                     (PStr "url", PStr "/static/downloads/report_000000000000400080000000000003e8.pdf");
                     (PStr "attachment_name", PStr "report.pdf");
                     (PStr "available_for_seconds", PInt 60)])
             201), w')
    /\ fs w' !! staged0 = Some (File (Data "%PDF"))
    /\ after_request w' = [Cleanup staged0].
Proof.
  destruct (file_result_stages_a_copy app0 "/tmp/report.pdf" None (Some 201%Z) world0
              (Data "%PDF") eq_refl eq_refl eq_refl eq_refl) as (w' & H1 & H2 & H3 & _).
  exists w'. split; [exact H1|]. split; [exact H2|exact H3].
Defined.

(** X4. A construction never removes or changes an entry of the file
    system other than the one at the staged path: every other file or
    directory that was there is there afterwards, unchanged; what is new
    besides the staged file are directories. Locks and pending events are
    not touched. *)
Theorem file_result_keeps_other_entries
    (app : App) (filepath : string) (attachment_name : option string)
    (status : option Z) (w w' : World) (r : result ApiResult) :
  ApiFileResult_init app filepath attachment_name status w = (r, w') ->
  let tmp_file :=
    path_join (downloads_dir app)
              (unique_attachment (display_name filepath attachment_name)
                                 (uuid_hex (next_uuid w))) in
  (forall p x, p <> tmp_file -> fs w !! p = Some x -> fs w' !! p = Some x)
  /\ (forall p x, p <> tmp_file -> fs w' !! p = Some x -> fs w !! p = Some x \/ x = Dir)
  /\ locked w' = locked w /\ agenda w' = agenda w.
Proof.
  intros Hrun tmp_file.
  assert (forall p x, fs (before_copy app w) !! p = Some x -> fs w !! p = Some x \/ x = Dir)
    as Hnew.
  { intros p x H. apply before_copy_new in H as [H|[H _]]; auto. }
  destruct r as [res|e].
  - destruct (ApiFileResult_init_inv _ _ _ _ _ _ _ Hrun) as (c & Hf & _ & ->).
    cbn [fs locked agenda]. fold tmp_file.
    split; [|split; [|auto]].
    + intros p x Hp Hx. rewrite lookup_insert_ne by congruence.
      apply before_copy_keeps, Hx.
    + intros p x Hp. rewrite lookup_insert_ne by congruence. apply Hnew.
  - destruct (ApiFileResult_init_raise _ _ _ _ _ _ _ Hrun) as [-> | ->]; [auto|].
    split; [|split; [|auto]].
    + intros p x _ Hx. apply before_copy_keeps, Hx.
    + intros p x _. apply Hnew.
Qed.

Lemma file_result_keeps_other_entries_witness :
  exists r w',
    ApiFileResult_init app0 "/tmp/report.pdf" None None world0 = (r, w')
    /\ fs w' !! "/tmp/report.pdf" = Some (File (Data "%PDF"))
    /\ locked w' = locked world0.
Proof.
  destruct (ApiFileResult_init app0 "/tmp/report.pdf" None None world0) as [r w'] eqn:E.
  destruct (file_result_keeps_other_entries app0 "/tmp/report.pdf" None None world0 w' r E)
    as (H1 & _ & H3 & _).
  exists r, w'. split; [reflexivity|]. split; [|exact H3].
  apply H1; [vm_compute; discriminate|reflexivity].
Defined.

(** X5. With no attachment name given (or an empty one) the display name
    is the base name of the source path, and the file is staged directly
    inside the downloads directory: the directory of the staged path is
    [<root>/static/downloads] and its base name is the staged name. *)
Theorem default_name_stages_inside_downloads
    (app : App) (filepath : string) (attachment_name : option string) (u : N) :
  attachment_name = None \/ attachment_name = Some "" ->
  let shown := display_name filepath attachment_name in
  let unique := unique_attachment shown (uuid_hex u) in
  shown = basename filepath
  /\ tmp_file_path app shown (uuid_hex u) = downloads_dir app +:+ "/" +:+ unique
  /\ dirname (tmp_file_path app shown (uuid_hex u)) = downloads_dir app
  /\ basename (tmp_file_path app shown (uuid_hex u)) = unique.
Proof.
  intros Hname shown unique.
  assert (shown = basename filepath) as Hs
    by (destruct Hname as [-> | ->]; reflexivity).
  split; [exact Hs|].
  destruct (downloads_dir_shape app) as [Hd He].
  apply dirname_basename_join; [exact Hd|exact He|].
  apply unique_attachment_no_slash. rewrite Hs. apply basename_no_slash.
Qed.

Lemma default_name_stages_inside_downloads_witness :
  tmp_file_path app0 (display_name "/tmp/report.pdf" None) (uuid_hex (uuid4_of 1000))
  = staged0
  /\ dirname staged0 = "/srv/app/static/downloads".
Proof.
  destruct (default_name_stages_inside_downloads app0 "/tmp/report.pdf" None (uuid4_of 1000)
              (or_introl eq_refl)) as (_ & H1 & H2 & _).
  split; [exact H1|exact H2].
Defined.

(** X6. An absolute attachment name takes the staged file out of the
    downloads directory: the staged path is the staged name itself, while
    the URL in the descriptor still points at [downloads/<staged name>].
    (The copy goes through when the downloads directory is there, the
    directory of the staged name is there, and nothing is at the staged
    name.) *)
Theorem absolute_name_leaves_downloads
    (app : App) (filepath name : string) (status : option Z) (w : World) (c : contents) :
  fs w !! filepath = Some (File c) ->
  starts_with_slash name = true ->
  let unique := unique_attachment name (uuid_hex (next_uuid w)) in
  path_join (downloads_dir app) unique = unique
  /\ (is_dir_in w (downloads_dir app) = true -> is_dir_in w (dirname unique) = true ->
      fs w !! unique = None ->
      exists res w',
        ApiFileResult_init app filepath (Some name) status w = (Ok res, w')
        /\ fs w' !! unique = Some (File c)
        /\ after_request w' = (after_request w ++ [Cleanup unique])%list
        /\ dict_get (value res) "url"
           = PStr (url_for_static app ("downloads/" +:+ unique))).
Proof.
  intros Hf Habs unique.
  assert (display_name filepath (Some name) = name) as Hshown.
  { unfold display_name. destruct name; [discriminate|reflexivity]. }
  assert (path_join (downloads_dir app) unique = unique) as Hj.
  { unfold path_join, unique. rewrite unique_attachment_absolute, Habs. reflexivity. }
  split; [exact Hj|]. intros Hdl Hdir Hfree.
  assert (fs (before_copy app w) = fs w) as Hsame.
  { unfold before_copy. cbn [fs]. rewrite Hdl. reflexivity. }
  pose proof (ApiFileResult_init_ok app filepath (Some name) status w c Hf) as H.
  cbv zeta in H. rewrite Hshown in H. fold unique in H. rewrite Hj, Hsame in H.
  eexists _, _. split.
  - apply H.
    + intros E. rewrite E in Hf. congruence.
    + rewrite Hfree. discriminate.
    + right. unfold is_dir_in in Hdir.
      destruct (fs w !! dirname unique) as [[|c']|]; try discriminate. reflexivity.
  - cbn [fs after_request value].
    split; [apply lookup_insert_eq|]. split; reflexivity.
Qed.

Lemma absolute_name_leaves_downloads_witness :
  exists res w',
    ApiFileResult_init app0 "/tmp/report.pdf" (Some "/var/www/index.html") None world_www
    = (Ok res, w')
    /\ fs w' !! "/var/www/index_000000000000400080000000000003e8.html"
       = Some (File (Data "%PDF")).
Proof.
  destruct (absolute_name_leaves_downloads app0 "/tmp/report.pdf" "/var/www/index.html" None
              world_www (Data "%PDF") eq_refl eq_refl) as (_ & H).
  destruct (H eq_refl eq_refl eq_refl) as (res & w' & H1 & H2 & _).
  exists res, w'. split; [exact H1|exact H2].
Defined.

(** X7. The staged name keeps the extension of the attachment name: when
    the name splits at its last dot into a base and an extension, the
    staged name splits at its last dot into the base followed by an
    underscore and the token, and the same extension. *)
Theorem staged_name_keeps_extension (name base ext : string) (u : N) :
  rsplit1 "." name = Some (base, ext) ->
  unique_attachment name (uuid_hex u) = base +:+ "_" +:+ uuid_hex u +:+ "." +:+ ext
  /\ rsplit1 "." (unique_attachment name (uuid_hex u))
     = Some (base +:+ "_" +:+ uuid_hex u, ext).
Proof.
  intros H. rewrite unique_attachment_eq, H.
  apply rsplit1_Some in H as [_ He].
  split; [rewrite !str_app_assoc; reflexivity|].
  apply rsplit1_app. exact He.
Qed.

Lemma staged_name_keeps_extension_witness :
  unique_attachment "archive.tar.gz" (uuid_hex 1000)
  = "archive.tar_000000000000000000000000000003e8.gz".
Proof.
  destruct (staged_name_keeps_extension "archive.tar.gz" "archive.tar" "gz" 1000 eq_refl)
    as [H _].
  exact H.
Defined.

(** X8. The result of a construction that returns renders as JSON that
    decodes back to the descriptor: [success] true, the URL, the display
    name and 60 seconds, under the status given (200 by default). *)
Theorem file_result_payload_decodes
    (app : App) (filepath : string) (attachment_name : option string)
    (st : option Z) (w w' : World) (res : ApiResult) :
  ApiFileResult_init app filepath attachment_name st w = (Ok res, w') ->
  exists text,
    to_response res None = Ok (mkResponse text (default 200%Z st) "application/json")
    /\ json_decode text
       = Some (PDict
                 [(PStr "success", PBool true);
                  (PStr "url",
                   PStr (url_for_static app
                           ("downloads/" +:+
                            unique_attachment (display_name filepath attachment_name)
                                              (uuid_hex (next_uuid w)))));
                  (PStr "attachment_name", PStr (display_name filepath attachment_name));
                  (PStr "available_for_seconds", PInt 60)]).
Proof.
  intros H. apply ApiFileResult_init_inv in H as (c & _ & -> & _).
  match goal with |- context [descriptor ?a ?b ?c] => set (d := descriptor a b c) end.
  assert (json_native d = true) as Hnat.
  { subst d. cbn [descriptor json_native forallb fst snd is_str_ok].
    rewrite !str_ok_pystr_of. reflexivity. }
  assert (exists text, json_encode d = Some text) as [text Henc]
    by (eexists; reflexivity).
  exists text. split.
  - rewrite to_response_eq, Henc. reflexivity.
  - exact (json_decode_encode d text Hnat Henc).
Qed.

Lemma file_result_payload_decodes_witness :
  exists res w' text,
    ApiFileResult_init app0 "/tmp/report.pdf" None None world0 = (Ok res, w')
    /\ to_response res None = Ok (mkResponse text 200 "application/json")
    /\ json_decode text
       = Some (PDict
                 [(PStr "success", PBool true);
                  (PStr "url",
                   PStr "/static/downloads/report_000000000000400080000000000003e8.pdf");
                  (PStr "attachment_name", PStr "report.pdf");
                  (PStr "available_for_seconds", PInt 60)]).
Proof.
  destruct (ApiFileResult_init app0 "/tmp/report.pdf" None None world0) as [[res|e] w'] eqn:E;
    [|vm_compute in E; discriminate].
  destruct (file_result_payload_decodes app0 "/tmp/report.pdf" None None world0 w' res E)
    as (text & H1 & H2).
  exists res, w', text. split; [reflexivity|]. split; [exact H1|exact H2].
Defined.

(** ** The deferred cleanup *)

(** X9. A staged file that is there, is not locked and that nobody else
    works on is removed by the cleanup: the thread sleeps for the retention
    window of 60 seconds, calls [os.remove] once, and is done; the file is
    gone 60 seconds after the thread started. *)
Theorem cleanup_removes_quiet_file (tmp_file : string) (w : World) :
  is_regular_file w tmp_file = true -> tmp_file ∉ locked w -> undisturbed tmp_file w ->
  exists w',
    run_hook (Cleanup tmp_file) w = (Ok tt, w')
    /\ fs w' !! tmp_file = None
    /\ trace w' = EvRemove tmp_file :: EvSleep KEEP_FILE_FOR_SECONDS :: trace w
    /\ clock w' = (clock w + KEEP_FILE_FOR_SECONDS)%nat.
Proof.
  intros Hf Hl Hu. eexists. split.
  - unfold run_hook, cleanup_tempfile. apply cleanup_tempfile_from_quiet; assumption.
  - cbn [fs set_fs log trace clock]. split; [apply lookup_delete_eq|].
    destruct (sleep_facts KEEP_FILE_FOR_SECONDS w) as (w1 & -> & Hc & Ht & _).
    cbn [snd]. rewrite Hc, Ht. auto.
Qed.

Lemma cleanup_removes_quiet_file_witness :
  exists w',
    run_hook (Cleanup staged0) world_staged = (Ok tt, w')
    /\ fs w' !! staged0 = None
    /\ trace w' = [EvRemove staged0; EvSleep 60]
    /\ clock w' = 60%nat.
Proof.
  apply (cleanup_removes_quiet_file staged0 world_staged).
  - reflexivity.
  - vm_compute. discriminate.
  - unfold undisturbed. simpl. repeat constructor. discriminate.
Defined.

(** X10. Whatever other processes do to the staged file while the thread
    sleeps (delete it, lock it, release it), the cleanup ends without an
    exception after at most [MAX_CLEANUP_TRIES + 1 = 6] calls of
    [os.remove]; each call comes after a sleep of the 60 seconds and is
    followed by at most one sleep of 2 seconds, so that the thread sleeps
    between 60 and 62 seconds for each call, 372 seconds at most. *)
Theorem cleanup_ends_within_bounds (tmp_file : string) (w : World) :
  exists w' removes seconds,
    run_hook (Cleanup tmp_file) w = (Ok tt, w')
    /\ remove_calls w' = (remove_calls w + removes)%nat
    /\ seconds_slept w' = (seconds_slept w + seconds)%nat
    /\ clock w' = (clock w + seconds)%nat
    /\ (removes <= MAX_CLEANUP_TRIES + 1)%nat
    /\ (KEEP_FILE_FOR_SECONDS * removes <= seconds)%nat
    /\ (seconds <= (KEEP_FILE_FOR_SECONDS + 2) * removes)%nat
    /\ (seconds <= 372)%nat.
Proof.
  unfold run_hook, cleanup_tempfile.
  destruct (cleanup_tempfile_from_run (S (MAX_CLEANUP_TRIES - 0)) tmp_file 0 w)
    as (w' & r & s & E & _ & (Hr & Hs & Hc) & Hle & Hlo & Hhi).
  exists w', r, s. split; [exact E|].
  unfold MAX_CLEANUP_TRIES, KEEP_FILE_FOR_SECONDS in *. cbn [Nat.sub] in Hle.
  repeat split; lia.
Qed.

(** X11. The cleanup touches nothing but the staged file: a path other
    than the staged one that nobody else works on keeps its entry and its
    lock; no entry of the file system is created; no token is drawn and no
    callback is registered. *)
Theorem cleanup_touches_only_staged_file (tmp_file p : string) (w : World) :
  p <> tmp_file -> undisturbed p w ->
  let w' := world_after (run_hook (Cleanup tmp_file)) w in
  fs w' !! p = fs w !! p
  /\ (p ∈ locked w' <-> p ∈ locked w)
  /\ (forall q x, fs w' !! q = Some x -> fs w !! q = Some x)
  /\ uuid_count w' = uuid_count w
  /\ after_request w' = after_request w.
Proof.
  intros Hp Hu. unfold world_after, run_hook, cleanup_tempfile.
  destruct (cleanup_tempfile_from_run (S (MAX_CLEANUP_TRIES - 0)) tmp_file 0 w)
    as (w' & r & s & E & (Hc & Ha & Hk & Ho) & _).
  rewrite E. cbn [snd]. destruct (Ho p Hp Hu) as (Hfs & Hl & _).
  split; [exact Hfs|]. split; [exact Hl|]. split; [exact Hk|]. split; [exact Hc|exact Ha].
Qed.

Lemma cleanup_touches_only_staged_file_witness :
  fs (world_after (run_hook (Cleanup staged0)) world_staged) !! "/tmp/report.pdf"
  = Some (File (Data "%PDF")).
Proof.
  destruct (cleanup_touches_only_staged_file staged0 "/tmp/report.pdf" world_staged)
    as (H & _).
  - discriminate.
  - unfold undisturbed. simpl. repeat constructor. discriminate.
  - rewrite H. reflexivity.
Defined.

(** X12. When somebody else deletes the staged file during the retention
    window, the thread calls [os.remove] once, in vain, sleeps 2 seconds,
    and the next call of the function finds no file and returns: one call
    of [os.remove], 62 seconds, no exception. *)
Theorem cleanup_after_external_delete (tmp_file : string) (w : World) (t : nat) :
  is_regular_file w tmp_file = true ->
  (t, ExtRemove tmp_file) ∈ agenda w -> (t <= clock w + KEEP_FILE_FOR_SECONDS)%nat ->
  exists w',
    run_hook (Cleanup tmp_file) w = (Ok tt, w')
    /\ fs w' !! tmp_file = None
    /\ trace w'
       = EvSleep 2 :: EvRemove tmp_file :: EvSleep KEEP_FILE_FOR_SECONDS :: trace w.
Proof.
  intros Hf Hin Hdue. eexists. split.
  - unfold run_hook, cleanup_tempfile.
    apply (cleanup_tempfile_from_deleted _ tmp_file 0 w t); assumption.
  - destruct (sleep_facts KEEP_FILE_FOR_SECONDS w) as (w1 & E1 & _ & Ht1 & _ & _ & _ & _ & _ & Hr).
    rewrite E1. cbn [snd].
    destruct (sleep_facts 2 (log (EvRemove tmp_file) w1)) as (w3 & E3 & _ & Ht3 & _ & _ & _ & Hk & _).
    rewrite E3. cbn [snd]. rewrite Ht3. cbn [trace log]. rewrite Ht1.
    split; [|reflexivity].
    destruct (fs w3 !! tmp_file) as [x|] eqn:E; [|reflexivity].
    apply Hk in E. cbn [fs log] in E. rewrite (Hr tmp_file t Hin Hdue) in E. discriminate.
Qed.

Lemma cleanup_after_external_delete_witness :
  exists w',
    run_hook (Cleanup staged0) world_removed_meanwhile = (Ok tt, w')
    /\ fs w' !! staged0 = None
    /\ trace w' = [EvSleep 2; EvRemove staged0; EvSleep 60].
Proof.
  apply (cleanup_after_external_delete staged0 world_removed_meanwhile 30).
  - reflexivity.
  - simpl. apply list_elem_of_here.
  - unfold MAX_CLEANUP_TRIES, KEEP_FILE_FOR_SECONDS. simpl. lia.
Defined.

(** X13. A staged file that stays locked is never removed: the thread
    calls [os.remove] [MAX_CLEANUP_TRIES + 1 = 6] times, sleeping 62
    seconds for each call, then gives up without an exception, and the
    file is left in the downloads directory. *)
Theorem cleanup_gives_up_on_locked_file (tmp_file : string) (w : World) :
  is_regular_file w tmp_file = true -> tmp_file ∈ locked w -> undisturbed tmp_file w ->
  exists w',
    run_hook (Cleanup tmp_file) w = (Ok tt, w')
    /\ remove_calls w' = (remove_calls w + (MAX_CLEANUP_TRIES + 1))%nat
    /\ seconds_slept w'
       = (seconds_slept w + (MAX_CLEANUP_TRIES + 1) * (KEEP_FILE_FOR_SECONDS + 2))%nat
    /\ is_regular_file w' tmp_file = true.
Proof.
  intros Hf Hl Hu. unfold run_hook, cleanup_tempfile.
  destruct (cleanup_tempfile_from_locked (MAX_CLEANUP_TRIES - 0) tmp_file 0 w)
    as (w' & E & (Hr & Hs & _) & Hfs & _); [reflexivity|assumption..|].
  exists w'. split; [exact E|].
  unfold MAX_CLEANUP_TRIES, KEEP_FILE_FOR_SECONDS in *. cbn [Nat.sub] in *.
  split; [lia|]. split; [lia|].
  unfold is_regular_file in *. rewrite Hfs. exact Hf.
Qed.

Lemma cleanup_gives_up_on_locked_file_witness :
  exists w',
    run_hook (Cleanup staged0) world_locked = (Ok tt, w')
    /\ remove_calls w' = 6%nat
    /\ seconds_slept w' = 372%nat
    /\ is_regular_file w' staged0 = true.
Proof.
  apply (cleanup_gives_up_on_locked_file staged0 world_locked).
  - reflexivity.
  - vm_compute. reflexivity.
  - unfold undisturbed. simpl. constructor.
Defined.

(** X14. The retries serve their purpose: when the staged file is there
    and the only thing anybody else does to it is to release its lock, and
    the lock is released by the time of the last call of [os.remove],
    [MAX_CLEANUP_TRIES * 62 + 60 = 370] seconds after the thread started,
    the file is removed. *)
Theorem cleanup_succeeds_once_lock_released (tmp_file : string) (w : World) (t : nat) :
  is_regular_file w tmp_file = true ->
  only_unlocks tmp_file w ->
  (t, ExtUnlock tmp_file) ∈ agenda w ->
  (t <= clock w + MAX_CLEANUP_TRIES * (KEEP_FILE_FOR_SECONDS + 2) + KEEP_FILE_FOR_SECONDS)%nat ->
  exists w',
    run_hook (Cleanup tmp_file) w = (Ok tt, w') /\ fs w' !! tmp_file = None.
Proof.
  intros Hf Hu Hin Ht. unfold run_hook, cleanup_tempfile.
  apply cleanup_tempfile_from_unlocked; [reflexivity|assumption..|].
  right. exists t. split; [exact Hin|].
  unfold MAX_CLEANUP_TRIES, KEEP_FILE_FOR_SECONDS in *. cbn [Nat.sub]. lia.
Qed.

Lemma cleanup_succeeds_once_lock_released_witness :
  exists w',
    run_hook (Cleanup staged0) world_unlocked_later = (Ok tt, w')
    /\ fs w' !! staged0 = None.
Proof.
  apply (cleanup_succeeds_once_lock_released staged0 world_unlocked_later 100).
  - reflexivity.
  - unfold only_unlocks. simpl. repeat constructor.
  - simpl. apply list_elem_of_here.
  - unfold MAX_CLEANUP_TRIES, KEEP_FILE_FOR_SECONDS. simpl. lia.
Defined.

(** X15. Staging and cleanup compose: after a construction on a regular
    file (under a plain file name, with no regular file in the way of the
    downloads directory and nothing at the staged path), the callback
    registered last is the cleanup of the staged path; when nobody else
    works on the staged path or on the source, the thread that callback
    starts removes the staged copy 60 seconds later and leaves the source
    file as it was. *)
Theorem staged_copy_is_removed_after_the_request
    (app : App) (filepath : string) (attachment_name : option string)
    (st : option Z) (w : World) (c : contents) :
  let tmp_file :=
    tmp_file_path app (display_name filepath attachment_name) (uuid_hex (next_uuid w)) in
  fs w !! filepath = Some (File c) ->
  str_contains "/" (display_name filepath attachment_name) = false ->
  creatable (downloads_dir app) w = true ->
  fs w !! tmp_file = None ->
  tmp_file ∉ locked w -> undisturbed tmp_file w -> undisturbed filepath w ->
  exists res w1 w2,
    ApiFileResult_init app filepath attachment_name st w = (Ok res, w1)
    /\ last (after_request w1) = Some (Cleanup tmp_file)
    /\ fs w1 !! tmp_file = Some (File c)
    /\ run_hook (Cleanup tmp_file) w1 = (Ok tt, w2)
    /\ fs w2 !! tmp_file = None
    /\ fs w2 !! filepath = Some (File c)
    /\ clock w2 = (clock w + KEEP_FILE_FOR_SECONDS)%nat.
Proof.
  intros tmp_file Hf Hn Hcr Hfree Hl Hu Hsrc.
  assert (filepath <> tmp_file) as Hne by (intros E; rewrite E in Hf; congruence).
  pose proof (ApiFileResult_init_inside app filepath attachment_name st w c Hf Hn Hcr Hfree)
    as H.
  cbv zeta in H. fold (tmp_file_path app (display_name filepath attachment_name)
                         (uuid_hex (next_uuid w))) in H. fold tmp_file in H.
  match type of H with _ = (_, ?w0) => set (w1 := w0) in * end.
  assert (fs w1 !! tmp_file = Some (File c)) as Hstaged by apply lookup_insert_eq.
  assert (fs w1 !! filepath = Some (File c)) as Hkept.
  { subst w1. cbn [fs]. rewrite lookup_insert_ne by congruence.
    apply before_copy_keeps, Hf. }
  assert (is_regular_file w1 tmp_file = true) as Hreg
    by (unfold is_regular_file; rewrite Hstaged; reflexivity).
  eexists _, w1, _. split; [exact H|].
  split; [subst w1; cbn [after_request]; apply last_snoc|].
  split; [exact Hstaged|].
  split; [unfold run_hook, cleanup_tempfile;
          apply cleanup_tempfile_from_quiet; [exact Hreg|exact Hl|exact Hu]|].
  cbn [fs set_fs log clock].
  split; [apply lookup_delete_eq|].
  rewrite lookup_delete_ne by congruence.
  destruct (sleep_undisturbed KEEP_FILE_FOR_SECONDS w1 filepath Hsrc) as (-> & _).
  split; [exact Hkept|]. rewrite sleep_clock. reflexivity.
Qed.

Lemma staged_copy_is_removed_after_the_request_witness :
  exists res w1 w2,
    ApiFileResult_init app0 "/tmp/report.pdf" None None world0 = (Ok res, w1)
    /\ last (after_request w1) = Some (Cleanup staged0)
    /\ fs w1 !! staged0 = Some (File (Data "%PDF"))
    /\ run_hook (Cleanup staged0) w1 = (Ok tt, w2)
    /\ fs w2 !! staged0 = None
    /\ fs w2 !! "/tmp/report.pdf" = Some (File (Data "%PDF"))
    /\ clock w2 = 60%nat.
Proof.
  apply (staged_copy_is_removed_after_the_request app0 "/tmp/report.pdf" None None world0
           (Data "%PDF")).
  - reflexivity.
  - reflexivity.
  - reflexivity.
  - reflexivity.
  - vm_compute. discriminate.
  - unfold undisturbed. simpl. constructor.
  - unfold undisturbed. simpl. constructor.
Defined.

(** ** ApiAsyncJob *)

(** X16. Two jobs whose constructions draw different uuids get different
    identifiers and different result paths: the 36 characters of
    [str(uuid4())] determine the 128 bits drawn, and the path determines
    the identifier. *)
Theorem job_files_do_not_collide
    (app : App) (target1 target2 : M pyvalue) (w1 w2 : World) :
  next_uuid w1 <> next_uuid w2 ->
  exists job1 job2 w1' w2',
    ApiAsyncJob_init app target1 w1 = (Ok job1, w1')
    /\ ApiAsyncJob_init app target2 w2 = (Ok job2, w2')
    /\ _job_id job1 <> _job_id job2
    /\ job_path app (_job_id job1) <> job_path app (_job_id job2).
Proof.
  intros Hne. eexists _, _, _, _.
  split; [apply ApiAsyncJob_init_eq|]. split; [apply ApiAsyncJob_init_eq|].
  cbn [_job_id].
  assert (uuid_str (next_uuid w1) <> uuid_str (next_uuid w2)) as Hid.
  { intros H. apply Hne. apply uuid_str_inj; [apply next_uuid_lt..|exact H]. }
  split; [exact Hid|]. intros H. apply Hid. exact (job_path_inj app _ _ H).
Qed.

Lemma job_files_do_not_collide_witness :
  exists job1 job2 w1' w2',
    ApiAsyncJob_init app0 failing_work world0 = (Ok job1, w1')
    /\ ApiAsyncJob_init app0 failing_work
         (world_after (ApiAsyncJob_init app0 failing_work) world0) = (Ok job2, w2')
    /\ _job_id job1 <> _job_id job2
    /\ job_path app0 (_job_id job1) <> job_path app0 (_job_id job2).
Proof.
  apply (job_files_do_not_collide app0 failing_work failing_work world0
           (world_after (ApiAsyncJob_init app0 failing_work) world0)).
  vm_compute. discriminate.
Defined.

(** X17. The identifier of a job has 36 characters, and the result file of
    a job lies directly in the directory [<static folder>/./temp], the one
    the thread creates when it is missing, under the name
    [<identifier>.json]. *)
Theorem job_file_lies_in_temp (app : App) (u : N) :
  String.length (uuid_str u) = 36%nat
  /\ dirname (job_path app (uuid_str u)) = path_join (static_folder app) "./temp"
  /\ basename (job_path app (uuid_str u)) = uuid_str u +:+ ".json".
Proof.
  split; [apply uuid_str_length|].
  destruct (path_join_tail (static_folder app) "./temp") as [Hd He];
    [discriminate|reflexivity|].
  assert (str_contains "/" (uuid_str u +:+ ".json") = false) as Hn.
  { rewrite str_contains_app, uuid_str_contains by reflexivity. reflexivity. }
  destruct (dirname_basename_join _ _ Hd He Hn) as (Hj & Hdir & Hbase).
  rewrite job_path_in_temp, <- Hj. split; [exact Hdir|exact Hbase].
Qed.

(** X18. The thread of a job adds nothing to what the unit of work does
    but the result file and the directories above it: it does not sleep,
    remove, draw a uuid or register a callback, and every entry of the
    file system other than the one at the path of the job is kept; what is
    new besides the result file are directories. *)
Theorem job_thread_writes_only_its_file
    (app : App) (job_id : string) (target : M pyvalue) (w : World) :
  let w1 := world_after target w in
  let w2 := world_after (async_target app job_id target) w in
  trace w2 = trace w1 /\ clock w2 = clock w1 /\ locked w2 = locked w1
  /\ uuid_count w2 = uuid_count w1 /\ after_request w2 = after_request w1
  /\ (forall p x, p <> job_path app job_id -> fs w1 !! p = Some x -> fs w2 !! p = Some x)
  /\ (forall p x, p <> job_path app job_id -> fs w2 !! p = Some x ->
        fs w1 !! p = Some x \/ x = Dir).
Proof.
  unfold world_after. rewrite async_target_eq.
  destruct (target w) as [r w1]. cbn [snd].
  destruct (handled r); [|destruct r; cbn [snd]; repeat split; auto].
  cbv zeta.
  destruct (or_test _ _) as [[]|e0]; [|cbn [snd]; repeat split; auto..].
  destruct (json_dumps (outcome r)) as [j|e]; cbn [snd];
    destruct (is_dir_in w1 _);
    cbn [fs set_fs trace clock locked uuid_count after_request];
    repeat split; try reflexivity; intros p x Hp;
      (rewrite lookup_insert_ne by congruence);
      first [ apply mkdir_all_keeps | apply mkdir_all_other
            | intros H; exact H | intros H; left; exact H ].
Qed.





(** ** The characters of a response *)

(** X21. Whenever [json.dumps] accepts the value, the body of the response
    is made of printable ASCII characters only ([' '] to ['~']), whatever
    text the value holds in its strings and keys: control characters,
    quotes and characters above 126 are written as escapes. *)
Theorem json_body_is_printable_ascii (v : pyvalue) (s : Z) (j : string) :
  json_encode v = Some j ->
  to_response (mkApiResult v s) None = Ok (mkResponse j s "application/json")
  /\ all_printable j = true.
Proof.
  intros Hj. split; [|exact (json_encode_printable v j Hj)].
  rewrite to_response_eq, Hj. reflexivity.
Qed.

Lemma json_body_is_printable_ascii_witness :
  to_response (mkApiResult (PList [PStr [233; 10; 8364; 128512]%N; PInt (-5); PFloat "1e+16"])
                           200) None
  = Ok (mkResponse (dq "['\u00e9\n\u20ac\ud83d\ude00', -5, 1e+16]") 200 "application/json")
  /\ all_printable (dq "['\u00e9\n\u20ac\ud83d\ude00', -5, 1e+16]") = true.
Proof.
  apply (json_body_is_printable_ascii
           (PList [PStr [233; 10; 8364; 128512]%N; PInt (-5); PFloat "1e+16"]) 200).
  reflexivity.
Defined.
